(** * Knugget central backend: summary codec, generation adapter and routes

    A shallow embedding of the TypeScript sources

      - src/routes/summary.ts   (two revisions, called V1 and V2 below)
      - src/services/generateSummary.ts (the local heuristic and the
        OpenAI-backed revision)
      - src/routes/auth.ts      (POST /auth/signup)

    JavaScript strings are sequences of 16-bit code units; they are modelled
    as lists of [N].  The three regular expressions of the summary codec are
    written with a lazy-star / search pair of combinators that follow the
    backtracking order of the ECMAScript matcher. *)

From Stdlib Require Import List NArith ZArith Bool Lia String Ascii.
From Stdlib Require Import DecimalString.
Import ListNotations.

Set Implicit Arguments.

(* ================================================================== *)
(** ** JavaScript strings *)
(* ================================================================== *)

Module JS.

Local Open Scope N_scope.

Definition jsstr := list N.

(** An ASCII literal as a JavaScript string. *)
Definition js (s : string) : jsstr := map N_of_ascii (list_ascii_of_string s).

Fixpoint jeqb (a b : jsstr) : bool :=
  match a, b with
  | [], [] => true
  | x :: a', y :: b' => (x =? y) && jeqb a' b'
  | _, _ => false
  end.

(** Truthiness of an optional string field of a JSON body: [undefined],
    [null] and the empty string are falsy. *)
Definition truthy (o : option jsstr) : bool :=
  match o with
  | Some (_ :: _) => true
  | _ => false
  end.

(** [a || b] on optional strings with a string default. *)
Definition orElse (o : option jsstr) (d : jsstr) : jsstr :=
  match o with
  | Some (c :: s) => c :: s
  | _ => d
  end.

(** ECMAScript LineTerminator: LF, CR, LS, PS. *)
Definition isLineTerminator (c : N) : bool :=
  (c =? 10) || (c =? 13) || (c =? 8232) || (c =? 8233).

(** ECMAScript WhiteSpace: TAB, VT, FF, SP, NBSP, ZWNBSP and category Zs. *)
Definition isWhiteSpace (c : N) : bool :=
  (c =? 9) || (c =? 11) || (c =? 12) || (c =? 32) || (c =? 160)
  || (c =? 5760) || ((8192 <=? c) && (c <=? 8202))
  || (c =? 8239) || (c =? 8287) || (c =? 12288) || (c =? 65279).

(** What [String.prototype.trim] strips and what [\s] matches. *)
Definition isSpace (c : N) : bool := isWhiteSpace c || isLineTerminator c.

Fixpoint trimStart (s : jsstr) : jsstr :=
  match s with
  | [] => []
  | c :: s' => if isSpace c then trimStart s' else s
  end.

Definition trimEnd (s : jsstr) : jsstr := rev (trimStart (rev s)).

Definition trim (s : jsstr) : jsstr := trimEnd (trimStart s).

(** [s.split(sep)] for a separator of one code unit. *)
Fixpoint split (sep : N) (s : jsstr) : list jsstr :=
  match s with
  | [] => [[]]
  | c :: s' =>
      if c =? sep then [] :: split sep s'
      else match split sep s' with
           | h :: t => (c :: h) :: t
           | [] => [[c]]
           end
  end.

(** [l.join(sep)]. *)
Fixpoint join (sep : jsstr) (l : list jsstr) : jsstr :=
  match l with
  | [] => []
  | x :: l' =>
      match l' with
      | [] => x
      | _ :: _ => x ++ sep ++ join sep l'
      end
  end.

(** [s.split(/[...]+/)] for a character class [p]: the string is cut at every
    maximal run of class members; [inRun] records that the previous code unit
    belonged to the run being skipped. *)
Fixpoint splitRuns (p : N -> bool) (inRun : bool) (s : jsstr) : list jsstr :=
  match s with
  | [] => [[]]
  | c :: s' =>
      if p c then
        (if inRun then splitRuns p true s' else [] :: splitRuns p true s')
      else match splitRuns p false s' with
           | h :: t => (c :: h) :: t
           | [] => [[c]]
           end
  end.

(** [arr.indexOf(x)] on an array of strings, as an option. *)
Fixpoint indexOf (arr : list jsstr) (x : jsstr) : option nat :=
  match arr with
  | [] => None
  | y :: arr' =>
      if jeqb y x then Some O
      else match indexOf arr' x with
           | Some i => Some (S i)
           | None => None
           end
  end.

(** [arr.filter((s, i, a) => f s i)] from index [i] on. *)
Fixpoint filteri (f : jsstr -> nat -> bool) (i : nat) (l : list jsstr) : list jsstr :=
  match l with
  | [] => []
  | x :: l' => if f x i then x :: filteri f (S i) l' else filteri f (S i) l'
  end.

(** [arr.map((x, i) => f x i)] from index [i] on. *)
Fixpoint mapi (f : jsstr -> nat -> jsstr) (i : nat) (l : list jsstr) : list jsstr :=
  match l with
  | [] => []
  | x :: l' => f x i :: mapi f (S i) l'
  end.

(** *** Regular-expression combinators *)

(** A literal, compared code unit by code unit with [eqc]. *)
Fixpoint matchLit (eqc : N -> N -> bool) (lit s : jsstr) : option jsstr :=
  match lit with
  | [] => Some s
  | l :: lit' =>
      match s with
      | [] => None
      | c :: s' => if eqc c l then matchLit eqc lit' s' else None
      end
  end.

(** Canonicalize of the [i] flag, on the range where it can reach an ASCII
    pattern character: a code unit of 128 or more never canonicalizes to an
    ASCII one, so comparing with an ASCII literal only needs a-z folded. *)
Definition canonicalize (c : N) : N :=
  if (97 <=? c) && (c <=? 122) then c - 32 else c.

Definition eqCI (c l : N) : bool := canonicalize c =? canonicalize l.

(** [X*?] followed by the continuation [k], for a one-character class [X]:
    the continuation is tried first and one more character is taken only
    when it fails.  Returns the text taken and the continuation's result. *)
Fixpoint lazyStar (A : Type) (p : N -> bool) (k : jsstr -> option A) (s : jsstr)
  : option (jsstr * A) :=
  match k s with
  | Some r => Some ([], r)
  | None =>
      match s with
      | [] => None
      | c :: s' =>
          if p c then
            match lazyStar p k s' with
            | Some (cap, r) => Some (c :: cap, r)
            | None => None
            end
          else None
      end
  end.

(** An unanchored, non-global match: the start index moves right until the
    pattern matches. *)
Fixpoint search (A : Type) (m : jsstr -> option A) (s : jsstr) : option A :=
  match m s with
  | Some r => Some r
  | None =>
      match s with
      | [] => None
      | _ :: s' => search m s'
      end
  end.

(** [.] without the [s] flag. *)
Definition isDot (c : N) : bool := negb (isLineTerminator c).

(** [[\s\S]]. *)
Definition anyChar (c : N) : bool := true.

(** [$] without the [m] flag. *)
Definition atEnd (s : jsstr) : option unit :=
  match s with
  | [] => Some tt
  | _ :: _ => None
  end.

End JS.

(* ================================================================== *)
(** ** Shared data *)
(* ================================================================== *)

Module Model.

Import JS.

(** The triple [{ title, keyPoints, fullSummary }] that the generation
    adapter returns and the routes send back. *)
Record Structured := mkStructured {
  title : jsstr;
  keyPoints : list jsstr;
  fullSummary : jsstr
}.

(** [req.body.metadata]: every field may be missing. *)
Record Metadata := mkMetadata {
  md_videoId : option jsstr;
  md_url : option jsstr;
  md_title : option jsstr
}.

End Model.

(* ================================================================== *)
(** ** The text codec of src/routes/summary.ts *)
(* ================================================================== *)

Module Codec.

Import JS Model.
Local Open Scope N_scope.

(** The literal [Key Points:]. *)
Definition KeyPointsLit : jsstr := Eval vm_compute in js "Key Points:".

(** The literal [- ] that prefixes every key point. *)
Definition dashSpace : jsstr := [45; 32].

(** [summaryText]:
    [`${title}\n\nKey Points:\n${keyPoints.map(p => `- ${p}`).join("\n")}\n\n${fullSummary}`] *)
Definition encode (t : jsstr) (kps : list jsstr) (prose : jsstr) : jsstr :=
  t ++ [10; 10] ++ KeyPointsLit ++ [10]
    ++ join [10] (map (fun point => dashSpace ++ point) kps)
    ++ [10; 10] ++ prose.

(** [/^(.*?)\n/]: capture 1.  The caret pins the match to index 0. *)
Definition titleMatch (s : jsstr) : option jsstr :=
  match lazyStar isDot (matchLit N.eqb [10]) s with
  | Some (cap, _) => Some cap
  | None => None
  end.

(** [(?=\n\n|$)] *)
Definition blankOrEnd (s : jsstr) : option unit :=
  match matchLit N.eqb [10; 10] s with
  | Some _ => Some tt
  | None => atEnd s
  end.

(** [/Key Points:([\s\S]*?)(?=\n\n|$)/i]: capture 1. *)
Definition keyPointsAt (t : jsstr) : option jsstr :=
  match matchLit eqCI KeyPointsLit t with
  | Some r =>
      match lazyStar anyChar blankOrEnd r with
      | Some (cap, _) => Some cap
      | None => None
      end
  | None => None
  end.

Definition keyPointsMatch (s : jsstr) : option jsstr := search keyPointsAt s.

(** [/(?:Key Points:[\s\S]*?\n\n)([\s\S]*?)$/]: capture 1. *)
Definition afterBlank (r : jsstr) : option (jsstr * unit) :=
  match matchLit N.eqb [10; 10] r with
  | Some r2 => lazyStar anyChar atEnd r2
  | None => None
  end.

Definition fullSummaryAt (t : jsstr) : option jsstr :=
  match matchLit N.eqb KeyPointsLit t with
  | Some r =>
      match lazyStar anyChar afterBlank r with
      | Some (_, (cap, _)) => Some cap
      | None => None
      end
  | None => None
  end.

Definition fullSummaryMatch (s : jsstr) : option jsstr := search fullSummaryAt s.

(** [m[1].split("-").map(p => p.trim()).filter(p => p.length > 0)] *)
Definition extractKeyPoints (cap : jsstr) : list jsstr :=
  filter (fun point => (0 <? List.length point)%nat) (map trim (split 45 cap)).

(** The decode of the read paths, [GET /summary] and [GET /summary/:id]:
    the title is taken from the first line whether or not the marker is
    there. *)
Definition decode (stored : jsstr) : Structured :=
  let t := match titleMatch stored with
           | Some cap => trim cap
           | None => []
           end in
  match keyPointsMatch stored with
  | Some cap =>
      mkStructured t (extractKeyPoints cap)
        (match fullSummaryMatch stored with
         | Some body => trim body
         | None => stored
         end)
  | None => mkStructured t [] stored
  end.

(** The decode inside [POST /summary/generate] for a record that already
    exists: the title starts from [metadata.title || "Video Summary"] and is
    replaced only inside the marker branch. *)
Definition decodeExisting (defaultTitle stored : jsstr) : Structured :=
  match keyPointsMatch stored with
  | Some cap =>
      mkStructured
        (match titleMatch stored with
         | Some c => trim c
         | None => defaultTitle
         end)
        (extractKeyPoints cap)
        (match fullSummaryMatch stored with
         | Some body => trim body
         | None => stored
         end)
  | None => mkStructured defaultTitle [] stored
  end.

End Codec.


(* ================================================================== *)
(** ** The generation adapter, src/services/generateSummary.ts *)
(* ================================================================== *)

Module Adapter.

Import JS Model.
Local Open Scope N_scope.

(** [try { body } catch { handler }] with [None] for a body that throws. *)
Definition tryCatch (A : Type) (body : option A) (handler : A) : A :=
  match body with
  | Some a => a
  | None => handler
  end.

(** [s || d] on strings: the empty string is falsy. *)
Definition orDefault (s d : jsstr) : jsstr :=
  match s with
  | [] => d
  | _ :: _ => s
  end.

(** [metadata?.title || "Video Summary"] *)
Definition titleOf (metadata : option Metadata) : jsstr :=
  match metadata with
  | Some md => orElse (md_title md) (js "Video Summary")
  | None => js "Video Summary"
  end.

(** The class [[.!?]]. *)
Definition isSentenceEnd (c : N) : bool := (c =? 46) || (c =? 33) || (c =? 63).

(** [transcript.split(/[.!?]+/).filter(s => s.trim().length > 20)] *)
Definition sentencesOf (transcript : jsstr) : list jsstr :=
  filter (fun s => (20 <? List.length (trim s))%nat)
         (splitRuns isSentenceEnd false transcript).

(** [arr.filter((s, i, arr) => arr.indexOf(s) === i)] *)
Definition dedupe (arr : list jsstr) : list jsstr :=
  filteri (fun s i => match indexOf arr s with
                      | Some j => Nat.eqb j i
                      | None => false
                      end) O arr.

(** [sentences.slice(0, Math.min(n, sentences.length)).map(s => s.trim())]
    followed by the duplicate filter. *)
Definition takeKeyPoints (n : nat) (sentences : list jsstr) : list jsstr :=
  dedupe (map trim (firstn (Nat.min n (List.length sentences)) sentences)).

(** [keyPoints.length > 0 ? keyPoints : []] *)
Definition orEmpty (keyPoints : list jsstr) : list jsstr :=
  if (0 <? List.length keyPoints)%nat then keyPoints else [].

(** *** The local heuristic (the revision under src/services) *)

Module Heuristic.

Definition failure (t : jsstr) : Structured :=
  mkStructured t []
    (js "Sorry, we couldn't generate a summary for this video at this time.").

(** On a string the body of the [try] has nothing that throws, so the
    handler is only there for the shape of the source. *)
Definition generateSummary (transcript : jsstr) (metadata : option Metadata)
  : Structured :=
  let t := titleOf metadata in
  tryCatch
    (let sentences := sentencesOf transcript in
     let kps := takeKeyPoints 5 sentences in
     let summary :=
       js "This video discusses " ++ join (js ". It also covers ") kps in
     Some (mkStructured t (orEmpty kps)
             (orDefault summary
                (js "Summary generation failed. Please try again."))))
    (failure t).

End Heuristic.

(** *** The OpenAI-backed revision *)

Module OpenAI.

(** The emoji table, in UTF-16 code units. *)
Definition emojis : list jsstr :=
  [ [55357; 56593]; [55357; 56481]; [55357; 56524]; [10024];
    [55357; 56589]; [55357; 56522]; [55358; 56800]; [55356; 57263] ].

(** [`${emojis[index % emojis.length]} ${point}`] *)
Definition decorate (point : jsstr) (index : nat) : jsstr :=
  nth (Nat.modulo index (List.length emojis)) emojis [] ++ [32] ++ point.

(** The prefix of every full summary: the brain emoji,
    [ **Summary:**] and a newline. *)
Definition summaryHeader : jsstr :=
  [55358; 56800] ++ js " **Summary:**" ++ [10].

(** The result of the innermost [catch]. *)
Definition failure (t : jsstr) : Structured :=
  mkStructured t
    [ [55357; 56524] ++ js " Unable to generate key points for this video." ]
    (summaryHeader
       ++ js "Sorry, we couldn't generate a summary for this video at this time.").

(** The fallback of the outer [catch]. *)
Definition fallback (t transcript : jsstr) : Structured :=
  tryCatch
    (let sentences := sentencesOf transcript in
     let kps := mapi decorate O (takeKeyPoints 8 sentences) in
     let topSentences :=
       join (js ". ")
            (firstn (Nat.min 10 (List.length sentences)) sentences) in
     Some (mkStructured t (orEmpty kps)
             (summaryHeader
                ++ orDefault topSentences (js "Summary not available."))))
    (failure t).

Section WithProvider.

(** The rest of the [try] block after the length test: the prompt, the call
    to the provider and the parse of its reply.  [None] stands for any
    exception it raises. *)
Variable remote : jsstr -> jsstr -> option Structured.

Definition generateSummary (transcript : jsstr) (metadata : option Metadata)
  : Structured :=
  let t := titleOf metadata in
  tryCatch
    (if (List.length transcript <? 100)%nat then None  (* throw new Error *)
     else remote t transcript)
    (fallback t transcript).

End WithProvider.

End OpenAI.

End Adapter.

(* ================================================================== *)
(** ** The store behind the Prisma client *)
(* ================================================================== *)

Module Store.

Import JS.
Local Open Scope Z_scope.

(** prisma/schema.prisma, model User (imageUrl, emailVerified and the
    timestamps are not read by the modelled routes and are left out). *)
Record User := mkUser {
  u_id : jsstr;
  u_email : jsstr;
  u_name : option jsstr;
  u_passwordHash : jsstr;
  u_credits : Z;
  u_verificationToken : option jsstr;
  u_refreshToken : option jsstr;
  u_lastLogin : option Z
}.

(** prisma/schema.prisma, model Summary.  [title] and [videoId] are
    required columns without a default ([title String], [videoId String]). *)
Record Summary := mkSummary {
  s_id : jsstr;
  s_userId : jsstr;
  s_title : jsstr;
  s_videoId : jsstr;
  s_videoUrl : jsstr;
  s_transcript : jsstr;
  s_summary : jsstr;
  s_createdAt : Z
}.

Record DB := mkDB {
  users : list User;
  summaries : list Summary
}.

(** What a request finds outside the store: which client calls throw, the
    uuid the database draws for a created row, and the clock in
    milliseconds. *)
Record Env := mkEnv {
  findFirstThrows : bool;
  findUniqueThrows : bool;
  createThrows : bool;
  updateThrows : bool;
  deleteThrows : bool;
  uuid : jsstr;
  now : Z
}.

(** Every client call returns [None] when it throws. *)

(** [summary.findFirst({ where })] without [orderBy]: the first row of the
    table that satisfies the filter; [create] appends at the end. *)
Definition findFirst (e : Env) (where_ : Summary -> bool) (db : DB)
  : option (option Summary) :=
  if findFirstThrows e then None else Some (find where_ (summaries db)).

Definition hasId (id : jsstr) (u : User) : bool := jeqb (u_id u) id.

Definition findUnique (e : Env) (id : jsstr) (db : DB) : option (option User) :=
  if findUniqueThrows e then None else Some (find (hasId id) (users db)).

Definition findUniqueByEmail (e : Env) (email : jsstr) (db : DB)
  : option (option User) :=
  if findUniqueThrows e then None
  else Some (find (fun u => jeqb (u_email u) email) (users db)).

(** [summary.create]: [rowTitle] and [rowVideoId] are the [title] and
    [videoId] of [data], [None] when [data] has no such key.  Both columns are
    required and have no default, so a create that leaves one out throws; so
    does a clash on the primary key.  Otherwise the row gets the drawn uuid
    and the current time. *)
Definition summaryCreate (e : Env) (userId videoUrl summaryText transcript : jsstr)
    (rowTitle rowVideoId : option jsstr) (db : DB) : option (DB * Summary) :=
  if createThrows e then None
  else
    match rowTitle, rowVideoId with
    | Some t, Some v =>
        if existsb (fun s => jeqb (s_id s) (uuid e)) (summaries db) then None
        else
          let row := mkSummary (uuid e) userId t v videoUrl
                       transcript summaryText (now e) in
          Some (mkDB (users db) (summaries db ++ [row]), row)
    | _, _ => None
    end.

(** The least value of the Int column. *)
Definition int4Min : Z := -2147483648.

Definition setCredits (u : User) (c : Z) : User :=
  mkUser (u_id u) (u_email u) (u_name u) (u_passwordHash u) c
    (u_verificationToken u) (u_refreshToken u) (u_lastLogin u).

Definition debit (id : jsstr) (u : User) : User :=
  if hasId id u then setCredits u (u_credits u - 1) else u.

(** [user.update({ where: { id }, data: { credits: { decrement: 1 } } })]:
    throws when no such user exists or the column would leave its range. *)
Definition decrementCredits (e : Env) (id : jsstr) (db : DB) : option DB :=
  if updateThrows e then None
  else match find (hasId id) (users db) with
       | None => None
       | Some u =>
           if u_credits u - 1 <? int4Min then None
           else Some (mkDB (map (debit id) (users db)) (summaries db))
       end.

(** [summary.delete({ where: { id } })]: throws when the row is missing. *)
Definition summaryDelete (e : Env) (id : jsstr) (db : DB) : option DB :=
  if deleteThrows e then None
  else if existsb (fun s => jeqb (s_id s) id) (summaries db) then
    Some (mkDB (users db)
            (filter (fun s => negb (jeqb (s_id s) id)) (summaries db)))
  else None.

(** [user.create]: a clash on the id or on the unique email throws. *)
Definition userCreate (e : Env) (u : User) (db : DB) : option (DB * User) :=
  if createThrows e then None
  else if existsb (fun v => jeqb (u_id v) (u_id u) || jeqb (u_email v) (u_email u))
                  (users db) then None
  else Some (mkDB (users db ++ [u]) (summaries db), u).

Definition setLogin (token : jsstr) (t : Z) (id : jsstr) (u : User) : User :=
  if hasId id u then
    mkUser (u_id u) (u_email u) (u_name u) (u_passwordHash u) (u_credits u)
      (u_verificationToken u) (Some token) (Some t)
  else u.

(** [user.update({ where: { id }, data: { refreshToken, lastLogin } })] *)
Definition recordLogin (e : Env) (id token : jsstr) (db : DB) : option DB :=
  if updateThrows e then None
  else match find (hasId id) (users db) with
       | None => None
       | Some _ =>
           Some (mkDB (map (setLogin token (now e) id) (users db)) (summaries db))
       end.

(** [prisma.$transaction(async tx => ...)]: the writes of the callback are
    kept when it returns and dropped when it throws. *)
Definition transaction (A : Type) (callback : DB -> option (DB * A)) (db : DB)
  : option (DB * A) := callback db.

(** The balance of an account, when it exists. *)
Definition creditsOf (id : jsstr) (db : DB) : option Z :=
  option_map u_credits (find (hasId id) (users db)).

(** Primary keys are unique. *)
Definition wellFormed (db : DB) : Prop :=
  NoDup (map s_id (summaries db)).

End Store.

(* ================================================================== *)
(** ** Requests and responses *)
(* ================================================================== *)

Module Http.

Import JS Model Store.

Record GenerateBody := mkGenerateBody {
  content : option jsstr;
  metadata : option Metadata
}.

Record SaveBody := mkSaveBody {
  sv_videoId : option jsstr;
  sv_title : option jsstr;
  sv_keyPoints : option (list jsstr);
  sv_fullSummary : option jsstr;
  sv_sourceUrl : option jsstr;
  sv_transcript : option jsstr
}.

Record SignupBody := mkSignupBody {
  su_email : option jsstr;
  su_password : option jsstr;
  su_name : option jsstr
}.

(** The JSON bodies the modelled routes send. *)
Inductive Payload :=
| Failure (error : string)
| Existing (d : Structured) (sourceUrl id : jsstr) (createdAt : Z)
    (alreadySaved : option bool)
| Generated (s : Structured) (id : option jsstr) (sourceUrl : jsstr)
    (createdAt : option Z) (alreadySaved : option bool) (creditsRemaining : Z)
| Saved (id : jsstr) (createdAt : Z) (alreadySaved : option bool)
| Fetched (id : jsstr) (d : Structured) (sourceUrl : jsstr) (createdAt : Z)
| Deleted (id : jsstr)
| SignedUp (token : jsstr) (expiresAt : Z) (user : User).

Record Response := mkResponse {
  status : nat;
  payload : Payload
}.

Definition ok (p : Payload) : Response := mkResponse 200 p.
Definition fail (code : nat) (error : string) : Response :=
  mkResponse code (Failure error).

(** [`https://www.youtube.com/watch?v=${videoId}`] *)
Definition watchUrl (videoId : jsstr) : jsstr :=
  js "https://www.youtube.com/watch?v=" ++ videoId.

End Http.

(* ================================================================== *)
(** ** src/routes/summary.ts, first revision *)
(* ================================================================== *)

Module V1.

Import JS Model Codec Store Http.
Local Open Scope Z_scope.

Section Routes.

(** [generateSummary] of ../services/generateSummary. *)
Variable generateSummary : jsstr -> option Metadata -> Structured.

(** The callback handed to [prisma.$transaction]; the [data] of its
    create has neither [title] nor [videoId]. *)
Definition persist (e : Env) (userId videoUrl summaryText content : jsstr) (tx : DB)
  : option (DB * Summary) :=
  match summaryCreate e userId videoUrl summaryText content None None tx with
  | Some (tx1, createdSummary) =>
      match decrementCredits e userId tx1 with
      | Some tx2 => Some (tx2, createdSummary)
      | None => None
      end
  | None => None
  end.

(** The second half of the handler: generate, format, store inside a
    transaction, answer. *)
Definition generateAndStore (e : Env) (userId videoUrl transcript : jsstr)
    (md : Metadata) (userCredits : Z) (db : DB) : DB * Response :=
  let summary := generateSummary transcript (Some md) in
  match fullSummary summary with
  | [] => (db, fail 500 "Failed to generate summary")
  | _ :: _ =>
    let summaryText :=
      encode (title summary) (keyPoints summary) (fullSummary summary) in
    match transaction (persist e userId videoUrl summaryText transcript) db with
    | Some (db', newSummary) =>
        (db', ok (Generated summary (Some (s_id newSummary)) videoUrl
                    (Some (s_createdAt newSummary)) None
                    (Z.max 0 (userCredits - 1))))
    | None =>
        (* "Continue and return the summary even if saving fails" *)
        (db, ok (Generated summary None videoUrl None None
                   (Z.max 0 (userCredits - 1))))
    end
  end.

(** [router.post("/generate", authMiddleware, ...)] *)
Definition generate (e : Env) (user : option jsstr) (body : GenerateBody) (db : DB)
  : DB * Response :=
  match user with
  | Some ((_ :: _) as userId) =>
    match content body with
    | Some ((_ :: _) as transcript) =>
      match metadata body with
      | Some md =>
        match md_videoId md with
        | Some ((_ :: _) as videoId) =>
          let videoUrl := orElse (md_url md) (watchUrl videoId) in
          match findFirst e (fun s => jeqb (s_videoUrl s) videoUrl) db with
          | Some (Some existingSummary) =>
              (db, ok (Existing
                         (decodeExisting (orElse (md_title md) (js "Video Summary"))
                            (s_summary existingSummary))
                         (s_videoUrl existingSummary) (s_id existingSummary)
                         (s_createdAt existingSummary) None))
          | _ =>
            (* no record, or the lookup threw and was only logged *)
            match findUnique e userId db with
            | Some None => (db, fail 404 "User not found")
            | Some (Some u) =>
                generateAndStore e userId videoUrl transcript md (u_credits u) db
            | None =>
                (* "Fallback value if we can't get the real count" *)
                generateAndStore e userId videoUrl transcript md 0 db
            end
          end
        | _ => (db, fail 400 "Video metadata with videoId is required")
        end
      | None => (db, fail 400 "Video metadata with videoId is required")
      end
    | _ => (db, fail 400 "Content (transcript) is required")
    end
  | _ => (db, fail 401 "User not authenticated")
  end.

(** [router.post("/save", authMiddleware, ...)]: creates without looking,
    with a [data] that has neither [title] nor [videoId]. *)
Definition save (e : Env) (userId : jsstr) (body : SaveBody) (db : DB)
  : DB * Response :=
  match sv_videoId body, sv_title body, sv_fullSummary body with
  | Some ((_ :: _) as videoId), Some ((_ :: _) as t), Some ((_ :: _) as prose) =>
    let videoUrl := orElse (sv_sourceUrl body) (watchUrl videoId) in
    match sv_keyPoints body with
    | None => (db, fail 500 "Failed to create summary")   (* keyPoints.map throws *)
    | Some kps =>
      let summaryText := encode t kps prose in
      match summaryCreate e userId videoUrl summaryText [] None None db with
      | Some (db', newSummary) =>
          (db', ok (Saved (s_id newSummary) (s_createdAt newSummary) None))
      | None => (db, fail 500 "Failed to create summary")
      end
    end
  | _, _, _ => (db, fail 400 "Missing required fields")
  end.

End Routes.

(** [router.get("/:id", authMiddleware, ...)]: the read path of a single
    record; the list route formats every row with the same [decode]. *)
Definition getSummary (e : Env) (userId id : jsstr) (db : DB) : DB * Response :=
  match findFirst e (fun s => jeqb (s_id s) id && jeqb (s_userId s) userId) db with
  | None => (db, fail 500 "Failed to fetch summary")
  | Some None => (db, fail 404 "Summary not found")
  | Some (Some summary) =>
      (db, ok (Fetched (s_id summary) (decode (s_summary summary))
                 (s_videoUrl summary) (s_createdAt summary)))
  end.

(** [router.delete("/:id", authMiddleware, ...)] *)
Definition deleteSummary (e : Env) (userId id : jsstr) (db : DB) : DB * Response :=
  match findFirst e (fun s => jeqb (s_id s) id && jeqb (s_userId s) userId) db with
  | None => (db, fail 500 "Failed to delete summary")
  | Some None => (db, fail 404 "Summary not found")
  | Some (Some _) =>
      match summaryDelete e id db with
      | Some db' => (db', ok (Deleted id))
      | None => (db, fail 500 "Failed to delete summary")
      end
  end.

End V1.

(* ================================================================== *)
(** ** src/routes/summary.ts, second revision *)
(* ================================================================== *)

Module V2.

Import JS Model Codec Store Http.
Local Open Scope Z_scope.

Section Routes.

Variable generateSummary : jsstr -> option Metadata -> Structured.

(** [router.post("/generate", authMiddleware, ...)]: the lookup is scoped to
    the caller, the balance is checked, and the summary is returned without
    being stored. *)
Definition generate (e : Env) (user : option jsstr) (body : GenerateBody) (db : DB)
  : DB * Response :=
  match user with
  | Some ((_ :: _) as userId) =>
    match content body with
    | Some ((_ :: _) as transcript) =>
      match metadata body with
      | Some md =>
        match md_videoId md with
        | Some ((_ :: _) as videoId) =>
          let videoUrl := orElse (md_url md) (watchUrl videoId) in
          match findFirst e (fun s => jeqb (s_videoUrl s) videoUrl
                                      && jeqb (s_userId s) userId) db with
          | Some (Some existingSummary) =>
              (db, ok (Existing
                         (decodeExisting (orElse (md_title md) (js "Video Summary"))
                            (s_summary existingSummary))
                         (s_videoUrl existingSummary) (s_id existingSummary)
                         (s_createdAt existingSummary) (Some true)))
          | _ =>
            match findUnique e userId db with
            | None => (db, fail 500 "Failed to check user credits")
            | Some None => (db, fail 404 "User not found")
            | Some (Some u) =>
              let userCredits := u_credits u in
              if userCredits <=? 0 then
                (db, fail 403 "Not enough credits to generate summary")
              else
                let summary := generateSummary transcript (Some md) in
                match fullSummary summary with
                | [] => (db, fail 500 "Failed to generate summary")
                | _ :: _ =>
                  let db' :=
                    match decrementCredits e userId db with
                    | Some d => d
                    | None => db   (* "Continue anyway to return the summary" *)
                    end in
                  (db', ok (Generated summary None videoUrl None (Some false)
                              (Z.max 0 (userCredits - 1))))
                end
            end
          end
        | _ => (db, fail 400 "Video metadata with videoId is required")
        end
      | None => (db, fail 400 "Video metadata with videoId is required")
      end
    | _ => (db, fail 400 "Content (transcript) is required")
    end
  | _ => (db, fail 401 "User not authenticated")
  end.

End Routes.

(** [router.post("/save", authMiddleware, ...)]: looks for a record of the
    caller with the same video URL first. *)
Definition save (e : Env) (userId : jsstr) (body : SaveBody) (db : DB)
  : DB * Response :=
  match sv_videoId body, sv_title body, sv_fullSummary body with
  | Some ((_ :: _) as videoId), Some ((_ :: _) as t), Some ((_ :: _) as prose) =>
    let videoUrl := orElse (sv_sourceUrl body) (watchUrl videoId) in
    match findFirst e (fun s => jeqb (s_videoUrl s) videoUrl
                                && jeqb (s_userId s) userId) db with
    | None => (db, fail 500 "Failed to save summary")
    | Some (Some existingSummary) =>
        (db, ok (Saved (s_id existingSummary) (s_createdAt existingSummary)
                   (Some true)))
    | Some None =>
      match sv_keyPoints body with
      | None => (db, fail 500 "Failed to save summary")   (* keyPoints.map throws *)
      | Some kps =>
        let summaryText := encode t kps prose in
        match summaryCreate e userId videoUrl summaryText
                (orElse (sv_transcript body) []) (Some t) (Some videoId) db with
        | Some (db', newSummary) =>
            (db', ok (Saved (s_id newSummary) (s_createdAt newSummary) (Some true)))
        | None => (db, fail 500 "Failed to save summary")
        end
      end
    end
  | _, _, _ => (db, fail 400 "Missing required fields")
  end.

(** [router.delete("/:id", authMiddleware, ...)]: the text of the first
    revision, unchanged. *)
Definition deleteSummary (e : Env) (userId id : jsstr) (db : DB) : DB * Response :=
  match findFirst e (fun s => jeqb (s_id s) id && jeqb (s_userId s) userId) db with
  | None => (db, fail 500 "Failed to delete summary")
  | Some None => (db, fail 404 "Summary not found")
  | Some (Some _) =>
      match summaryDelete e id db with
      | Some db' => (db', ok (Deleted id))
      | None => (db, fail 500 "Failed to delete summary")
      end
  end.

End V2.

(* ================================================================== *)
(** ** src/routes/auth.ts, POST /auth/signup *)
(* ================================================================== *)

Module Auth.

Import JS Store Http.
Local Open Scope Z_scope.

(** src/utils/auth.ts as seen from the route: the hash, the two random
    tokens and the signed access token. *)
Record Crypto := mkCrypto {
  hashPassword : jsstr -> jsstr;
  verificationToken : jsstr;
  accessToken : jsstr -> jsstr -> jsstr;
  refreshToken : jsstr
}.

(** [30 * 24 * 60 * 60 * 1000] *)
Definition refreshTokenExpiresIn : Z := 30 * 24 * 60 * 60 * 1000.

Definition signup (e : Env) (c : Crypto) (body : SignupBody) (db : DB)
  : DB * Response :=
  match su_email body, su_password body, su_name body with
  | Some ((_ :: _) as email), Some ((_ :: _) as password), Some ((_ :: _) as name) =>
    match findUniqueByEmail e email db with
    | None => (db, fail 500 "Server error")
    | Some (Some _) => (db, fail 400 "User already exists")
    | Some None =>
      let data :=
        mkUser (uuid e) email (Some name) (hashPassword c password)
          10 (* Initial free credits *)
          (Some (verificationToken c)) None None in
      match userCreate e data db with
      | None => (db, fail 500 "Server error")
      | Some (db1, user) =>
        match recordLogin e (u_id user) (refreshToken c) db1 with
        | None => (db1, fail 500 "Server error")
        | Some db2 =>
            (db2, ok (SignedUp (accessToken c (u_id user) (u_email user))
                        (now e + refreshTokenExpiresIn) user))
        end
      end
    end
  | _, _, _ => (db, fail 400 "Missing required fields")
  end.

End Auth.

(* ================================================================== *)
(** ** Predicates used in the statements *)
(* ================================================================== *)

Module Props.

Import JS Model Codec.
Local Open Scope N_scope.

(** [lit] occurs somewhere in [s], code units compared with [eqc]. *)
Fixpoint occurs (eqc : N -> N -> bool) (lit s : jsstr) : bool :=
  match matchLit eqc lit s with
  | Some _ => true
  | None =>
      match s with
      | [] => false
      | _ :: s' => occurs eqc lit s'
      end
  end.

(** The marker, in any letter case. *)
Definition hasMarkerCI (s : jsstr) : bool := occurs eqCI KeyPointsLit s.

(** The marker as written. *)
Definition hasMarker (s : jsstr) : bool := occurs N.eqb KeyPointsLit s.

Definition headOk (s : jsstr) : bool :=
  match s with
  | [] => true
  | c :: _ => negb (isSpace c)
  end.

(** No white space at either end. *)
Definition trimmed (s : jsstr) : bool := headOk s && headOk (rev s).

(** The continuation [k] fails at every position inside [pre] when [pre] is
    followed by [rest]. *)
Fixpoint failsInside (A : Type) (k : jsstr -> option A) (pre rest : jsstr) : Prop :=
  match pre with
  | [] => True
  | _ :: pre' => k (pre ++ rest) = None /\ failsInside k pre' rest
  end.

(** No newline is last or followed by another newline. *)
Fixpoint noBlank (s : jsstr) : bool :=
  match s with
  | [] => true
  | c :: s' =>
      (if c =? 10 then
         match s' with
         | [] => false
         | d :: _ => negb (d =? 10)
         end
       else true) && noBlank s'
  end.

(** A title the codec gives back: one line, trimmed, without the marker. *)
Definition cleanTitle (t : jsstr) : bool :=
  forallb isDot t && trimmed t && negb (hasMarkerCI t).

(** A key point the codec gives back: not empty, trimmed, free of the
    hyphen it is split on and of blank lines. *)
Definition cleanPoint (p : jsstr) : bool :=
  (0 <? List.length p)%nat && trimmed p
  && forallb (fun c => negb (c =? 45)) p && noBlank p.

(** The block [\n- p1\n- p2 ...] that follows the marker. *)
Definition bulletBlock (kps : list jsstr) : jsstr :=
  List.concat (map (fun p => 10 :: dashSpace ++ p) kps).

(** What [split("-")] makes of [ p1\n- p2 ...]. *)
Fixpoint pieces (p : jsstr) (kps : list jsstr) : list jsstr :=
  match kps with
  | [] => [32 :: p]
  | q :: kps' => (32 :: p ++ [10]) :: pieces q kps'
  end.

End Props.

(* ================================================================== *)
(** ** Concrete inputs *)
(* ================================================================== *)

Module Samples.

Import JS Model Codec Store Http.
Local Open Scope N_scope.

(** The example of the specification. *)
Definition myTitle : jsstr := js "My Video".
Definition myPoints : list jsstr := [js "point one"; js "point two"].
Definition myProse : jsstr := js "Full text.".

(** [My Video\n\nKey Points:\n- point one\n- point two\n\nFull text.] *)
Definition myBlob : jsstr :=
  js "My Video" ++ [10; 10] ++ js "Key Points:" ++ [10]
    ++ js "- point one" ++ [10] ++ js "- point two" ++ [10; 10]
    ++ js "Full text.".

(** A key point with a hyphen in it. *)
Definition hyphenPoints : list jsstr := [js "well-known fact"].

(** Two lines, no marker: [Hello\nWorld]. *)
Definition twoLines : jsstr := js "Hello" ++ [10] ++ js "World".

(** The marker in lower case. *)
Definition lowerMarker : jsstr := js "key points: a-b".

(** A transcript below the provider's minimum: [Hello world.] *)
Definition shortTranscript : jsstr := js "Hello world.".

(** A provider stub for closed examples; it is never reached on a short
    transcript. *)
Definition noProvider (t transcript : jsstr) : option Structured := None.

(** A request environment in which no client call throws. *)
Definition calm (id : jsstr) (t : Z) : Env :=
  mkEnv false false false false false id t.


Definition alice : jsstr := js "alice".
Definition bob : jsstr := js "bob".
Definition carol : jsstr := js "carol".

Definition account (id : jsstr) (credits : Z) : User :=
  mkUser id (id ++ js "@example.org") None (js "hash") credits None None None.

(** A generate request for the video [abc]. *)
Definition talk : GenerateBody :=
  mkGenerateBody
    (Some (js "The speaker explains how compilers are verified step by step."))
    (Some (mkMetadata (Some (js "abc")) None None)).

Definition talkUrl : jsstr := watchUrl (js "abc").

(** A stored record for the video [abc]. *)
Definition rowOf (id owner prose : jsstr) : Summary :=
  mkSummary id owner myTitle (js "abc") talkUrl [] (encode myTitle myPoints prose) 1.

Definition aliceRow : Summary := rowOf (js "s-alice") alice (js "Alice's text.").
Definition carolRow : Summary := rowOf (js "s-carol") carol (js "Carol's text.").

(** Carol's record for the video was stored before Alice's. *)
Definition sharedDb : DB :=
  mkDB [account alice 10; account bob 10; account carol 10] [carolRow; aliceRow].

(** A save request for the video [abc]. *)
Definition saveTalk : SaveBody :=
  mkSaveBody (Some (js "abc")) (Some myTitle) (Some myPoints) (Some myProse)
    None None.

(** Stand-ins for bcrypt, the random tokens and the signed token. *)
Definition toyCrypto : Auth.Crypto :=
  Auth.mkCrypto (fun password => js "h:" ++ password) (js "vt")
    (fun id email => js "jwt:" ++ id) (js "rt").

Definition signupAlice : SignupBody :=
  mkSignupBody (Some (js "alice@example.org")) (Some (js "secret"))
    (Some (js "Alice")).

End Samples.

(* ================================================================== *)
(** ** More string primitives *)
(* ================================================================== *)

Module JSMore.

Import JS.
Local Open Scope N_scope.

Fixpoint takeWhile (p : N -> bool) (s : jsstr) : jsstr :=
  match s with
  | [] => []
  | c :: s' => if p c then c :: takeWhile p s' else []
  end.

Fixpoint dropWhile (p : N -> bool) (s : jsstr) : jsstr :=
  match s with
  | [] => []
  | c :: s' => if p c then dropWhile p s' else s
  end.

(** [X+] with nothing after it: the longest run of class members, which
    must not be empty.  Returns the run and the rest. *)
Definition greedyPlus (p : N -> bool) (s : jsstr) : option (jsstr * jsstr) :=
  match takeWhile p s with
  | [] => None
  | c :: run => Some (c :: run, dropWhile p s)
  end.

(** [s.startsWith(lit)] *)
Definition startsWith (lit s : jsstr) : bool :=
  match matchLit N.eqb lit s with
  | Some _ => true
  | None => false
  end.

(** [s.split(sep)] for a separator of any positive length; [skip] counts
    the code units of a separator already matched that are still to be passed
    over. *)
Fixpoint splitStr (sep : jsstr) (skip : nat) (s : jsstr) : list jsstr :=
  match s with
  | [] => [[]]
  | c :: s' =>
      match skip with
      | S k => splitStr sep k s'
      | O =>
          match matchLit N.eqb sep s with
          | Some _ => [] :: splitStr sep (Nat.pred (List.length sep)) s'
          | None =>
              match splitStr sep O s' with
              | h :: t => (c :: h) :: t
              | [] => [[c]]
              end
          end
      end
  end.

(** [n.toString()] for a non-negative integer. *)
Definition decimal (n : N) : jsstr := js (NilZero.string_of_uint (N.to_uint n)).

(** [s.padStart(2, "0")] *)
Definition padStart2 (s : jsstr) : jsstr :=
  match s with
  | [] => [48; 48]
  | [c] => [48; c]
  | _ => s
  end.

(** [s.match(/[^.!?]+[.!?]+/g) || []]: every maximal run of other characters
    that is followed by a run of [.!?], with that run.  [body] and [tail] hold
    the two runs of the match under way; text after the last terminator is
    dropped. *)
Fixpoint sentenceMatches (p : N -> bool) (body tail : jsstr) (s : jsstr)
  : list jsstr :=
  match s with
  | [] =>
      match tail with
      | [] => []
      | _ :: _ => [body ++ tail]
      end
  | c :: s' =>
      if p c then
        match body with
        | [] => sentenceMatches p [] [] s'
        | _ :: _ => sentenceMatches p body (tail ++ [c]) s'
        end
      else
        match tail with
        | [] => sentenceMatches p (body ++ [c]) [] s'
        | _ :: _ => (body ++ tail) :: sentenceMatches p [c] [] s'
        end
  end.

End JSMore.

(* ================================================================== *)
(** ** src/routes/summary.ts, second revision: the read routes *)
(* ================================================================== *)

Module Reads.

Import JS JSMore Model Codec Adapter Store Http.
Local Open Scope N_scope.

(** What a route sends: a success payload or a status with an error
    message. *)
Inductive Result (A : Type) :=
| Sent (a : A)
| Refused (code : nat) (error : string).

Arguments Refused {A} code error.

(** [[^&]] *)
Definition notAmp (c : N) : bool := negb (c =? 38).

(** [/(?:youtube\.com\/watch\?v=|youtu\.be\/)([^&]+)/] at one start
    index: the first alternative, and the second when the first or the group
    after it fails. *)
Definition videoIdAt (t : jsstr) : option jsstr :=
  let short :=
    match matchLit N.eqb (js "youtu.be/") t with
    | Some r => option_map fst (greedyPlus notAmp r)
    | None => None
    end in
  match matchLit N.eqb (js "youtube.com/watch?v=") t with
  | Some r =>
      match greedyPlus notAmp r with
      | Some (cap, _) => Some cap
      | None => short
      end
  | None => short
  end.

(** The [videoId] of a formatted record: [null] when the URL is empty or
    has no match. *)
Definition extractVideoId (videoUrl : jsstr) : option jsstr :=
  match videoUrl with
  | [] => None
  | _ :: _ => search videoIdAt videoUrl
  end.

(** The object both [GET /summary] (per row) and [GET /summary/:id] build. *)
Record Detail := mkDetail {
  d_id : jsstr;
  d_summary : Structured;
  d_sourceUrl : jsstr;
  d_createdAt : Z;
  d_transcript : jsstr;
  d_videoId : option jsstr
}.

Definition formatSummary (row : Summary) : Detail :=
  mkDetail (s_id row) (decode (s_summary row)) (s_videoUrl row)
    (s_createdAt row) (s_transcript row) (extractVideoId (s_videoUrl row)).

(** [router.get("/:id", authMiddleware, ...)] *)
Definition getSummary (e : Env) (userId id : jsstr) (db : DB)
  : DB * Result Detail :=
  match findFirst e (fun s => jeqb (s_id s) id && jeqb (s_userId s) userId) db with
  | None => (db, Refused 500 "Failed to fetch summary")
  | Some None => (db, Refused 404 "Summary not found")
  | Some (Some summary) => (db, Sent (formatSummary summary))
  end.

(** *** GET /summary/:id/transcript *)

Definition demoHeader : jsstr :=
  js "This is an auto-generated transcript for demo purposes:" ++ [10; 10].

(** [`[00:${(i * 30).toString().padStart(2, "0")}:00] ${sentence.trim()}\n`] *)
Definition demoLine (sentence : jsstr) (i : nat) : jsstr :=
  js "[00:" ++ padStart2 (decimal (N.of_nat i * 30)) ++ js ":00] "
    ++ trim sentence ++ [10].

(** [!t || t.trim() === ""] *)
Definition isBlank (t : jsstr) : bool :=
  match trim t with
  | [] => true
  | _ :: _ => false
  end.

(** The transcript sent for a record: the stored one, or, when that is
    blank, lines made from the prose of the stored summary, or a fixed
    sentence. *)
Definition transcriptText (row : Summary) : jsstr :=
  let stored := s_transcript row in
  if isBlank stored then
    let made :=
      match s_summary row with
      | [] => stored
      | _ :: _ =>
          match fullSummaryMatch (s_summary row) with
          | Some ((_ :: _) as body) =>
              let sentences := sentenceMatches isSentenceEnd [] [] (trim body) in
              demoHeader ++ List.concat (mapi demoLine O sentences)
          | _ => stored
          end
      end in
    match made with
    | [] => js "No transcript is available for this video."
    | _ :: _ => made
    end
  else stored.

Record TranscriptReply := mkTranscriptReply {
  t_title : jsstr;
  t_transcript : jsstr
}.

(** [summary.findUnique({ where: { id, userId } })] *)
Definition summaryFindUnique (e : Env) (id userId : jsstr) (db : DB)
  : option (option Summary) :=
  if findUniqueThrows e then None
  else Some (find (fun s => jeqb (s_id s) id && jeqb (s_userId s) userId)
               (summaries db)).

(** [router.get("/:id/transcript", authMiddleware, ...)] *)
Definition getTranscript (e : Env) (user : option jsstr) (summaryId : jsstr) (db : DB)
  : DB * Result TranscriptReply :=
  match user with
  | Some ((_ :: _) as userId) =>
      match summaryFindUnique e summaryId userId db with
      | None => (db, Refused 500 "Failed to fetch transcript")
      | Some None => (db, Refused 404 "Summary not found")
      | Some (Some summary) =>
          let t := match titleMatch (s_summary summary) with
                   | Some cap => trim cap
                   | None => []
                   end in
          (db, Sent (mkTranscriptReply t (transcriptText summary)))
      end
  | _ => (db, Refused 401 "User not authenticated")
  end.

End Reads.

(* ================================================================== *)
(** ** The OpenAI-backed adapter: reading the provider's reply *)
(* ================================================================== *)

Module Reply.

Import JS JSMore Model Adapter Props.
Local Open Scope N_scope.

(** [text.includes(lit)] *)
Definition includes (lit text : jsstr) : bool := occurs N.eqb lit text.

Definition summaryLit : jsstr := Eval vm_compute in js "SUMMARY:".
Definition pointsLit : jsstr := Eval vm_compute in js "KEY POINTS:".

(** [/SUMMARY:([\s\S]*?)KEY POINTS:/]: capture 1. *)
Definition summaryAt (t : jsstr) : option jsstr :=
  match matchLit N.eqb summaryLit t with
  | Some r =>
      match lazyStar anyChar (matchLit N.eqb pointsLit) r with
      | Some (cap, _) => Some cap
      | None => None
      end
  | None => None
  end.

Definition summaryMatch (text : jsstr) : option jsstr := search summaryAt text.

(** Where [split(/\n-\s*/)] stands in the text: in plain text, on the
    hyphen of a separator, or in the white space that ends a separator. *)
Inductive Mode := Plain | Hyphen | Blank.

Definition hyphenNext (s : jsstr) : bool :=
  match s with
  | 45 :: _ => true
  | _ => false
  end.

(** [section.split(/\n-\s*/)] *)
Fixpoint splitBullets (m : Mode) (s : jsstr) : list jsstr :=
  match s with
  | [] => [[]]
  | c :: s' =>
      match m with
      | Hyphen => splitBullets Blank s'
      | _ =>
          if (match m with Blank => isSpace c | _ => false end) then
            splitBullets Blank s'
          else if (c =? 10) && hyphenNext s' then [] :: splitBullets Hyphen s'
          else match splitBullets Plain s' with
               | h :: t => (c :: h) :: t
               | [] => [[c]]
               end
      end
  end.

(** [point.replace(/^[-\s]*/, '')] *)
Definition stripLead (point : jsstr) : jsstr :=
  dropWhile (fun c => (c =? 45) || isSpace c) point.

(** [[-•*]] *)
Definition isBulletMark (c : N) : bool := (c =? 45) || (c =? 8226) || (c =? 42).

(** [line.replace(/^[-•*]\s*/, '')] *)
Definition stripBullet (line : jsstr) : jsstr :=
  match line with
  | [] => []
  | c :: r => if isBulletMark c then trimStart r else line
  end.

Definition nonEmpty (s : jsstr) : bool :=
  match s with
  | [] => false
  | _ :: _ => true
  end.

(** The marker branch: the summary between the two markers and the
    bullets after the second. *)
Definition readMarked (text : jsstr) : jsstr * list jsstr :=
  let fullSummary :=
    match summaryMatch text with
    | Some ((_ :: _) as cap) => trim cap
    | _ => []
    end in
  let keyPoints :=
    match nth_error (splitStr pointsLit O text) 1 with
    | Some ((_ :: _) as keyPointsSection) =>
        match filter nonEmpty (map trim (splitBullets Plain keyPointsSection)) with
        | [] => []
        | first :: rest => stripLead first :: rest
        end
    | _ => []
    end in
  (fullSummary, keyPoints).

(** The other branch: first non-blank line as summary, the rest as
    bullets. *)
Definition readLoose (text : jsstr) : jsstr * list jsstr :=
  match filter (fun line => nonEmpty (trim line)) (split 10 text) with
  | first :: ((_ :: _) as rest) => (first, map stripBullet rest)
  | _ => (text, [])
  end.

(** Lines 114-180: from the reply text to the triple. *)
Definition parseReply (t text : jsstr) : Structured :=
  let (found, points) :=
    if includes summaryLit text && includes pointsLit text then readMarked text
    else readLoose text in
  let fullSummary :=
    orDefault found
      (js "Summary could not be extracted from the generated content.") in
  let keyPoints :=
    match points with
    | [] =>
        firstn 5
          (filter (fun s => (15 <? List.length s)%nat && (List.length s <? 150)%nat)
             (map trim (splitRuns isSentenceEnd false fullSummary)))
    | _ :: _ => points
    end in
  mkStructured t (mapi OpenAI.decorate O keyPoints)
    (OpenAI.summaryHeader ++ fullSummary).

(** The part of the [try] block after the length test, for a provider
    [complete] that stands for the prompt, the API call and
    [choices[0]?.message?.content || ""]; [None] when the call throws. *)
Definition remoteOf (complete : jsstr -> jsstr -> option jsstr)
    (t transcript : jsstr) : option Structured :=
  match complete t transcript with
  | None => None
  | Some [] => None   (* throw new Error("No text generated from OpenAI") *)
  | Some ((_ :: _) as text) => Some (parseReply t text)
  end.

(** [generateSummary] of the OpenAI-backed revision, whole. *)
Definition generateSummary (complete : jsstr -> jsstr -> option jsstr)
  : jsstr -> option Metadata -> Structured :=
  OpenAI.generateSummary (remoteOf complete).

End Reply.

(* ================================================================== *)
(** ** src/routes/auth.ts and src/middleware/authMiddleware.ts *)
(* ================================================================== *)

Module Session.

Import JS JSMore Model Store Http Auth Reads.
Local Open Scope Z_scope.

(** src/utils/auth.ts as seen from the routes: the bcrypt comparison and
    the check of a signed token, which yields [{ userId, email }] or [null]. *)
Record Verifier := mkVerifier {
  comparePasswords : jsstr -> jsstr -> bool;
  verifyToken : jsstr -> option (jsstr * jsstr)
}.

(** The [user] object of the replies: id, name, email and credits (the
    image and the creation time, which the store model leaves out, are not
    shown). *)
Record Profile := mkProfile {
  p_id : jsstr;
  p_name : option jsstr;
  p_email : jsstr;
  p_credits : Z
}.

Definition profileOf (u : User) : Profile :=
  mkProfile (u_id u) (u_name u) (u_email u) (u_credits u).

Record SessionReply := mkSessionReply {
  r_token : jsstr;
  r_refreshToken : option jsstr;
  r_expiresAt : Z;
  r_user : Profile
}.

(** [router.post("/signin", ...)] *)
Definition signin (e : Env) (c : Crypto) (v : Verifier) (email password : option jsstr)
    (db : DB) : DB * Result SessionReply :=
  match email, password with
  | Some ((_ :: _) as email), Some ((_ :: _) as password) =>
    match findUniqueByEmail e email db with
    | None => (db, Refused 500 "Internal server error")
    | Some None => (db, Refused 400 "User not found")
    | Some (Some user) =>
      match u_passwordHash user with
      | [] => (db, Refused 400 "User not found")
      | _ :: _ =>
        if comparePasswords v password (u_passwordHash user) then
          match recordLogin e (u_id user) (refreshToken c) db with
          | None => (db, Refused 500 "Internal server error")
          | Some db' =>
              (db', Sent (mkSessionReply (accessToken c (u_id user) (u_email user))
                            None (now e + refreshTokenExpiresIn) (profileOf user)))
          end
        else (db, Refused 401 "Invalid password")
      end
    end
  | _, _ => (db, Refused 400 "Missing required fields")
  end.

Definition holdsToken (token : jsstr) (u : User) : bool :=
  match u_refreshToken u with
  | Some t => jeqb t token
  | None => false
  end.

(** [user.findFirst({ where: { refreshToken } })] *)
Definition findByRefreshToken (e : Env) (token : jsstr) (db : DB)
  : option (option User) :=
  if findFirstThrows e then None else Some (find (holdsToken token) (users db)).

Definition setRefresh (token id : jsstr) (u : User) : User :=
  if hasId id u then
    mkUser (u_id u) (u_email u) (u_name u) (u_passwordHash u) (u_credits u)
      (u_verificationToken u) (Some token) (u_lastLogin u)
  else u.

(** [user.update({ where: { id }, data: { refreshToken } })] *)
Definition rotateToken (e : Env) (id token : jsstr) (db : DB) : option DB :=
  if updateThrows e then None
  else match find (hasId id) (users db) with
       | None => None
       | Some _ => Some (mkDB (map (setRefresh token id) (users db)) (summaries db))
       end.

(** [router.post("/refresh", ...)] *)
Definition refresh (e : Env) (c : Crypto) (token : option jsstr) (db : DB)
  : DB * Result SessionReply :=
  match token with
  | Some ((_ :: _) as presented) =>
    match findByRefreshToken e presented db with
    | None => (db, Refused 500 "Server error")
    | Some None => (db, Refused 401 "Invalid refresh token")
    | Some (Some user) =>
      match rotateToken e (u_id user) (refreshToken c) db with
      | None => (db, Refused 500 "Server error")
      | Some db' =>
          (db', Sent (mkSessionReply (accessToken c (u_id user) (u_email user))
                        (Some (refreshToken c)) (now e + refreshTokenExpiresIn)
                        (profileOf user)))
      end
    end
  | _ => (db, Refused 400 "Refresh token is required")
  end.

(** [authHeader.split(" ")[1]] of a header that starts with [Bearer ]. *)
Definition bearerToken (authHeader : jsstr) : jsstr :=
  nth 1 (split 32 authHeader) [].

(** [!authHeader || !authHeader.startsWith("Bearer ")] *)
Definition noBearer (authHeader : option jsstr) : bool :=
  match authHeader with
  | Some h => negb (startsWith (js "Bearer ") h)
  | None => true
  end.

(** [router.get("/me", ...)] *)
Definition me (e : Env) (v : Verifier) (authHeader : option jsstr) (db : DB)
  : DB * Result Profile :=
  if noBearer authHeader then (db, Refused 401 "Unauthorized")
  else
    match verifyToken v (bearerToken (orElse authHeader [])) with
    | None => (db, Refused 401 "Invalid token")
    | Some (userId, _) =>
        match findUnique e userId db with
        | None => (db, Refused 500 "Internal server error")
        | Some None => (db, Refused 404 "User not found")
        | Some (Some userData) => (db, Sent (profileOf userData))
        end
    end.

(** [req.user] (without the image, which comes from the column the store
    model leaves out). *)
Record AuthUser := mkAuthUser {
  au_id : jsstr;
  au_email : jsstr;
  au_name : jsstr
}.

(** [authMiddleware] of the revision that verifies its own tokens: the
    request goes on with [req.user] set, or is answered here. *)
Definition authMiddleware (e : Env) (v : Verifier) (authHeader : option jsstr) (db : DB)
  : Result AuthUser :=
  if noBearer authHeader then Refused 401 "Missing or invalid Authorization header"
  else
    match verifyToken v (bearerToken (orElse authHeader [])) with
    | None => Refused 401 "Invalid or expired token"
    | Some (userId, _) =>
        match findUnique e userId db with
        | None => Refused 500 "Authentication middleware failed"
        | Some None => Refused 401 "User not found"
        | Some (Some dbUser) =>
            Sent (mkAuthUser (u_id dbUser) (u_email dbUser)
                    (orElse (u_name dbUser) []))
        end
    end.

(** [router.post("/generate", authMiddleware, handler)] as mounted: the
    handler runs only when the middleware calls [next()]. *)
Definition guardedGenerate
    (handler : Env -> option jsstr -> GenerateBody -> DB -> DB * Response)
    (e : Env) (v : Verifier) (authHeader : option jsstr) (body : GenerateBody) (db : DB)
  : DB * Response :=
  match authMiddleware e v authHeader db with
  | Sent user => handler e (Some (au_id user)) body db
  | Refused code error => (db, fail code error)
  end.

End Session.

(* ================================================================== *)
(** ** The reply format the prompt asks for *)
(* ================================================================== *)

Module ReplyShape.

Import JS JSMore Model Adapter Props Reply.
Local Open Scope N_scope.

(** [SUMMARY:\n<summary>\n\nKEY POINTS:\n- <point 1>\n- <point 2>...] *)
Definition promptedReply (summary : jsstr) (points : list jsstr) : jsstr :=
  summaryLit ++ 10 :: summary ++ 10 :: 10 :: pointsLit ++ bulletBlock points.

(** A bullet the parser gives back: not empty, trimmed, on one line and
    without the [KEY POINTS:] marker. *)
Definition neatBullet (p : jsstr) : bool :=
  nonEmpty p && trimmed p && forallb (fun c => negb (c =? 10)) p
  && negb (includes pointsLit p).

(** The first bullet does not start with a hyphen. *)
Definition plainStart (points : list jsstr) : bool :=
  match points with
  | (45 :: _) :: _ => false
  | _ => true
  end.

End ReplyShape.

(* ================================================================== *)
(** ** More concrete inputs *)
(* ================================================================== *)

Module MoreSamples.

Import JS JSMore Model Codec Store Http Auth Props Reads Reply Session Samples.
Local Open Scope N_scope.



(** A save request of the second revision with a transcript. *)
Definition saveSpoken : SaveBody :=
  mkSaveBody (Some (js "abc")) (Some myTitle) (Some myPoints) (Some myProse)
    None (Some (js "Hello and welcome.")).

Definition talkMeta : Metadata := mkMetadata (Some (js "abc")) None None.

(** A verifier that accepts the toy hash and reads a token [jwt:<id>]. *)
Definition toyVerifier : Verifier :=
  mkVerifier
    (fun password hash => jeqb hash (js "h:" ++ password))
    (fun token =>
       match matchLit N.eqb (js "jwt:") token with
       | Some id => Some (id, id ++ js "@example.org")
       | None => None
       end).

(** The stand-ins as a later request finds them: another refresh token
    and another signature. *)
Definition laterCrypto : Auth.Crypto :=
  Auth.mkCrypto (fun password => js "h:" ++ password) (js "vt-2")
    (fun id email => js "jwt2:" ++ id) (js "rt-2").

(** Alice after a login that left her the refresh token [rt-old]. *)
Definition aliceLoggedIn : User :=
  mkUser alice (js "alice@example.org") (Some (js "Alice")) (js "h:secret") 7
    None (Some (js "rt-old")) (Some 5%Z).

(** A reply in the format the prompt asks for. *)
Definition neatSummary : jsstr := js "The talk covers proofs.".
Definition neatPoints : list jsstr := [js "Proofs are programs"; js "Types are claims"].
Definition neatReply : jsstr :=
  js "SUMMARY:" ++ [10] ++ neatSummary ++ [10; 10] ++ js "KEY POINTS:"
    ++ bulletBlock neatPoints.

(** A transcript of 120 characters. *)
Definition longTranscript : jsstr := repeat 97 120.

End MoreSamples.

(* ================================================================== *)
(** ** Facts about the string primitives *)
(* ================================================================== *)

Module JSFacts.

Import JS Model Codec Props.
Local Open Scope N_scope.

Lemma jeqb_refl (a : jsstr) : jeqb a a = true.
Proof.
  induction a as [|x a IH]; simpl; [reflexivity|].
  now rewrite N.eqb_refl, IH.
Qed.

Lemma jeqb_eq (a b : jsstr) : jeqb a b = true <-> a = b.
Proof.
  split.
  - revert b; induction a as [|x a IH]; intros [|y b] H; simpl in H;
      try discriminate; [reflexivity|].
    apply andb_true_iff in H as [Hx Hr].
    apply N.eqb_eq in Hx. f_equal; auto.
  - intros ->. apply jeqb_refl.
Qed.

Lemma jeqb_neq (a b : jsstr) : a <> b -> jeqb a b = false.
Proof.
  intros H. destruct (jeqb a b) eqn:E; [|reflexivity].
  apply jeqb_eq in E. contradiction.
Qed.

Lemma trimStart_id (s : jsstr) : headOk s = true -> trimStart s = s.
Proof.
  destruct s as [|c s]; simpl; [reflexivity|].
  intros H. apply negb_true_iff in H. now rewrite H.
Qed.

Lemma trimEnd_id (s : jsstr) : headOk (rev s) = true -> trimEnd s = s.
Proof.
  intros H. unfold trimEnd. rewrite (trimStart_id _ H). apply rev_involutive.
Qed.

Lemma trim_id (s : jsstr) : trimmed s = true -> trim s = s.
Proof.
  unfold trimmed, trim. intros H. apply andb_true_iff in H as [Hh Hl].
  rewrite (trimStart_id _ Hh). now apply trimEnd_id.
Qed.

Lemma trimEnd_drop (s : jsstr) (c : N) :
  isSpace c = true -> trimEnd (s ++ [c]) = trimEnd s.
Proof.
  intros H. unfold trimEnd. rewrite rev_app_distr. simpl. now rewrite H.
Qed.

(** A bullet body, with its leading blank and a trailing newline or not,
    trims to the key point. *)
Lemma trim_piece (p : jsstr) :
  trimmed p = true -> p <> [] ->
  trim (32 :: p) = p /\ trim (32 :: p ++ [10]) = p.
Proof.
  intros Ht Hne. pose proof Ht as Ht'.
  unfold trimmed in Ht. apply andb_true_iff in Ht as [Hh Hl].
  destruct p as [|c p]; [contradiction|].
  assert (Hc : isSpace c = false) by (now apply negb_true_iff in Hh).
  split; unfold trim.
  - change (trimStart (32 :: c :: p)) with (trimStart (c :: p)).
    rewrite (trimStart_id (c :: p) Hh). now apply trimEnd_id.
  - change (trimStart (32 :: (c :: p) ++ [10]))
      with (trimStart (c :: (p ++ [10]))).
    simpl trimStart. rewrite Hc.
    change (c :: p ++ [10]) with ((c :: p) ++ [10]).
    rewrite trimEnd_drop by reflexivity. now apply trimEnd_id.
Qed.

Lemma split_nosep (sep : N) (a : jsstr) :
  forallb (fun c => negb (c =? sep)) a = true -> split sep a = [a].
Proof.
  induction a as [|c a IH]; simpl; [reflexivity|].
  intros H. apply andb_true_iff in H as [Hc Ha].
  apply negb_true_iff in Hc. rewrite Hc, (IH Ha). reflexivity.
Qed.

Lemma split_app (sep : N) (a b : jsstr) :
  forallb (fun c => negb (c =? sep)) a = true ->
  split sep (a ++ sep :: b) = a :: split sep b.
Proof.
  induction a as [|c a IH]; simpl.
  - intros _. now rewrite N.eqb_refl.
  - intros H. apply andb_true_iff in H as [Hc Ha].
    apply negb_true_iff in Hc. rewrite Hc, (IH Ha). reflexivity.
Qed.

(** *** The matcher combinators *)

Lemma lazyStar_app (A : Type) (p : N -> bool) (k : jsstr -> option A)
    (pre rest : jsstr) (v : A) :
  forallb p pre = true -> failsInside k pre rest -> k rest = Some v ->
  lazyStar p k (pre ++ rest) = Some (pre, v).
Proof.
  intros Hp Hf Hk. induction pre as [|c pre IH].
  - simpl. destruct rest; simpl; now rewrite Hk.
  - simpl in Hp. apply andb_true_iff in Hp as [Hc Hp].
    destruct Hf as [Hhere Hf].
    change ((c :: pre) ++ rest) with (c :: (pre ++ rest)) in *.
    simpl. rewrite Hhere, Hc, (IH Hp Hf). reflexivity.
Qed.

Lemma lazyStar_cons (A : Type) (p : N -> bool) (k : jsstr -> option A)
    (c : N) (s : jsstr) :
  lazyStar p k (c :: s)
  = match k (c :: s) with
    | Some r => Some ([], r)
    | None =>
        if p c then
          match lazyStar p k s with
          | Some (cap, r) => Some (c :: cap, r)
          | None => None
          end
        else None
    end.
Proof. reflexivity. Qed.

Lemma lazyStar_all (s : jsstr) : lazyStar anyChar atEnd s = Some (s, tt).
Proof.
  induction s as [|c s IH]; simpl; [reflexivity|].
  now rewrite IH.
Qed.

Lemma search_app (A : Type) (m : jsstr -> option A) (pre rest : jsstr) :
  failsInside m pre rest -> search m (pre ++ rest) = search m rest.
Proof.
  induction pre as [|c pre IH]; simpl; [reflexivity|].
  intros [Hhere Hf]. rewrite Hhere. now apply IH.
Qed.

Lemma search_here (A : Type) (m : jsstr -> option A) (s : jsstr) (v : A) :
  m s = Some v -> search m s = Some v.
Proof. intros H. destruct s; simpl; now rewrite H. Qed.

Lemma search_none (A : Type) (eqc : N -> N -> bool) (lit : jsstr)
    (m : jsstr -> option A) (s : jsstr) :
  (forall x, matchLit eqc lit x = None -> m x = None) ->
  occurs eqc lit s = false -> search m s = None.
Proof.
  intros Hm. induction s as [|c s IH]; simpl.
  - destruct (matchLit eqc lit []) eqn:E; [discriminate|].
    intros _. now rewrite (Hm _ E).
  - destruct (matchLit eqc lit (c :: s)) eqn:E; [discriminate|].
    intros H. rewrite (Hm _ E). now apply IH.
Qed.

(** A literal that does not match a string does not match it either when a
    character foreign to the literal and more text are appended. *)
Lemma matchLit_app_none (eqc : N -> N -> bool) (lit b x : jsstr) (d : N) :
  (forall l, In l lit -> eqc d l = false) ->
  matchLit eqc lit b = None -> matchLit eqc lit (b ++ d :: x) = None.
Proof.
  revert b. induction lit as [|l lit IH]; intros b Hd H; simpl in *.
  - discriminate.
  - destruct b as [|c b]; simpl.
    + now rewrite (Hd l (or_introl eq_refl)).
    + destruct (eqc c l); [|reflexivity].
      apply IH; auto.
Qed.

(** A case-sensitive match is also a match under the [i] flag. *)
Lemma matchLit_ci_none (lit s : jsstr) :
  matchLit eqCI lit s = None -> matchLit N.eqb lit s = None.
Proof.
  revert s. induction lit as [|l lit IH]; intros s H; simpl in *.
  - discriminate.
  - destruct s as [|c s]; [reflexivity|].
    destruct (N.eqb_spec c l) as [->|_]; [|reflexivity].
    unfold eqCI in H. rewrite N.eqb_refl in H. now apply IH.
Qed.

Lemma occurs_ci_false (lit s : jsstr) :
  occurs eqCI lit s = false -> occurs N.eqb lit s = false.
Proof.
  induction s as [|c s IH]; simpl.
  - destruct (matchLit eqCI lit []) eqn:E; [discriminate|].
    now rewrite (matchLit_ci_none _ _ E).
  - destruct (matchLit eqCI lit (c :: s)) eqn:E; [discriminate|].
    rewrite (matchLit_ci_none _ _ E). exact IH.
Qed.

(** Where the literal does not occur in [t], a matcher that starts with the
    literal fails at every position inside [t], whatever follows, if what
    follows starts with a character foreign to the literal. *)
Lemma failsInside_occurs (A : Type) (eqc : N -> N -> bool) (lit : jsstr)
    (m : jsstr -> option A) (t x : jsstr) (d : N) :
  (forall y, matchLit eqc lit y = None -> m y = None) ->
  (forall l, In l lit -> eqc d l = false) ->
  occurs eqc lit t = false -> failsInside m t (d :: x).
Proof.
  intros Hm Hd. induction t as [|c t IH]; simpl; [trivial|].
  destruct (matchLit eqc lit (c :: t)) eqn:E; [discriminate|].
  intros H. split; [|now apply IH].
  apply Hm. change (c :: t ++ d :: x) with ((c :: t) ++ d :: x).
  now apply matchLit_app_none.
Qed.

End JSFacts.

(* ================================================================== *)
(** ** The codec: first line, marker, bullets *)
(* ================================================================== *)

Module CodecFacts.

Import JS Model Codec Props JSFacts.
Local Open Scope N_scope.

Lemma isDot_not_newline (c : N) : isDot c = true -> (c =? 10) = false.
Proof.
  unfold isDot, isLineTerminator. destruct (c =? 10); simpl; [discriminate|reflexivity].
Qed.

Lemma newline_fails_inside_line (t r : jsstr) :
  forallb isDot t = true -> failsInside (matchLit N.eqb [10]) t (10 :: r).
Proof.
  induction t as [|c t IH]; simpl; [trivial|].
  intros H. apply andb_true_iff in H as [Hc Ht].
  rewrite (isDot_not_newline _ Hc). auto.
Qed.

(** The first line is captured when it holds no line terminator. *)
Lemma titleMatch_line (t r : jsstr) :
  forallb isDot t = true -> titleMatch (t ++ 10 :: r) = Some t.
Proof.
  intros H. unfold titleMatch.
  rewrite (@lazyStar_app _ isDot (matchLit N.eqb [10]) t (10 :: r) r); auto.
  now apply newline_fails_inside_line.
Qed.

(** Without a newline there is no first line. *)
Lemma titleMatch_no_newline (s : jsstr) :
  forallb (fun c => negb (c =? 10)) s = true -> titleMatch s = None.
Proof.
  intros H. unfold titleMatch.
  assert (E : lazyStar isDot (matchLit N.eqb [10]) s = None).
  { induction s as [|c s IH]; [reflexivity|].
    simpl in H. apply andb_true_iff in H as [Hc Hs].
    apply negb_true_iff in Hc. rewrite lazyStar_cons, (IH Hs).
    simpl matchLit. rewrite Hc. now destruct (isDot c). }
  now rewrite E.
Qed.

(** A first line that ends in CR, LS or PS is not captured. *)
Lemma titleMatch_other_terminator (l r : jsstr) (c : N) :
  forallb isDot l = true -> isLineTerminator c = true -> c <> 10 ->
  titleMatch (l ++ c :: r) = None.
Proof.
  intros Hl Hc Hn. unfold titleMatch.
  assert (E : lazyStar isDot (matchLit N.eqb [10]) (l ++ c :: r) = None).
  { induction l as [|d l IH].
    - rewrite app_nil_l, lazyStar_cons. simpl matchLit.
      apply N.eqb_neq in Hn. rewrite Hn. unfold isDot. now rewrite Hc.
    - simpl in Hl. apply andb_true_iff in Hl as [Hd Hl].
      rewrite <- app_comm_cons, lazyStar_cons, (IH Hl). simpl matchLit.
      rewrite (isDot_not_newline _ Hd), Hd. reflexivity. }
  now rewrite E.
Qed.

(** *** The bullet block *)

Lemma join_bullets (kps : list jsstr) :
  kps <> [] ->
  10 :: join [10] (map (fun point => dashSpace ++ point) kps) = bulletBlock kps.
Proof.
  induction kps as [|p kps IH]; [contradiction|].
  intros _. destruct kps as [|q kps].
  - unfold bulletBlock. simpl. now rewrite app_nil_r.
  - assert (Hq : q :: kps <> []) by discriminate.
    specialize (IH Hq).
    change (bulletBlock (p :: q :: kps))
      with ((10 :: dashSpace ++ p) ++ bulletBlock (q :: kps)).
    rewrite <- IH. reflexivity.
Qed.

Lemma encode_shape (t : jsstr) (kps : list jsstr) (prose : jsstr) :
  kps <> [] ->
  encode t kps prose
  = (t ++ [10; 10]) ++ KeyPointsLit ++ bulletBlock kps ++ 10 :: 10 :: prose.
Proof.
  intros H. unfold encode. rewrite <- (join_bullets H).
  rewrite <- !app_assoc. reflexivity.
Qed.

Lemma noBlank_app (a b : jsstr) :
  noBlank a = true -> noBlank b = true -> noBlank (a ++ b) = true.
Proof.
  intros Ha Hb. induction a as [|c a IH]; [exact Hb|].
  simpl in Ha. apply andb_true_iff in Ha as [Hc Ha].
  change ((c :: a) ++ b) with (c :: (a ++ b)). simpl.
  rewrite (IH Ha), andb_true_r.
  destruct (c =? 10); [|reflexivity].
  destruct a as [|d a]; [discriminate|exact Hc].
Qed.

Lemma noBlank_bullets (kps : list jsstr) :
  Forall (fun p => noBlank p = true) kps ->
  noBlank (bulletBlock kps) = true.
Proof.
  induction 1 as [|p kps Hp _ IH]; [reflexivity|].
  change (bulletBlock (p :: kps))
    with (10 :: 45 :: 32 :: (p ++ bulletBlock kps)).
  change (noBlank (10 :: 45 :: 32 :: (p ++ bulletBlock kps)))
    with (noBlank (p ++ bulletBlock kps)).
  now apply noBlank_app.
Qed.

Lemma noBlank_no_blank_line (c : N) (pre x : jsstr) :
  noBlank (c :: pre) = true ->
  matchLit N.eqb [10; 10] ((c :: pre) ++ 10 :: 10 :: x) = None.
Proof.
  simpl. destruct (c =? 10); [|reflexivity].
  destruct pre as [|d pre]; simpl; [discriminate|].
  destruct (d =? 10); simpl; [discriminate|reflexivity].
Qed.

Lemma noBlank_tail (c : N) (pre : jsstr) :
  noBlank (c :: pre) = true -> noBlank pre = true.
Proof.
  simpl. intros H. now apply andb_true_iff in H as [_ H].
Qed.

Lemma blankOrEnd_fails_inside (pre x : jsstr) :
  noBlank pre = true -> failsInside blankOrEnd pre (10 :: 10 :: x).
Proof.
  induction pre as [|c pre IH]; [simpl; trivial|].
  intros H. split; [|exact (IH (noBlank_tail _ _ H))].
  unfold blankOrEnd. now rewrite (noBlank_no_blank_line _ _ _ H).
Qed.

Lemma afterBlank_fails_inside (pre x : jsstr) :
  noBlank pre = true -> failsInside afterBlank pre (10 :: 10 :: x).
Proof.
  induction pre as [|c pre IH]; [simpl; trivial|].
  intros H. split; [|exact (IH (noBlank_tail _ _ H))].
  unfold afterBlank. now rewrite (noBlank_no_blank_line _ _ _ H).
Qed.

(** *** Clean key points *)

Lemma cleanPoint_inv (p : jsstr) :
  cleanPoint p = true ->
  p <> [] /\ trimmed p = true
  /\ forallb (fun c => negb (c =? 45)) p = true
  /\ noBlank p = true.
Proof.
  unfold cleanPoint. intros H.
  apply andb_true_iff in H as [H Hb]. apply andb_true_iff in H as [H Hd].
  apply andb_true_iff in H as [Hl Ht].
  repeat split; auto.
  intros ->. discriminate.
Qed.

Lemma split_tail (p : jsstr) (kps : list jsstr) :
  forallb cleanPoint (p :: kps) = true ->
  split 45 (32 :: p ++ bulletBlock kps) = pieces p kps.
Proof.
  revert p. induction kps as [|q kps IH]; intros p H.
  - unfold bulletBlock. simpl concat. rewrite app_nil_r.
    simpl in H. apply andb_true_iff in H as [Hp _].
    destruct (cleanPoint_inv _ Hp) as (_ & _ & Hd & _).
    simpl pieces. apply split_nosep. simpl. exact Hd.
  - simpl in H. apply andb_true_iff in H as [Hp Hq].
    destruct (cleanPoint_inv _ Hp) as (_ & _ & Hd & _).
    change (32 :: p ++ bulletBlock (q :: kps))
      with (32 :: p ++ 10 :: 45 :: (32 :: q ++ bulletBlock kps)).
    replace (32 :: p ++ 10 :: 45 :: (32 :: q ++ bulletBlock kps))
      with ((32 :: p ++ [10]) ++ 45 :: (32 :: q ++ bulletBlock kps))
      by (simpl; rewrite <- app_assoc; reflexivity).
    rewrite split_app.
    + simpl pieces. f_equal. apply IH. exact Hq.
    + simpl. rewrite forallb_app, Hd. reflexivity.
Qed.

Lemma split_bullets (p : jsstr) (kps : list jsstr) :
  forallb cleanPoint (p :: kps) = true ->
  split 45 (bulletBlock (p :: kps)) = [10] :: pieces p kps.
Proof.
  intros H.
  change (bulletBlock (p :: kps))
    with ([10] ++ 45 :: (32 :: p ++ bulletBlock kps)).
  rewrite split_app by reflexivity.
  now rewrite split_tail.
Qed.

Lemma trim_pieces (p : jsstr) (kps : list jsstr) :
  forallb cleanPoint (p :: kps) = true ->
  filter (fun point => (0 <? List.length point)%nat) (map trim (pieces p kps))
  = p :: kps.
Proof.
  revert p. induction kps as [|q kps IH]; intros p H;
    simpl in H; apply andb_true_iff in H as [Hp Hq];
    destruct (cleanPoint_inv _ Hp) as (Hne & Ht & _ & _);
    destruct (trim_piece Ht Hne) as [T1 T2]; simpl pieces; simpl map.
  - rewrite T1. destruct p; [contradiction|reflexivity].
  - rewrite T2. simpl filter.
    destruct p as [|c p]; [contradiction|]. simpl.
    f_equal. apply IH. exact Hq.
Qed.

(** The bullet block gives back its key points. *)
Lemma extract_bullets (kps : list jsstr) :
  kps <> [] -> forallb cleanPoint kps = true ->
  extractKeyPoints (bulletBlock kps) = kps.
Proof.
  destruct kps as [|p kps]; [contradiction|]. intros _ H.
  unfold extractKeyPoints. rewrite (split_bullets _ _ H).
  change (map trim ([10] :: pieces p kps))
    with ([] :: map trim (pieces p kps)).
  simpl filter. now apply trim_pieces.
Qed.

Lemma bullets_noBlank (kps : list jsstr) :
  forallb cleanPoint kps = true -> noBlank (bulletBlock kps) = true.
Proof.
  intros H. apply noBlank_bullets. rewrite Forall_forall. intros p Hin.
  rewrite forallb_forall in H.
  now destruct (cleanPoint_inv _ (H p Hin)) as (_ & _ & _ & Hn).
Qed.

(** *** The three matches on an encoded blob *)

Lemma marker_not_newline (eqc : N -> N -> bool) :
  eqc = eqCI \/ eqc = N.eqb ->
  forall l, In l KeyPointsLit -> eqc 10 l = false.
Proof.
  intros [-> | ->] l Hin; simpl in Hin;
    repeat (destruct Hin as [<- | Hin]; [reflexivity|]); contradiction.
Qed.

Lemma failsInside_app (A : Type) (k : jsstr -> option A) (a b rest : jsstr) :
  failsInside k a (b ++ rest) -> failsInside k b rest ->
  failsInside k (a ++ b) rest.
Proof.
  induction a as [|c a IH]; simpl; [auto|].
  intros [H1 H2] Hb. rewrite <- app_assoc. split; auto.
Qed.

Lemma keyPointsAt_marker (r : jsstr) :
  keyPointsAt (KeyPointsLit ++ r)
  = match lazyStar anyChar blankOrEnd r with
    | Some (cap, _) => Some cap
    | None => None
    end.
Proof. reflexivity. Qed.

Lemma fullSummaryAt_marker (r : jsstr) :
  fullSummaryAt (KeyPointsLit ++ r)
  = match lazyStar anyChar afterBlank r with
    | Some (_, (cap, _)) => Some cap
    | None => None
    end.
Proof. reflexivity. Qed.

Lemma keyPointsMatch_encoded (t : jsstr) (kps : list jsstr) (prose : jsstr) :
  hasMarkerCI t = false -> kps <> [] -> forallb cleanPoint kps = true ->
  keyPointsMatch (encode t kps prose) = Some (bulletBlock kps).
Proof.
  intros Ht Hne Hk. rewrite (encode_shape t prose Hne).
  unfold keyPointsMatch. rewrite search_app.
  - apply search_here. rewrite keyPointsAt_marker.
    rewrite (@lazyStar_app _ anyChar blankOrEnd (bulletBlock kps)
               (10 :: 10 :: prose) tt); auto.
    + apply forallb_forall. reflexivity.
    + apply blankOrEnd_fails_inside. now apply bullets_noBlank.
  - apply failsInside_app.
    + apply (@failsInside_occurs _ eqCI KeyPointsLit); auto.
      * intros y Hy. unfold keyPointsAt. now rewrite Hy.
      * apply marker_not_newline. now left.
    + simpl. auto.
Qed.

Lemma fullSummaryMatch_encoded (t : jsstr) (kps : list jsstr) (prose : jsstr) :
  hasMarkerCI t = false -> kps <> [] -> forallb cleanPoint kps = true ->
  fullSummaryMatch (encode t kps prose) = Some prose.
Proof.
  intros Ht Hne Hk. rewrite (encode_shape t prose Hne).
  unfold fullSummaryMatch. rewrite search_app.
  - apply search_here. rewrite fullSummaryAt_marker.
    rewrite (@lazyStar_app _ anyChar afterBlank (bulletBlock kps)
               (10 :: 10 :: prose) (prose, tt)); auto.
    + apply forallb_forall. reflexivity.
    + apply afterBlank_fails_inside. now apply bullets_noBlank.
    + unfold afterBlank. simpl matchLit. apply lazyStar_all.
  - apply failsInside_app.
    + apply (@failsInside_occurs _ N.eqb KeyPointsLit); auto.
      * intros y Hy. unfold fullSummaryAt. now rewrite Hy.
      * apply marker_not_newline. now right.
      * now apply occurs_ci_false.
    + simpl. auto.
Qed.

End CodecFacts.

(* ================================================================== *)
(** ** The codec: round trip and degradation *)
(* ================================================================== *)

Module CodecClaims.

Import JS Model Codec Props JSFacts CodecFacts Samples.
Local Open Scope N_scope.

(** C1, as stated, fails: a key point with a hyphen is cut at the hyphen by
    [split("-")], so the decoded list differs from the encoded one. *)
Lemma roundtrip_hyphen_counterexample :
  forallb (fun c => negb (c =? 10)) myTitle = true
  /\ hyphenPoints <> []
  /\ decode (encode myTitle hyphenPoints myProse)
     <> mkStructured myTitle hyphenPoints myProse
  /\ keyPoints (decode (encode myTitle hyphenPoints myProse))
     = [js "well"; js "known fact"].
Proof.
  repeat split; try reflexivity; vm_compute; discriminate.
Qed.

(** Decoding what [encode] wrote, on clean input. *)
Lemma decode_encode (t : jsstr) (kps : list jsstr) (prose : jsstr) :
  cleanTitle t = true -> kps <> [] -> forallb cleanPoint kps = true ->
  trimmed prose = true ->
  decode (encode t kps prose) = mkStructured t kps prose.
Proof.
  intros Ht Hne Hk Hp.
  unfold cleanTitle in Ht.
  apply andb_true_iff in Ht as [Ht Hm]. apply andb_true_iff in Ht as [Hline Htrim].
  apply negb_true_iff in Hm.
  unfold decode.
  rewrite (keyPointsMatch_encoded t prose Hm Hne Hk).
  rewrite (fullSummaryMatch_encoded t prose Hm Hne Hk).
  rewrite (extract_bullets Hne Hk), (trim_id _ Hp).
  assert (E : titleMatch (encode t kps prose) = Some t).
  { unfold encode. change ([10; 10] ++ ?x) with (10 :: 10 :: x).
    now apply titleMatch_line. }
  rewrite E, (trim_id _ Htrim). reflexivity.
Qed.

(** Each side condition of the round trip is needed: white space at an end
    of the title, the marker inside the title, an empty key point, a blank
    line inside a key point and white space at an end of the prose all change
    the decoded triple. *)
Lemma roundtrip_side_conditions :
  title (decode (encode (js "My Video ") myPoints myProse)) = js "My Video"
  /\ keyPoints (decode (encode (js "key points: none") myPoints myProse)) = [js "none"]
  /\ keyPoints (decode (encode myTitle [js "one"; []] myProse)) = [js "one"]
  /\ keyPoints (decode (encode myTitle [js "a" ++ [10; 10] ++ js "b"] myProse))
     = [js "a"]
  /\ fullSummary (decode (encode myTitle myPoints (js " Full text.")))
     = js "Full text.".
Proof. repeat split. Qed.

(** C1 (amended): for every title that is one line, has no white space at
    either end and does not contain the marker in any letter case, every
    non-empty list of key points each of which is non-empty, has no white
    space at either end and contains neither a hyphen nor a blank line, and
    every prose body without white space at either end, decoding the encoded
    blob returns the original triple; the example of the specification
    encodes to the stated string and decodes back. *)
Theorem roundtrip_clean :
  (forall (t : jsstr) (kps : list jsstr) (prose : jsstr),
      cleanTitle t = true -> kps <> [] -> forallb cleanPoint kps = true ->
      trimmed prose = true ->
      decode (encode t kps prose) = mkStructured t kps prose)
  /\ encode myTitle myPoints myProse = myBlob
  /\ decode myBlob = mkStructured myTitle myPoints myProse.
Proof.
  split; [exact decode_encode|split; reflexivity].
Qed.

Lemma roundtrip_clean_witness :
  decode (encode myTitle myPoints myProse)
  = mkStructured myTitle myPoints myProse.
Proof.
  apply (proj1 roundtrip_clean); reflexivity || discriminate.
Defined.

(** C2, as stated, fails: the read paths take the title from the first line
    whether or not the marker is present. *)
Lemma degradation_title_counterexample :
  hasMarker twoLines = false
  /\ decode twoLines = mkStructured (js "Hello") [] twoLines
  /\ title (decode twoLines) <> [].
Proof.
  repeat split; vm_compute; discriminate.
Qed.

(** The marker is searched under the [i] flag: a lower-case marker still
    yields key points. *)
Lemma degradation_lowercase_marker :
  hasMarker lowerMarker = false
  /\ keyPoints (decode lowerMarker) = [js "a"; js "b"].
Proof. split; reflexivity. Qed.

(** C2 (amended): for every input that does not contain the marker in any
    letter case, the read-path decode returns no key points and the whole
    input as prose; the title is empty when the input has no newline or its
    first line ends in another line terminator, and is the trimmed first line
    otherwise. *)
Theorem decode_without_marker (s : jsstr) :
  hasMarkerCI s = false ->
  keyPoints (decode s) = [] /\ fullSummary (decode s) = s
  /\ (forallb (fun c => negb (c =? 10)) s = true -> title (decode s) = [])
  /\ (forall l r, s = l ++ 10 :: r -> forallb isDot l = true ->
      title (decode s) = trim l)
  /\ (forall l c r, s = l ++ c :: r -> forallb isDot l = true ->
      isLineTerminator c = true -> c <> 10 -> title (decode s) = []).
Proof.
  intros H.
  assert (E : keyPointsMatch s = None).
  { unfold keyPointsMatch. apply (@search_none _ eqCI KeyPointsLit); auto.
    intros x Hx. unfold keyPointsAt. now rewrite Hx. }
  unfold decode. rewrite E. simpl. repeat split.
  - intros Hn. now rewrite (titleMatch_no_newline _ Hn).
  - intros l r -> Hl. now rewrite (titleMatch_line l r Hl).
  - intros l c r -> Hl Hc Hn.
    now rewrite (titleMatch_other_terminator l r Hl Hc Hn).
Qed.

Lemma decode_without_marker_witness :
  keyPoints (decode twoLines) = [] /\ fullSummary (decode twoLines) = twoLines.
Proof.
  destruct (@decode_without_marker twoLines eq_refl) as (H1 & H2 & _).
  split; assumption.
Defined.

End CodecClaims.

(* ================================================================== *)
(** ** The generation adapter on short transcripts *)
(* ================================================================== *)

Module AdapterFacts.

Import JS Model Props JSFacts Adapter Samples.
Local Open Scope nat_scope.

Lemma orEmpty_id (l : list jsstr) : orEmpty l = l.
Proof. now destruct l. Qed.

Lemma dedupe_nil (arr : list jsstr) : dedupe arr = [] <-> arr = [].
Proof.
  split; [|intros ->; reflexivity].
  destruct arr as [|x arr]; [reflexivity|].
  unfold dedupe. simpl. rewrite jeqb_refl. simpl. discriminate.
Qed.

Lemma mapi_nil (f : jsstr -> nat -> jsstr) (i : nat) (l : list jsstr) :
  mapi f i l = [] <-> l = [].
Proof. destruct l; simpl; split; intros H; try reflexivity; discriminate. Qed.

Lemma takeKeyPoints_nil (n : nat) (l : list jsstr) :
  0 < n -> (takeKeyPoints n l = [] <-> l = []).
Proof.
  intros Hn. unfold takeKeyPoints. rewrite dedupe_nil.
  destruct l as [|x l]; [rewrite firstn_nil; simpl; tauto|].
  destruct n as [|n]; [lia|].
  simpl. split; discriminate.
Qed.

Lemma trimStart_length (s : jsstr) : List.length (trimStart s) <= List.length s.
Proof.
  induction s as [|c s IH]; simpl; [lia|].
  destruct (isSpace c); simpl; lia.
Qed.

Lemma trim_length (s : jsstr) : List.length (trim s) <= List.length s.
Proof.
  unfold trim, trimEnd. rewrite length_rev.
  pose proof (trimStart_length (rev (trimStart s))) as H1.
  rewrite length_rev in H1.
  pose proof (trimStart_length s). lia.
Qed.

Lemma splitRuns_length (p : N -> bool) (b : bool) (s : jsstr) :
  Forall (fun x => List.length x <= List.length s) (splitRuns p b s).
Proof.
  revert b. induction s as [|c s IH]; intros b; simpl.
  - constructor; [simpl; lia|constructor].
  - assert (W : forall l : list jsstr,
               Forall (fun x => List.length x <= List.length s) l ->
               Forall (fun x => List.length x <= S (List.length s)) l).
    { intros l Hl. eapply Forall_impl; [|exact Hl]. simpl. intros; lia. }
    destruct (p c).
    + destruct b; [apply W, IH|].
      constructor; [simpl; lia|apply W, IH].
    + specialize (IH false). destruct (splitRuns p false s) as [|h t].
      * constructor; [simpl; lia|constructor].
      * inversion IH; subst. constructor; [simpl; lia|now apply W].
Qed.

(** A transcript of at most 20 code units has no usable sentence. *)
Lemma sentencesOf_tiny (transcript : jsstr) :
  List.length transcript <= 20 -> sentencesOf transcript = [].
Proof.
  intros H. unfold sentencesOf.
  pose proof (splitRuns_length isSentenceEnd false transcript) as HF.
  induction HF as [|x l Hx _ IH]; [reflexivity|].
  simpl. pose proof (trim_length x).
  destruct (Nat.ltb_spec 20 (List.length (trim x))); [lia|exact IH].
Qed.

(** C6, as stated, fails: on a short transcript with no fragment of more
    than 20 characters both revisions return an empty [keyPoints]. *)
Lemma short_transcript_counterexample :
  List.length shortTranscript < 100
  /\ keyPoints (OpenAI.generateSummary noProvider shortTranscript None) = []
  /\ keyPoints (Heuristic.generateSummary shortTranscript None) = [].
Proof.
  split; [vm_compute; lia|]. split; reflexivity.
Qed.

(** C6 (amended): for every transcript of length 0 to 99 and every
    metadata value, both revisions of the adapter return (they are total) a
    triple with the title of the metadata and a non-empty [fullSummary];
    [keyPoints] is empty exactly when no fragment between runs of [.!?] has a
    trimmed length above 20, which is the case for every transcript of at
    most 20 characters. *)
Theorem short_transcript_fallback
    (remote : jsstr -> jsstr -> option Structured)
    (transcript : jsstr) (md : option Metadata) :
  List.length transcript < 100 ->
  let r := OpenAI.generateSummary remote transcript md in
  let h := Heuristic.generateSummary transcript md in
  r = OpenAI.fallback (titleOf md) transcript
  /\ title r = titleOf md /\ title h = titleOf md
  /\ fullSummary r <> [] /\ fullSummary h <> []
  /\ (keyPoints r = [] <-> sentencesOf transcript = [])
  /\ (keyPoints h = [] <-> sentencesOf transcript = [])
  /\ (List.length transcript <= 20 -> keyPoints r = [] /\ keyPoints h = []).
Proof.
  intros Hlen r h.
  assert (Er : r = OpenAI.fallback (titleOf md) transcript).
  { unfold r, OpenAI.generateSummary.
    apply Nat.ltb_lt in Hlen. now rewrite Hlen. }
  assert (Kr : keyPoints r = [] <-> sentencesOf transcript = []).
  { rewrite Er. unfold OpenAI.fallback, tryCatch. simpl keyPoints.
    rewrite orEmpty_id, mapi_nil. apply takeKeyPoints_nil. lia. }
  assert (Kh : keyPoints h = [] <-> sentencesOf transcript = []).
  { unfold h, Heuristic.generateSummary, tryCatch. simpl keyPoints.
    rewrite orEmpty_id. apply takeKeyPoints_nil. lia. }
  split; [exact Er|]. split; [now rewrite Er|]. split; [reflexivity|].
  split; [rewrite Er; discriminate|]. split; [discriminate|].
  split; [exact Kr|]. split; [exact Kh|].
  intros Ht. pose proof (sentencesOf_tiny _ Ht) as E.
  split; [now apply Kr|now apply Kh].
Qed.

Lemma short_transcript_fallback_witness :
  fullSummary (OpenAI.generateSummary noProvider shortTranscript None) <> []
  /\ fullSummary (Heuristic.generateSummary shortTranscript None) <> [].
Proof.
  assert (L : List.length shortTranscript < 100) by (vm_compute; lia).
  destruct (short_transcript_fallback noProvider shortTranscript None L)
    as (_ & _ & _ & H1 & H2 & _).
  split; assumption.
Defined.

End AdapterFacts.

(* ================================================================== *)
(** ** The store *)
(* ================================================================== *)

Module StoreFacts.

Import JS Model Store JSFacts.
Local Open Scope Z_scope.

Lemma find_none_iff (A : Type) (p : A -> bool) (l : list A) :
  find p l = None <-> forall x, In x l -> p x = false.
Proof.
  split; [apply find_none|].
  induction l as [|a l IH]; simpl; [reflexivity|].
  intros H. rewrite (H a (or_introl eq_refl)). apply IH.
  intros x Hx. apply H. now right.
Qed.

Lemma find_app_last (A : Type) (p : A -> bool) (l : list A) (x : A) :
  find p l = None -> p x = true -> find p (l ++ [x]) = Some x.
Proof.
  induction l as [|a l IH]; simpl; intros Hn Hx.
  - now rewrite Hx.
  - destruct (p a); [discriminate|]. now apply IH.
Qed.

(** A record that is the only one to satisfy [p] is the one found. *)
Lemma find_only (A : Type) (p : A -> bool) (l : list A) (r : A) :
  In r l -> p r = true -> (forall x, In x l -> p x = true -> x = r) ->
  find p l = Some r.
Proof.
  induction l as [|a l IH]; simpl; [contradiction|].
  intros Hin Hr Hu. destruct (p a) eqn:E.
  - f_equal. apply Hu; auto.
  - destruct Hin as [-> | Hin]; [congruence|].
    apply IH; auto.
Qed.

Lemma NoDup_map_same (A B : Type) (f : A -> B) (l : list A) (x y : A) :
  NoDup (map f l) -> In x l -> In y l -> f x = f y -> x = y.
Proof.
  induction l as [|a l IH]; simpl; [contradiction|].
  intros Hnd Hx Hy E. inversion Hnd as [|? ? Hnotin Hnd']; subst.
  destruct Hx as [-> | Hx], Hy as [-> | Hy]; auto.
  - exfalso. apply Hnotin. rewrite E. now apply in_map.
  - exfalso. apply Hnotin. rewrite <- E. now apply in_map.
Qed.

Lemma hasId_debit (id : jsstr) (u : User) : hasId id (debit id u) = hasId id u.
Proof. unfold debit. now destruct (hasId id u) eqn:E. Qed.

Lemma find_debit (id : jsstr) (us : list User) :
  find (hasId id) (map (debit id) us) = option_map (debit id) (find (hasId id) us).
Proof.
  induction us as [|u us IH]; simpl; [reflexivity|].
  rewrite hasId_debit. now destruct (hasId id u).
Qed.

Lemma hasId_setLogin (tok : jsstr) (t : Z) (id : jsstr) (u : User) :
  hasId id (setLogin tok t id u) = hasId id u.
Proof. unfold setLogin. now destruct (hasId id u) eqn:E. Qed.

Lemma find_setLogin (tok : jsstr) (t : Z) (id : jsstr) (us : list User) :
  find (hasId id) (map (setLogin tok t id) us)
  = option_map (setLogin tok t id) (find (hasId id) us).
Proof.
  induction us as [|u us IH]; simpl; [reflexivity|].
  rewrite hasId_setLogin. now destruct (hasId id u).
Qed.

Lemma credits_setLogin (tok : jsstr) (t : Z) (id : jsstr) (u : User) :
  u_credits (setLogin tok t id u) = u_credits u.
Proof. unfold setLogin. now destruct (hasId id u). Qed.

(** A create whose [data] leaves out [title] or [videoId] throws. *)
Lemma summaryCreate_incomplete (e : Env) (userId videoUrl text transcript : jsstr)
    (rt rv : option jsstr) (db : DB) :
  rt = None \/ rv = None ->
  summaryCreate e userId videoUrl text transcript rt rv db = None.
Proof.
  unfold summaryCreate. intros [-> | ->]; destruct (createThrows e); try reflexivity.
  now destruct rt.
Qed.

(** What a successful [summary.create] did. *)
Lemma summaryCreate_ok (e : Env) (userId videoUrl text transcript : jsstr)
    (rt rv : option jsstr) (db db' : DB) (row : Summary) :
  summaryCreate e userId videoUrl text transcript rt rv db = Some (db', row) ->
  (exists t v, rt = Some t /\ rv = Some v
     /\ row = mkSummary (uuid e) userId t v videoUrl transcript text (now e))
  /\ db' = mkDB (users db) (summaries db ++ [row])
  /\ ~ In (uuid e) (map s_id (summaries db)).
Proof.
  unfold summaryCreate. destruct (createThrows e); [discriminate|].
  destruct rt as [t|]; [|discriminate]. destruct rv as [v|]; [|discriminate].
  destruct (existsb _ _) eqn:E; [discriminate|].
  intros H. injection H as <- <-. split; [exists t, v; auto|]. split; [reflexivity|].
  intros Hin. apply in_map_iff in Hin as (s & Hs & Hin).
  assert (X : existsb (fun s => jeqb (s_id s) (uuid e)) (summaries db) = true).
  { apply existsb_exists. exists s. split; [exact Hin|]. now apply jeqb_eq. }
  congruence.
Qed.

(** What a successful credit decrement did. *)
Lemma decrementCredits_ok (e : Env) (id : jsstr) (db db' : DB) :
  decrementCredits e id db = Some db' ->
  db' = mkDB (map (debit id) (users db)) (summaries db)
  /\ exists c, creditsOf id db = Some c /\ creditsOf id db' = Some (c - 1).
Proof.
  unfold decrementCredits, creditsOf. destruct (updateThrows e); [discriminate|].
  destruct (find (hasId id) (users db)) as [u|] eqn:F; [|discriminate].
  destruct (u_credits u - 1 <? int4Min); [discriminate|].
  intros H. injection H as <-. split; [reflexivity|].
  exists (u_credits u). split; [reflexivity|].
  simpl. rewrite find_debit, F. simpl.
  apply find_some in F as [_ F]. unfold debit. now rewrite F.
Qed.

Lemma decrementCredits_summaries (e : Env) (id : jsstr) (db db' : DB) :
  decrementCredits e id db = Some db' -> summaries db' = summaries db.
Proof.
  intros H. apply decrementCredits_ok in H as [-> _]. reflexivity.
Qed.

(** Primary keys stay unique under every write of the client. *)
Lemma summaryCreate_wellFormed (e : Env) (userId videoUrl text transcript : jsstr)
    (rt rv : option jsstr) (db db' : DB) (row : Summary) :
  wellFormed db ->
  summaryCreate e userId videoUrl text transcript rt rv db = Some (db', row) ->
  wellFormed db'.
Proof.
  unfold wellFormed. intros Hwf H.
  apply summaryCreate_ok in H as ((t & v & _ & _ & Hrow) & -> & Hfresh).
  simpl. rewrite map_app. simpl.
  apply NoDup_app; auto.
  - repeat constructor. simpl. tauto.
  - intros x Hx [<- | []]. apply Hfresh. now rewrite Hrow in Hx.
Qed.

Lemma summaryDelete_wellFormed (e : Env) (id : jsstr) (db db' : DB) :
  wellFormed db -> summaryDelete e id db = Some db' -> wellFormed db'.
Proof.
  unfold wellFormed, summaryDelete. intros Hwf.
  destruct (deleteThrows e); [discriminate|].
  destruct (existsb _ _); [|discriminate].
  intros H. injection H as <-. simpl.
  induction (summaries db) as [|s l IH]; simpl; [constructor|].
  inversion Hwf as [|? ? Hnotin Hnd]; subst.
  destruct (negb (jeqb (s_id s) id)); simpl; auto.
  constructor; auto.
  intros Hin. apply Hnotin. apply in_map_iff in Hin as (x & Hx & Hin).
  apply filter_In in Hin as [Hin _]. rewrite <- Hx. now apply in_map.
Qed.

End StoreFacts.

(* ================================================================== *)
(** ** The routes: ownership, lookup scope, credit floor, save *)
(* ================================================================== *)

Module RouteClaims.

Import JS Model Codec Store Http Adapter Props JSFacts StoreFacts Samples.
Local Open Scope Z_scope.

(** *** DELETE /summary/:id *)

Lemma no_row_of_other_account (db : DB) (r : Summary) (b : jsstr) :
  wellFormed db -> In r (summaries db) -> s_userId r <> b ->
  find (fun s => jeqb (s_id s) (s_id r) && jeqb (s_userId s) b) (summaries db)
  = None.
Proof.
  intros Hwf Hin Hneq. apply find_none_iff. intros x Hx.
  destruct (jeqb (s_id x) (s_id r)) eqn:E; [|reflexivity].
  apply jeqb_eq in E.
  assert (x = r) by (eapply NoDup_map_same; eauto). subst x.
  simpl. now apply jeqb_neq.
Qed.

(** C8: for every record owned by account [a] and every other account [b],
    a delete request by [b] for that record leaves the store as it is (the
    record is still there and no other record changed) and, when the lookup
    answers, the response is 404 "Summary not found"; both revisions. *)
Theorem delete_by_other_account (e : Env) (db : DB) (r : Summary) (a b : jsstr) :
  wellFormed db -> In r (summaries db) -> s_userId r = a -> a <> b ->
  fst (V1.deleteSummary e b (s_id r) db) = db
  /\ fst (V2.deleteSummary e b (s_id r) db) = db
  /\ In r (summaries (fst (V1.deleteSummary e b (s_id r) db)))
  /\ In r (summaries (fst (V2.deleteSummary e b (s_id r) db)))
  /\ (findFirstThrows e = false ->
      V1.deleteSummary e b (s_id r) db = (db, fail 404 "Summary not found")
      /\ V2.deleteSummary e b (s_id r) db = (db, fail 404 "Summary not found")).
Proof.
  intros Hwf Hin Ha Hab.
  assert (Hneq : s_userId r <> b) by congruence.
  pose proof (@no_row_of_other_account db r b Hwf Hin Hneq) as F.
  unfold V1.deleteSummary, V2.deleteSummary, findFirst.
  destruct (findFirstThrows e); rewrite ?F; simpl; repeat split; auto;
    discriminate.
Qed.

Lemma delete_by_other_account_witness :
  V1.deleteSummary (calm [] 0) bob (s_id aliceRow) sharedDb
  = (sharedDb, fail 404 "Summary not found").
Proof.
  assert (Hwf : wellFormed sharedDb).
  { unfold wellFormed. simpl. repeat constructor; simpl.
    - intros [H | []]. discriminate H.
    - tauto. }
  assert (Hin : In aliceRow (summaries sharedDb)) by (simpl; tauto).
  assert (Hab : alice <> bob) by discriminate.
  destruct (@delete_by_other_account (calm [] 0) sharedDb aliceRow alice bob
              Hwf Hin eq_refl Hab) as (_ & _ & _ & _ & H).
  exact (proj1 (H eq_refl)).
Defined.

(** *** POST /summary/generate, first revision: the lookup has no account *)

(** C10, as stated, fails when another record for the same video URL was
    stored before the one of [a]: [findFirst] returns the first match, here
    Carol's record, although Alice has one too. *)
Lemma first_match_counterexample :
  In aliceRow (summaries sharedDb)
  /\ s_userId aliceRow = alice /\ s_videoUrl aliceRow = talkUrl
  /\ alice <> bob
  /\ V1.generate Heuristic.generateSummary (calm (js "s-new") 9) (Some bob) talk
       sharedDb
     = (sharedDb,
        ok (Existing (mkStructured myTitle myPoints (js "Carol's text."))
              talkUrl (s_id carolRow) 1 None))
  /\ s_id carolRow <> s_id aliceRow.
Proof.
  repeat split; try (simpl; tauto); try discriminate; reflexivity.
Qed.

(** A record that is the only one stored for its video URL is the one the
    lookup of the first revision finds. *)
Lemma only_record_is_found (db : DB) (r : Summary) :
  In r (summaries db) ->
  (forall x, In x (summaries db) -> s_videoUrl x = s_videoUrl r -> x = r) ->
  find (fun s => jeqb (s_videoUrl s) (s_videoUrl r)) (summaries db) = Some r.
Proof.
  intros Hin Hu. apply find_only; auto.
  - apply jeqb_refl.
  - intros x Hx E. apply Hu; auto. now apply jeqb_eq.
Qed.

(** C10 (amended): in the first revision the lookup matches on the video
    URL alone.  For distinct accounts [a] and [b], if the first stored record
    for the video URL belongs to [a], a generate request by [b] for that URL
    returns that record's decoded content and id to [b], and the store is
    unchanged: no credit is charged and no record is created. *)
Theorem v1_generate_cross_account
    (g : jsstr -> option Metadata -> Structured) (e : Env) (db : DB)
    (a b transcript videoId : jsstr) (md : Metadata) (r : Summary) :
  a <> b -> b <> [] -> transcript <> [] -> videoId <> [] ->
  md_videoId md = Some videoId ->
  findFirstThrows e = false ->
  find (fun s => jeqb (s_videoUrl s) (orElse (md_url md) (watchUrl videoId)))
       (summaries db) = Some r ->
  s_userId r = a ->
  V1.generate g e (Some b) (mkGenerateBody (Some transcript) (Some md)) db
  = (db,
     ok (Existing
           (decodeExisting (orElse (md_title md) (js "Video Summary")) (s_summary r))
           (s_videoUrl r) (s_id r) (s_createdAt r) None)).
Proof.
  intros _ Hb Ht Hv Hmd He Hf _.
  destruct b as [|b0 b]; [contradiction|].
  destruct transcript as [|c transcript]; [contradiction|].
  destruct videoId as [|v videoId]; [contradiction|].
  unfold V1.generate. simpl content. simpl metadata. cbv iota beta.
  rewrite Hmd. unfold findFirst. rewrite He, Hf. reflexivity.
Qed.

Lemma v1_generate_cross_account_witness :
  V1.generate Heuristic.generateSummary (calm (js "s-new") 9) (Some bob) talk
    (mkDB [account alice 10; account bob 10] [aliceRow])
  = (mkDB [account alice 10; account bob 10] [aliceRow],
     ok (Existing (mkStructured myTitle myPoints (js "Alice's text."))
           talkUrl (s_id aliceRow) 1 None)).
Proof.
  apply (@v1_generate_cross_account Heuristic.generateSummary
           (calm (js "s-new") 9)
           (mkDB [account alice 10; account bob 10] [aliceRow])
           alice bob _ (js "abc") (mkMetadata (Some (js "abc")) None None)
           aliceRow);
    reflexivity || discriminate.
Defined.

(** *** POST /summary/generate: the credit floor *)

(** The second revision checks the balance before anything is written. *)
Lemma v2_generate_credit_floor
    (g : jsstr -> option Metadata -> Structured) (e : Env) (db : DB)
    (uid transcript videoId : jsstr) (md : Metadata) (u : User) :
  uid <> [] -> transcript <> [] -> videoId <> [] ->
  md_videoId md = Some videoId ->
  find (fun s => jeqb (s_videoUrl s) (orElse (md_url md) (watchUrl videoId))
                 && jeqb (s_userId s) uid) (summaries db) = None ->
  findUniqueThrows e = false ->
  find (hasId uid) (users db) = Some u -> u_credits u <= 0 ->
  V2.generate g e (Some uid) (mkGenerateBody (Some transcript) (Some md)) db
  = (db, fail 403 "Not enough credits to generate summary").
Proof.
  intros Hu Ht Hv Hmd Hf He Hfu Hc.
  destruct uid as [|u0 uid]; [contradiction|].
  destruct transcript as [|c transcript]; [contradiction|].
  destruct videoId as [|v videoId]; [contradiction|].
  unfold V2.generate. simpl content. simpl metadata. cbv iota beta.
  rewrite Hmd. unfold findFirst, findUnique. rewrite He, Hfu, Hf.
  apply Z.leb_le in Hc. rewrite Hc.
  now destruct (findFirstThrows e).
Qed.

(** The transaction of the first revision never commits: its create
    leaves out the required [title] and [videoId]. *)
Lemma v1_persist_throws (e : Env) (uid url text content : jsstr) (tx : DB) :
  V1.persist e uid url text content tx = None.
Proof.
  unfold V1.persist. rewrite summaryCreate_incomplete by (now left). reflexivity.
Qed.

(** So the second half of the first revision answers with the generated
    summary, without an id, and leaves the store as it was. *)
Lemma v1_generateAndStore_unsaved (g : jsstr -> option Metadata -> Structured)
    (e : Env) (uid url transcript : jsstr) (md : Metadata) (credits : Z) (db : DB) :
  fullSummary (g transcript (Some md)) <> [] ->
  V1.generateAndStore g e uid url transcript md credits db
  = (db, ok (Generated (g transcript (Some md)) None url None None
               (Z.max 0 (credits - 1)))).
Proof.
  intros Hs. unfold V1.generateAndStore. cbv zeta.
  destruct (fullSummary (g transcript (Some md))); [contradiction|].
  unfold transaction. now rewrite v1_persist_throws.
Qed.

(** C4 on the first revision: for an account whose balance is 0 or less
    and a video no record is stored for, whatever client call fails, the
    handler answers 200 with the generated summary and [creditsRemaining] 0
    where the claim says 403; the balance is read only to be reported.  Its
    comment hands the check to a [requireCredits] middleware, but the route is
    registered with [authMiddleware] alone. *)
Theorem v1_generate_without_credits
    (g : jsstr -> option Metadata -> Structured) (e : Env) (db : DB)
    (uid transcript videoId : jsstr) (md : Metadata) (u : User) :
  uid <> [] -> transcript <> [] -> videoId <> [] ->
  md_videoId md = Some videoId ->
  find (fun s => jeqb (s_videoUrl s) (orElse (md_url md) (watchUrl videoId)))
       (summaries db) = None ->
  find (hasId uid) (users db) = Some u -> u_credits u <= 0 ->
  fullSummary (g transcript (Some md)) <> [] ->
  V1.generate g e (Some uid) (mkGenerateBody (Some transcript) (Some md)) db
  = (db, ok (Generated (g transcript (Some md)) None
               (orElse (md_url md) (watchUrl videoId)) None None 0))
  /\ status (snd (V1.generate g e (Some uid)
                    (mkGenerateBody (Some transcript) (Some md)) db)) = 200%nat.
Proof.
  intros Hu Ht Hv Hmd Hf Hfu Hc Hs.
  assert (E : V1.generate g e (Some uid) (mkGenerateBody (Some transcript) (Some md)) db
              = (db, ok (Generated (g transcript (Some md)) None
                           (orElse (md_url md) (watchUrl videoId)) None None 0))).
  { destruct uid as [|u0 uid]; [contradiction|].
    destruct transcript as [|c transcript]; [contradiction|].
    destruct videoId as [|v videoId]; [contradiction|].
    unfold V1.generate. simpl content. simpl metadata. cbv iota beta.
    rewrite Hmd. cbv zeta. unfold findFirst, findUnique. rewrite Hf, Hfu.
    destruct (findFirstThrows e), (findUniqueThrows e);
      rewrite v1_generateAndStore_unsaved by exact Hs;
      repeat f_equal; lia. }
  rewrite E. split; reflexivity.
Qed.

Lemma v1_generate_without_credits_witness :
  V1.generate Heuristic.generateSummary (calm (js "s-new") 9) (Some alice) talk
    (mkDB [account alice 0] [])
  = (mkDB [account alice 0] [],
     ok (Generated
           (Heuristic.generateSummary
              (js "The speaker explains how compilers are verified step by step.")
              (Some (mkMetadata (Some (js "abc")) None None)))
           None talkUrl None None 0))
  /\ status (snd (V1.generate Heuristic.generateSummary (calm (js "s-new") 9)
                    (Some alice) talk (mkDB [account alice 0] []))) = 200%nat.
Proof.
  apply (@v1_generate_without_credits Heuristic.generateSummary (calm (js "s-new") 9)
           (mkDB [account alice 0] []) alice _ (js "abc")
           (mkMetadata (Some (js "abc")) None None) (account alice 0));
    try discriminate; reflexivity.
Defined.

(** *** POST /summary/save *)

(** The second revision returns the record it finds and creates nothing. *)
Lemma v2_save_idempotent (e : Env) (db : DB) (uid videoId t prose : jsstr)
    (body : SaveBody) (r : Summary) :
  videoId <> [] -> t <> [] -> prose <> [] ->
  sv_videoId body = Some videoId -> sv_title body = Some t ->
  sv_fullSummary body = Some prose ->
  findFirstThrows e = false ->
  find (fun s => jeqb (s_videoUrl s) (orElse (sv_sourceUrl body) (watchUrl videoId))
                 && jeqb (s_userId s) uid) (summaries db) = Some r ->
  V2.save e uid body db = (db, ok (Saved (s_id r) (s_createdAt r) (Some true))).
Proof.
  intros Hv Ht Hp Ev Et Ep He Hf.
  destruct videoId as [|v videoId]; [contradiction|].
  destruct t as [|t0 t]; [contradiction|].
  destruct prose as [|p0 prose]; [contradiction|].
  unfold V2.save. rewrite Ev, Et, Ep. unfold findFirst. rewrite He, Hf.
  reflexivity.
Qed.

(** The second revision writes only when the lookup found nothing. *)
Lemma v2_save_creates_only_when_absent (e : Env) (db : DB) (uid : jsstr)
    (body : SaveBody) :
  fst (V2.save e uid body db) <> db ->
  exists videoId,
    sv_videoId body = Some videoId
    /\ find (fun s => jeqb (s_videoUrl s)
                        (orElse (sv_sourceUrl body) (watchUrl videoId))
                      && jeqb (s_userId s) uid) (summaries db) = None.
Proof.
  unfold V2.save.
  destruct (sv_videoId body) as [[|v videoId]|]; try (simpl; congruence).
  destruct (sv_title body) as [[|t0 t]|]; try (simpl; congruence).
  destruct (sv_fullSummary body) as [[|p0 prose]|]; try (simpl; congruence).
  unfold findFirst. destruct (findFirstThrows e); [simpl; congruence|].
  destruct (find _ (summaries db)) eqn:F; [simpl; congruence|].
  intros _. exists (v :: videoId). split; [reflexivity|exact F].
Qed.

(** C7 on the first revision: save never looks for a record of the
    caller.  With a record of the caller stored for the video URL, a request
    with video id, title and full summary is answered 500 "Failed to create
    summary" where the claim says the stored record is returned: the handler
    goes straight to a create, which leaves out the required [title] and
    [videoId] and throws.  No request is ever answered with a record, and the
    store stays as it was. *)
Theorem v1_save_ignores_existing (e : Env) (db : DB) (uid videoId t prose : jsstr)
    (body : SaveBody) (r : Summary) :
  videoId <> [] -> t <> [] -> prose <> [] ->
  sv_videoId body = Some videoId -> sv_title body = Some t ->
  sv_fullSummary body = Some prose ->
  find (fun s => jeqb (s_videoUrl s) (orElse (sv_sourceUrl body) (watchUrl videoId))
                 && jeqb (s_userId s) uid) (summaries db) = Some r ->
  V1.save e uid body db = (db, fail 500 "Failed to create summary")
  /\ (forall body' i created saved,
        V1.save e uid body' db <> (db, ok (Saved i created saved))
        /\ fst (V1.save e uid body' db) = db).
Proof.
  intros Hv Ht Hp Ev Et Ep _.
  assert (G : forall body', fst (V1.save e uid body' db) = db
                            /\ status (snd (V1.save e uid body' db)) <> 200%nat).
  { intros body'. unfold V1.save.
    destruct (sv_videoId body') as [[|v0 v]|]; try (split; [reflexivity|discriminate]).
    destruct (sv_title body') as [[|t0 t']|]; try (split; [reflexivity|discriminate]).
    destruct (sv_fullSummary body') as [[|p0 p]|];
      try (split; [reflexivity|discriminate]).
    cbv zeta. destruct (sv_keyPoints body'); [|split; [reflexivity|discriminate]].
    rewrite summaryCreate_incomplete by (now left).
    split; [reflexivity|discriminate]. }
  split.
  - destruct videoId as [|v videoId]; [contradiction|].
    destruct t as [|t0 t]; [contradiction|].
    destruct prose as [|p0 prose]; [contradiction|].
    unfold V1.save. rewrite Ev, Et, Ep. cbv zeta.
    destruct (sv_keyPoints body); [|reflexivity].
    now rewrite summaryCreate_incomplete by (now left).
  - intros body' i created saved. destruct (G body') as [G1 G2].
    split; [|exact G1]. intros E. rewrite E in G2. now apply G2.
Qed.

Lemma v1_save_ignores_existing_witness :
  V1.save (calm (js "s-new") 9) alice saveTalk (mkDB [account alice 10] [aliceRow])
  = (mkDB [account alice 10] [aliceRow], fail 500 "Failed to create summary")
  /\ (forall body' i created saved,
        V1.save (calm (js "s-new") 9) alice body' (mkDB [account alice 10] [aliceRow])
        <> (mkDB [account alice 10] [aliceRow], ok (Saved i created saved))
        /\ fst (V1.save (calm (js "s-new") 9) alice body'
                  (mkDB [account alice 10] [aliceRow]))
           = mkDB [account alice 10] [aliceRow]).
Proof.
  apply (@v1_save_ignores_existing (calm (js "s-new") 9)
           (mkDB [account alice 10] [aliceRow]) alice (js "abc") myTitle myProse
           saveTalk aliceRow);
    try discriminate; reflexivity.
Defined.

End RouteClaims.

(* ================================================================== *)
(** ** The routes: repeated generation, atomic persistence, signup *)
(* ================================================================== *)

Module FlowClaims.

Import JS Model Codec Store Http Adapter Props JSFacts StoreFacts Samples.
Local Open Scope Z_scope.

(** The generate route of the second revision never writes a record; the
    only write it can make is the debit of the caller. *)
Lemma v2_generate_writes (g : jsstr -> option Metadata -> Structured) (e : Env)
    (user : option jsstr) (body : GenerateBody) (db : DB) :
  summaries (fst (V2.generate g e user body db)) = summaries db
  /\ (users (fst (V2.generate g e user body db)) = users db
      \/ exists uid, user = Some uid
           /\ users (fst (V2.generate g e user body db))
              = map (debit uid) (users db)).
Proof.
  unfold V2.generate.
  destruct user as [[|u0 uid]|]; try (simpl; auto; fail).
  destruct (content body) as [[|c tr]|]; try (simpl; auto; fail).
  destruct (metadata body) as [md|]; try (simpl; auto; fail).
  destruct (md_videoId md) as [[|v vid]|]; try (simpl; auto; fail).
  cbv zeta.
  destruct (findFirst e _ db) as [[ex|]|]; try (simpl; auto; fail);
    (destruct (findUnique e (u0 :: uid) db) as [[u|]|]; try (simpl; auto; fail);
     destruct (u_credits u <=? 0); try (simpl; auto; fail);
     destruct (fullSummary (g (c :: tr) (Some md))); try (simpl; auto; fail);
     destruct (decrementCredits e (u0 :: uid) db) as [d|] eqn:D;
       try (simpl; auto; fail);
     apply decrementCredits_ok in D as [-> _]; simpl; split; [reflexivity|];
     right; exists (u0 :: uid); split; reflexivity).
Qed.






End FlowClaims.

(* ================================================================== *)
(** ** The routes: the transaction of the first revision *)
(* ================================================================== *)

Module PersistClaims.

Import JS Model Codec Store Http Adapter Props JSFacts StoreFacts Samples FlowClaims.
Local Open Scope Z_scope.

(** The store after [generateAndStore] is the old one, or the old one with
    one more record and one credit less. *)
Lemma generateAndStore_atomic (g : jsstr -> option Metadata -> Structured)
    (e : Env) (uid url transcript : jsstr) (md : Metadata) (credits : Z) (db : DB) :
  fst (V1.generateAndStore g e uid url transcript md credits db) = db
  \/ exists row,
       s_userId row = uid
       /\ fst (V1.generateAndStore g e uid url transcript md credits db)
          = mkDB (map (debit uid) (users db)) (summaries db ++ [row])
       /\ exists c, creditsOf uid db = Some c
            /\ creditsOf uid
                 (fst (V1.generateAndStore g e uid url transcript md credits db))
               = Some (c - 1).
Proof.
  unfold V1.generateAndStore. cbv zeta.
  destruct (fullSummary (g transcript (Some md))); [now left|].
  unfold transaction, V1.persist.
  destruct (summaryCreate _ _ _ _ _ _ _ db) as [[tx1 created]|] eqn:SC;
    [|now left].
  destruct (decrementCredits e uid tx1) as [tx2|] eqn:DC; [|now left].
  apply summaryCreate_ok in SC as ((t & v & _ & _ & Hrow) & -> & _).
  apply decrementCredits_ok in DC as (-> & c0 & Hc0 & Hc1).
  right. exists created. simpl. split; [now rewrite Hrow|].
  split; [reflexivity|]. exists c0. split; [exact Hc0|exact Hc1].
Qed.





End PersistClaims.

(* ================================================================== *)
(** ** POST /auth/signup *)
(* ================================================================== *)

Module SignupClaims.

Import JS Model Store Http Auth Props JSFacts StoreFacts Samples.
Local Open Scope Z_scope.

Lemma find_in (A : Type) (p : A -> bool) (l : list A) (x : A) :
  In x l -> p x = true -> exists y, find p l = Some y.
Proof.
  induction l as [|a l IH]; simpl; [contradiction|].
  intros Hin Hp. destruct (p a) eqn:E; [now exists a|].
  destruct Hin as [-> | Hin]; [congruence|]. now apply IH.
Qed.

(** What a successful [user.create] did. *)
Lemma userCreate_ok (e : Env) (u : User) (db db1 : DB) (created : User) :
  userCreate e u db = Some (db1, created) ->
  created = u /\ db1 = mkDB (users db ++ [u]) (summaries db)
  /\ find (hasId (u_id u)) (users db) = None.
Proof.
  unfold userCreate. destruct (createThrows e); [discriminate|].
  destruct (existsb _ _) eqn:E; [discriminate|].
  intros H. injection H as <- <-. repeat split.
  apply find_none_iff. intros x Hx. unfold hasId.
  destruct (jeqb (u_id x) (u_id u)) eqn:J; [|reflexivity].
  assert (X : existsb (fun v => jeqb (u_id v) (u_id u) || jeqb (u_email v) (u_email u))
                (users db) = true).
  { apply existsb_exists. exists x. split; [exact Hx|]. now rewrite J. }
  congruence.
Qed.

(** C9, as stated, fails on the status code: a signup with a registered
    email is refused with 400 "User already exists", not 409. *)
Lemma signup_conflict_counterexample :
  let db := mkDB [account alice 3] [] in
  In (js "alice@example.org") (map u_email (users db))
  /\ signup (calm (js "u-new") 9) toyCrypto signupAlice db
     = (db, fail 400 "User already exists")
  /\ status (snd (signup (calm (js "u-new") 9) toyCrypto signupAlice db)) <> 409%nat.
Proof.
  repeat split; [simpl; now left | discriminate].
Qed.

(** C9 (amended): for every signup request whose email is already
    registered, the route answers 400 "User already exists" (when the lookup
    answers) and the store is unchanged; and every signup that answers 200
    created a new account holding 10 credits and reports it. *)
Theorem signup_policy :
  (forall (e : Env) (c : Crypto) (body : SignupBody) (db : DB)
          (email password name : jsstr) (u : User),
      email <> [] -> password <> [] -> name <> [] ->
      su_email body = Some email -> su_password body = Some password ->
      su_name body = Some name ->
      findUniqueThrows e = false ->
      In u (users db) -> u_email u = email ->
      signup e c body db = (db, fail 400 "User already exists"))
  /\ (forall (e : Env) (c : Crypto) (body : SignupBody) (db db' : DB)
             (token : jsstr) (expiresAt : Z) (user : User),
        signup e c body db = (db', ok (SignedUp token expiresAt user)) ->
        u_credits user = 10
        /\ su_email body = Some (u_email user)
        /\ creditsOf (u_id user) db = None
        /\ creditsOf (u_id user) db' = Some 10
        /\ summaries db' = summaries db).
Proof.
  split.
  - intros e c body db email password name u He Hp Hn Ee Ep En Ht Hin Hu.
    destruct email as [|e0 email]; [contradiction|].
    destruct password as [|p0 password]; [contradiction|].
    destruct name as [|n0 name]; [contradiction|].
    unfold signup. rewrite Ee, Ep, En. unfold findUniqueByEmail. rewrite Ht.
    destruct (@find_in _ (fun v => jeqb (u_email v) (e0 :: email)) (users db) u Hin)
      as [y Hy]; [now apply jeqb_eq|].
    now rewrite Hy.
  - intros e c body db db' token expiresAt user. unfold signup, ok, fail.
    destruct (su_email body) as [[|e0 email]|]; try discriminate.
    destruct (su_password body) as [[|p0 password]|]; try discriminate.
    destruct (su_name body) as [[|n0 name]|]; try discriminate.
    destruct (findUniqueByEmail e (e0 :: email) db) as [[ex|]|]; try discriminate.
    destruct (userCreate e _ db) as [[db1 created]|] eqn:UC; [|discriminate].
    destruct (recordLogin e (u_id created) (refreshToken c) db1) as [db2|] eqn:RL;
      [|discriminate].
    intros H. injection H as <- _ _ <-.
    apply userCreate_ok in UC as (-> & -> & Hfresh). simpl in Hfresh.
    unfold recordLogin in RL. destruct (updateThrows e); [discriminate|].
    simpl in RL. destruct (find (hasId (uuid e)) (users db ++ _)); [|discriminate].
    injection RL as <-. unfold creditsOf. simpl.
    repeat split.
    + now rewrite Hfresh.
    + rewrite find_setLogin.
      rewrite (find_app_last _ _ _ Hfresh) by (unfold hasId; apply jeqb_refl).
      simpl. now rewrite credits_setLogin.
Qed.

Lemma signup_policy_witness :
  signup (calm (js "u-new") 9) toyCrypto signupAlice (mkDB [account alice 3] [])
  = (mkDB [account alice 3] [], fail 400 "User already exists").
Proof.
  apply (proj1 signup_policy (calm (js "u-new") 9) toyCrypto signupAlice
           (mkDB [account alice 3] []) (js "alice@example.org") (js "secret")
           (js "Alice") (account alice 3));
    try discriminate; try reflexivity.
  simpl. now left.
Defined.

End SignupClaims.

(* ================================================================== *)
(** ** Primary keys and the read path *)
(* ================================================================== *)

Module ReadPathFacts.

Import JS Model Codec Store Http Props JSFacts StoreFacts CodecFacts CodecClaims.
Local Open Scope Z_scope.

Ltac keep_store :=
  repeat match goal with
         | |- wellFormed (fst (_, _)) => simpl fst
         | |- wellFormed (fst (match ?x with _ => _ end)) => destruct x eqn:?
         | |- wellFormed (fst (if ?x then _ else _)) => destruct x eqn:?
         | |- wellFormed (match ?x with _ => _ end) => destruct x eqn:?
         end;
  auto.

Ltac after_write Hwf :=
  match goal with
  | H : summaryCreate _ _ _ _ _ _ _ _ = Some _ |- _ =>
      eapply summaryCreate_wellFormed; [exact Hwf | exact H]
  | H : summaryDelete _ _ _ = Some _ |- _ =>
      eapply summaryDelete_wellFormed; [exact Hwf | exact H]
  | H : decrementCredits _ _ _ = Some _ |- _ =>
      apply decrementCredits_summaries in H;
      unfold wellFormed in *; congruence
  end.

(** Every modelled write keeps the primary keys of the summary table
    unique. *)
Lemma routes_keep_keys_unique
    (g : jsstr -> option Metadata -> Structured) (e : Env) (db : DB) :
  wellFormed db ->
  (forall user body, wellFormed (fst (V1.generate g e user body db)))
  /\ (forall user body, wellFormed (fst (V2.generate g e user body db)))
  /\ (forall uid body, wellFormed (fst (V1.save e uid body db)))
  /\ (forall uid body, wellFormed (fst (V2.save e uid body db)))
  /\ (forall uid id, wellFormed (fst (V1.deleteSummary e uid id db)))
  /\ (forall uid id, wellFormed (fst (V2.deleteSummary e uid id db))).
Proof.
  intros Hwf.
  assert (G : forall uid url tr md c,
             wellFormed (fst (V1.generateAndStore g e uid url tr md c db))).
  { intros uid url tr md c. unfold V1.generateAndStore, transaction, V1.persist.
    cbv zeta. destruct (fullSummary _); [exact Hwf|].
    destruct (summaryCreate _ _ _ _ _ _ _ db) as [[tx1 created]|] eqn:SC;
      [|exact Hwf].
    assert (Hwf1 : wellFormed tx1)
      by (eapply summaryCreate_wellFormed; [exact Hwf | exact SC]).
    destruct (decrementCredits e uid tx1) as [tx2|] eqn:DC; [|exact Hwf].
    simpl. after_write Hwf1. }
  repeat split; intros.
  - unfold V1.generate. cbv zeta. keep_store.
  - unfold V2.generate. cbv zeta. keep_store. all: after_write Hwf.
  - unfold V1.save. cbv zeta. keep_store. all: after_write Hwf.
  - unfold V2.save. cbv zeta. keep_store. all: after_write Hwf.
  - unfold V1.deleteSummary. keep_store. all: after_write Hwf.
  - unfold V2.deleteSummary. keep_store. all: after_write Hwf.
Qed.

(** The read path of the first revision undoes the stored format: a
    record whose text is the encoding of a clean triple is read back by its
    owner as that triple, with the record's URL and creation time, and the
    store is left alone. *)
Lemma get_stored_triple (e : Env) (db : DB) (r : Summary) (t prose : jsstr)
    (kps : list jsstr) :
  wellFormed db -> In r (summaries db) ->
  s_summary r = encode t kps prose ->
  cleanTitle t = true -> kps <> [] -> forallb cleanPoint kps = true ->
  trimmed prose = true ->
  findFirstThrows e = false ->
  V1.getSummary e (s_userId r) (s_id r) db
  = (db, ok (Fetched (s_id r) (mkStructured t kps prose)
               (s_videoUrl r) (s_createdAt r))).
Proof.
  intros Hwf Hin Htext Ht Hne Hk Hp He.
  assert (F : find (fun s => jeqb (s_id s) (s_id r) && jeqb (s_userId s) (s_userId r))
                (summaries db) = Some r).
  { apply find_only; auto.
    - now rewrite !jeqb_refl.
    - intros x Hx Hpx. apply andb_true_iff in Hpx as [Hpx _]. apply jeqb_eq in Hpx.
      eapply NoDup_map_same; eauto. }
  unfold V1.getSummary, findFirst. rewrite He, F, Htext.
  now rewrite decode_encode.
Qed.

End ReadPathFacts.

(* ================================================================== *)
(** ** The two decoders and what they return *)
(* ================================================================== *)

Module DecodeProps.

Import JS JSMore Model Codec Props JSFacts CodecFacts Samples.
Local Open Scope N_scope.

Lemma decodeExisting_points (d s : jsstr) :
  keyPoints (decodeExisting d s) = keyPoints (decode s).
Proof.
  unfold decodeExisting, decode.
  destruct (keyPointsMatch s), (titleMatch s); reflexivity.
Qed.

(** The decoder inside the generate route and the decoder of the read
    routes are two copies of one text: on every stored string they return the
    same key points and the same prose; the title differs only where the
    generate route keeps its default, that is when the marker or the first
    line is missing. *)
Theorem decoders_agree (d s : jsstr) :
  keyPoints (decodeExisting d s) = keyPoints (decode s)
  /\ fullSummary (decodeExisting d s) = fullSummary (decode s)
  /\ (keyPointsMatch s = None -> title (decodeExisting d s) = d)
  /\ (titleMatch s = None -> title (decodeExisting d s) = d)
  /\ (keyPointsMatch s <> None -> titleMatch s <> None ->
      title (decodeExisting d s) = title (decode s)).
Proof.
  unfold decodeExisting, decode.
  destruct (keyPointsMatch s) as [cap|], (titleMatch s) as [t|]; simpl;
    repeat split; auto; try discriminate; intros; congruence.
Qed.

Lemma decoders_agree_witness :
  title (decodeExisting (js "Video Summary") myBlob) = title (decode myBlob).
Proof.
  apply (proj2 (proj2 (proj2 (proj2 (decoders_agree (js "Video Summary") myBlob)))));
    discriminate.
Defined.

Lemma split_pieces_nosep (sep : N) (s : jsstr) :
  Forall (fun piece => forallb (fun c => negb (c =? sep)) piece = true)
         (split sep s).
Proof.
  induction s as [|c s IH]; simpl; [repeat constructor|].
  destruct (c =? sep) eqn:E; [constructor; [reflexivity|exact IH]|].
  destruct (split sep s) as [|h t]; [repeat constructor; simpl; now rewrite E|].
  inversion IH; subst. constructor; [simpl; rewrite E; simpl; assumption|assumption].
Qed.

Lemma trimStart_keeps (P : N -> bool) (s : jsstr) :
  forallb P s = true -> forallb P (trimStart s) = true.
Proof.
  induction s as [|c s IH]; simpl; [reflexivity|].
  intros H. destruct (isSpace c); [|exact H].
  apply andb_true_iff in H as [_ H]. now apply IH.
Qed.

Lemma forallb_reverse (P : N -> bool) (s : jsstr) :
  forallb P (rev s) = forallb P s.
Proof.
  induction s as [|c s IH]; simpl; [reflexivity|].
  rewrite forallb_app, IH. simpl. rewrite andb_true_r. apply andb_comm.
Qed.

Lemma trim_keeps (P : N -> bool) (s : jsstr) :
  forallb P s = true -> forallb P (trim s) = true.
Proof.
  intros H. unfold trim, trimEnd.
  rewrite forallb_reverse. apply trimStart_keeps.
  rewrite forallb_reverse. now apply trimStart_keeps.
Qed.

Lemma headOk_trimStart (s : jsstr) : headOk (trimStart s) = true.
Proof.
  induction s as [|c s IH]; simpl; [reflexivity|].
  destruct (isSpace c) eqn:E; [exact IH|]. simpl. now rewrite E.
Qed.

Lemma headOk_rev_trimStart (u : jsstr) :
  headOk (rev u) = true -> headOk (rev (trimStart u)) = true.
Proof.
  induction u as [|c u IH]; simpl; [reflexivity|].
  intros H. destruct (isSpace c) eqn:E; [|exact H].
  apply IH. destruct (rev u) as [|x r] eqn:R; [reflexivity|].
  simpl in H. exact H.
Qed.

(** What [trim] returns has no white space at either end. *)
Lemma trimmed_trim (s : jsstr) : trimmed (trim s) = true.
Proof.
  unfold trimmed, trim, trimEnd. rewrite rev_involutive.
  rewrite headOk_trimStart, andb_true_r.
  apply headOk_rev_trimStart. rewrite rev_involutive. apply headOk_trimStart.
Qed.

(** Whatever the stored string, every key point the decoders return is
    non-empty, has no white space at either end and contains no hyphen. *)
Theorem decoded_points_clean (d s p : jsstr) :
  In p (keyPoints (decode s)) \/ In p (keyPoints (decodeExisting d s)) ->
  p <> [] /\ trimmed p = true /\ forallb (fun c => negb (c =? 45)) p = true.
Proof.
  intros H.
  assert (Hin : In p (keyPoints (decode s))).
  { destruct H as [H | H]; [exact H|].
    now rewrite decodeExisting_points in H. }
  clear H. unfold decode in Hin.
  destruct (keyPointsMatch s) as [cap|]; simpl in Hin; [|contradiction].
  unfold extractKeyPoints in Hin. apply filter_In in Hin as [Hin Hlen].
  apply in_map_iff in Hin as (q & <- & Hq).
  split; [|split].
  - intros E. rewrite E in Hlen. discriminate.
  - apply trimmed_trim.
  - apply trim_keeps.
    pose proof (split_pieces_nosep 45 cap) as HF.
    rewrite Forall_forall in HF. now apply HF.
Qed.

Lemma decoded_points_clean_witness :
  js "point one" <> [] /\ trimmed (js "point one") = true.
Proof.
  destruct (@decoded_points_clean [] myBlob (js "point one")) as (H1 & H2 & _).
  - left. simpl. now left.
  - split; assumption.
Defined.

End DecodeProps.

(* ================================================================== *)
(** ** The read routes *)
(* ================================================================== *)

Module ReadProps.

Import JS JSMore Model Codec Adapter Store Http Props Reads.
Import JSFacts CodecFacts CodecClaims StoreFacts RouteClaims ReadPathFacts.
Import Samples MoreSamples.
Local Open Scope N_scope.

Lemma get_stored_triple_witness :
  V1.getSummary (calm [] 0) alice (js "s-alice") sharedDb
  = (sharedDb,
     ok (Fetched (js "s-alice") (mkStructured myTitle myPoints (js "Alice's text."))
           talkUrl 1)).
Proof.
  assert (Hwf : wellFormed sharedDb).
  { unfold wellFormed. simpl. repeat constructor; simpl.
    - intros [H | []]. discriminate H.
    - tauto. }
  assert (Hin : In aliceRow (summaries sharedDb)) by (simpl; tauto).
  assert (Hne : myPoints <> []) by discriminate.
  exact (@get_stored_triple (calm [] 0) sharedDb aliceRow myTitle (js "Alice's text.")
           myPoints Hwf Hin eq_refl eq_refl Hne eq_refl eq_refl eq_refl).
Defined.

(** *** The video id of a record *)

Lemma takeWhile_app (p : N -> bool) (a rest : jsstr) :
  forallb p a = true -> (rest = [] \/ exists c r, rest = c :: r /\ p c = false) ->
  takeWhile p (a ++ rest) = a /\ dropWhile p (a ++ rest) = rest.
Proof.
  intros Ha Hrest. induction a as [|c a IH]; simpl.
  - destruct Hrest as [-> | (c & r & -> & Hc)]; simpl; [auto|now rewrite Hc].
  - simpl in Ha. apply andb_true_iff in Ha as [Hc Ha]. rewrite Hc.
    destruct (IH Ha) as [-> ->]. auto.
Qed.

Lemma extractVideoId_watchUrl (a rest : jsstr) :
  a <> [] -> forallb notAmp a = true -> (rest = [] \/ exists r, rest = 38 :: r) ->
  extractVideoId (watchUrl (a ++ rest)) = Some a.
Proof.
  intros Hne Ha Hrest.
  assert (G : greedyPlus notAmp (a ++ rest) = Some (a, rest)).
  { unfold greedyPlus.
    destruct (@takeWhile_app notAmp a rest Ha) as [-> ->].
    - destruct Hrest as [-> | (r & ->)]; [now left|].
      right. exists 38, r. split; reflexivity.
    - destruct a; [contradiction|reflexivity]. }
  unfold extractVideoId, watchUrl.
  change (js "https://www.youtube.com/watch?v=" ++ a ++ rest)
    with (js "https://www." ++ (js "youtube.com/watch?v=" ++ (a ++ rest))).
  cbn -[greedyPlus]. rewrite G. reflexivity.
Qed.

(** The id the read routes show for a record whose URL is the default
    watch URL of a video id is that id, up to its first ampersand. *)
Theorem videoId_of_watchUrl (a rest : jsstr) :
  a <> [] -> forallb notAmp a = true -> (rest = [] \/ exists r, rest = 38 :: r) ->
  extractVideoId (watchUrl (a ++ rest)) = Some a.
Proof. exact (@extractVideoId_watchUrl a rest). Qed.

Lemma videoId_of_watchUrl_witness :
  extractVideoId (watchUrl (js "abc" ++ js "&t=42")) = Some (js "abc").
Proof.
  apply videoId_of_watchUrl; [discriminate | reflexivity |].
  right. eexists. reflexivity.
Defined.

(** A record that the save route just created is found by its id. *)
Lemma find_created (db : DB) (row : Summary) :
  ~ In (s_id row) (map s_id (summaries db)) ->
  find (fun s => jeqb (s_id s) (s_id row) && jeqb (s_userId s) (s_userId row))
       (summaries db ++ [row]) = Some row.
Proof.
  intros Hfresh. apply find_app_last.
  - apply find_none_iff. intros x Hx.
    destruct (jeqb (s_id x) (s_id row)) eqn:J; [|reflexivity].
    exfalso. apply Hfresh. apply jeqb_eq in J. rewrite <- J. now apply in_map.
  - now rewrite !jeqb_refl.
Qed.

(** In the second revision, saving a clean triple for a video the caller
    has no record of, under the default watch URL, and reading the record back
    by the returned id gives the triple, the transcript that was sent and the
    video id. *)
Theorem v2_save_then_get (e e' : Env) (uid : jsstr) (body : SaveBody) (db db1 : DB)
    (videoId t prose : jsstr) (kps : list jsstr) (i : jsstr) (created : Z)
    (saved : option bool) :
  sv_videoId body = Some videoId -> sv_title body = Some t ->
  sv_keyPoints body = Some kps -> sv_fullSummary body = Some prose ->
  sv_sourceUrl body = None ->
  cleanTitle t = true -> kps <> [] -> forallb cleanPoint kps = true ->
  trimmed prose = true -> forallb notAmp videoId = true ->
  find (fun s => jeqb (s_videoUrl s) (watchUrl videoId) && jeqb (s_userId s) uid)
       (summaries db) = None ->
  V2.save e uid body db = (db1, ok (Saved i created saved)) ->
  findFirstThrows e' = false ->
  getSummary e' uid i db1
  = (db1, Sent (mkDetail i (mkStructured t kps prose) (watchUrl videoId) created
                  (orElse (sv_transcript body) []) (Some videoId))).
Proof.
  intros Ev Et Ek Ep Eu Ht Hne Hk Hp Hamp Hnone Hsave He'.
  unfold V2.save, ok, fail in Hsave. rewrite Ev, Et, Ek, Ep, Eu in Hsave.
  destruct videoId as [|v videoId]; [discriminate|].
  destruct t as [|t0 t]; [discriminate|].
  destruct prose as [|p0 prose]; [discriminate|].
  cbv zeta in Hsave. unfold findFirst in Hsave.
  destruct (findFirstThrows e); [discriminate|].
  simpl orElse in Hsave. rewrite Hnone in Hsave.
  destruct (summaryCreate _ _ _ _ _ _ _ db) as [[db' row]|] eqn:SC; [|discriminate].
  injection Hsave as <- <- <- _.
  apply summaryCreate_ok in SC as ((rt0 & rv0 & _ & _ & Hrow) & -> & Hfresh).
  unfold getSummary, findFirst. rewrite He'. simpl summaries.
  assert (Eid : s_id row = uuid e) by (rewrite Hrow; reflexivity).
  assert (Eown : s_userId row = uid) by (rewrite Hrow; reflexivity).
  rewrite <- Eid in Hfresh.
  pose proof (@find_created db row Hfresh) as F. rewrite Eown in F. rewrite F.
  assert (V : extractVideoId (watchUrl (v :: videoId)) = Some (v :: videoId)).
  { rewrite <- (app_nil_r (v :: videoId)) at 1.
    apply extractVideoId_watchUrl; [discriminate | exact Hamp | now left]. }
  unfold formatSummary. rewrite Hrow.
  cbn [s_id s_userId s_summary s_videoUrl s_createdAt s_transcript].
  now rewrite (@decode_encode _ _ _ Ht Hne Hk Hp), V.
Qed.

Lemma v2_save_then_get_witness :
  getSummary (calm [] 0) alice (js "s-new")
    (fst (V2.save (calm (js "s-new") 9) alice saveSpoken (mkDB [account alice 10] [])))
  = (fst (V2.save (calm (js "s-new") 9) alice saveSpoken (mkDB [account alice 10] [])),
     Sent (mkDetail (js "s-new") (mkStructured myTitle myPoints myProse) talkUrl 9
             (js "Hello and welcome.") (Some (js "abc")))).
Proof.
  apply (@v2_save_then_get (calm (js "s-new") 9) (calm [] 0) alice saveSpoken
           (mkDB [account alice 10] []) _ (js "abc") myTitle myProse myPoints
           (js "s-new") 9%Z (Some true));
    reflexivity || discriminate.
Defined.

(** *** Ownership on the read routes *)

(** For every record owned by account [a] and every other account [b], the
    three read routes (get by id in both revisions, transcript) answer [b]
    with 404 "Summary not found" when the lookup answers, and leave the store
    as it is. *)
Theorem reads_hide_other_accounts (e : Env) (db : DB) (r : Summary) (a b : jsstr) :
  wellFormed db -> In r (summaries db) -> s_userId r = a -> a <> b -> b <> [] ->
  (findFirstThrows e = false ->
   V1.getSummary e b (s_id r) db = (db, fail 404 "Summary not found")
   /\ getSummary e b (s_id r) db = (db, Refused 404 "Summary not found"))
  /\ (findUniqueThrows e = false ->
      getTranscript e (Some b) (s_id r) db = (db, Refused 404 "Summary not found")).
Proof.
  intros Hwf Hin Ha Hab Hb.
  assert (Hneq : s_userId r <> b) by congruence.
  pose proof (@no_row_of_other_account db r b Hwf Hin Hneq) as F.
  split.
  - intros He. unfold V1.getSummary, getSummary, findFirst. now rewrite He, F.
  - intros He. destruct b as [|b0 b]; [contradiction|].
    unfold getTranscript, summaryFindUnique. now rewrite He, F.
Qed.

Lemma reads_hide_other_accounts_witness :
  getTranscript (calm [] 0) (Some bob) (s_id aliceRow) sharedDb
  = (sharedDb, Refused 404 "Summary not found").
Proof.
  assert (Hwf : wellFormed sharedDb).
  { unfold wellFormed. simpl. repeat constructor; simpl.
    - intros [H | []]. discriminate H.
    - tauto. }
  assert (Hin : In aliceRow (summaries sharedDb)) by (simpl; tauto).
  assert (Hab : alice <> bob) by discriminate.
  assert (Hb : bob <> []) by discriminate.
  exact (proj2 (@reads_hide_other_accounts (calm [] 0) sharedDb aliceRow alice bob
                  Hwf Hin eq_refl Hab Hb) eq_refl).
Defined.

(** *** The transcript route *)





(** *** Deleting *)

(** When the owner deletes a record (both revisions, no client call
    failing), exactly that record leaves the store: the accounts and every
    other record stay, and a later read of the id answers 404. *)
Theorem delete_by_owner (e e' : Env) (db : DB) (r : Summary) (reader : jsstr) :
  wellFormed db -> In r (summaries db) ->
  findFirstThrows e = false -> deleteThrows e = false ->
  findFirstThrows e' = false ->
  V1.deleteSummary e (s_userId r) (s_id r) db
  = V2.deleteSummary e (s_userId r) (s_id r) db
  /\ snd (V2.deleteSummary e (s_userId r) (s_id r) db) = ok (Deleted (s_id r))
  /\ users (fst (V2.deleteSummary e (s_userId r) (s_id r) db)) = users db
  /\ (forall x, In x (summaries (fst (V2.deleteSummary e (s_userId r) (s_id r) db)))
                <-> In x (summaries db) /\ x <> r)
  /\ snd (getSummary e' reader (s_id r)
            (fst (V2.deleteSummary e (s_userId r) (s_id r) db)))
     = Refused 404 "Summary not found".
Proof.
  intros Hwf Hin He Hd He'.
  assert (F : find (fun s => jeqb (s_id s) (s_id r) && jeqb (s_userId s) (s_userId r))
                (summaries db) = Some r).
  { apply find_only; auto.
    - now rewrite !jeqb_refl.
    - intros x Hx Hp. apply andb_true_iff in Hp as [Hp _]. apply jeqb_eq in Hp.
      eapply NoDup_map_same; eauto. }
  assert (X : existsb (fun s => jeqb (s_id s) (s_id r)) (summaries db) = true).
  { apply existsb_exists. exists r. split; [exact Hin|apply jeqb_refl]. }
  assert (K : forall x, In x (filter (fun s => negb (jeqb (s_id s) (s_id r))) (summaries db))
                        <-> In x (summaries db) /\ x <> r).
  { intros x. rewrite filter_In. split; intros [Hx Hn]; split; auto.
    - intros ->. rewrite jeqb_refl in Hn. discriminate.
    - destruct (jeqb (s_id x) (s_id r)) eqn:J; [|reflexivity].
      exfalso. apply Hn. apply jeqb_eq in J. eapply NoDup_map_same; eauto. }
  assert (D : V2.deleteSummary e (s_userId r) (s_id r) db
              = (mkDB (users db)
                   (filter (fun s => negb (jeqb (s_id s) (s_id r))) (summaries db)),
                 ok (Deleted (s_id r)))).
  { unfold V2.deleteSummary, findFirst, summaryDelete. now rewrite He, F, Hd, X. }
  assert (D1 : V1.deleteSummary e (s_userId r) (s_id r) db
               = V2.deleteSummary e (s_userId r) (s_id r) db) by reflexivity.
  rewrite D1, D. cbn [fst snd users summaries].
  split; [reflexivity|]. split; [reflexivity|]. split; [reflexivity|].
  split; [exact K|].
  unfold getSummary, findFirst. rewrite He'. cbn [summaries].
  replace (find _ _) with (@None Summary); [reflexivity|].
  symmetry. apply find_none_iff. intros x Hx.
  apply filter_In in Hx as [_ Hx]. apply negb_true_iff in Hx. now rewrite Hx.
Qed.

Lemma delete_by_owner_witness :
  snd (V2.deleteSummary (calm [] 0) alice (s_id aliceRow) sharedDb)
  = ok (Deleted (s_id aliceRow)).
Proof.
  assert (Hwf : wellFormed sharedDb).
  { unfold wellFormed. simpl. repeat constructor; simpl.
    - intros [H | []]. discriminate H.
    - tauto. }
  assert (Hin : In aliceRow (summaries sharedDb)) by (simpl; tauto).
  destruct (@delete_by_owner (calm [] 0) (calm [] 0) sharedDb aliceRow bob
              Hwf Hin eq_refl eq_refl eq_refl) as (_ & H & _).
  exact H.
Defined.

End ReadProps.

(* ================================================================== *)
(** ** Credits, saving and generating *)
(* ================================================================== *)

Module CreditProps.

Import JS JSMore Model Codec Adapter Store Http Props Reads Reply.
Import JSFacts StoreFacts RouteClaims FlowClaims PersistClaims.
Import Samples MoreSamples.
Local Open Scope Z_scope.

Lemma v2_generate_credit_floor_witness :
  V2.generate Heuristic.generateSummary (calm (js "s-new") 9) (Some alice) talk
    (mkDB [account alice 0] [])
  = (mkDB [account alice 0] [], fail 403 "Not enough credits to generate summary").
Proof.
  apply (@v2_generate_credit_floor Heuristic.generateSummary (calm (js "s-new") 9)
           (mkDB [account alice 0] []) alice _ (js "abc") talkMeta (account alice 0));
    try discriminate; try reflexivity.
Defined.

Lemma v2_save_idempotent_witness :
  V2.save (calm (js "s-new") 9) alice saveTalk (mkDB [account alice 10] [aliceRow])
  = (mkDB [account alice 10] [aliceRow], ok (Saved (s_id aliceRow) 1 (Some true))).
Proof.
  apply (@v2_save_idempotent (calm (js "s-new") 9) (mkDB [account alice 10] [aliceRow])
           alice (js "abc") myTitle myProse saveTalk aliceRow);
    try discriminate; reflexivity.
Defined.

Lemma v2_save_creates_only_when_absent_witness :
  exists videoId,
    sv_videoId saveTalk = Some videoId
    /\ find (fun s => jeqb (s_videoUrl s)
                        (orElse (sv_sourceUrl saveTalk) (watchUrl videoId))
                      && jeqb (s_userId s) alice)
            (summaries (mkDB [account alice 10] [])) = None.
Proof.
  apply (@v2_save_creates_only_when_absent (calm (js "s-new") 9)
           (mkDB [account alice 10] []) alice saveTalk).
  discriminate.
Defined.

(** What a successful save of the second revision leaves behind: a record
    of the caller for the video URL, with the id and time that were sent, which
    the lookup by (URL, caller) finds. *)
Lemma v2_save_leaves_record (e : Env) (uid : jsstr) (body : SaveBody) (db db1 : DB)
    (i : jsstr) (created : Z) (saved : option bool) :
  V2.save e uid body db = (db1, ok (Saved i created saved)) ->
  exists videoId r,
    sv_videoId body = Some videoId /\ videoId <> []
    /\ find (fun s => jeqb (s_videoUrl s) (orElse (sv_sourceUrl body) (watchUrl videoId))
                      && jeqb (s_userId s) uid) (summaries db1) = Some r
    /\ s_id r = i /\ s_createdAt r = created.
Proof.
  unfold V2.save, ok, fail.
  destruct (sv_videoId body) as [[|v videoId]|]; try discriminate.
  destruct (sv_title body) as [[|t0 t]|]; try discriminate.
  destruct (sv_fullSummary body) as [[|p0 prose]|]; try discriminate.
  cbv zeta. unfold findFirst. destruct (findFirstThrows e); [discriminate|].
  destruct (find _ (summaries db)) as [ex|] eqn:F.
  - intros H. injection H as <- <- <- _.
    exists (v :: videoId), ex. repeat split; auto. discriminate.
  - destruct (sv_keyPoints body) as [kps|]; [|discriminate].
    destruct (summaryCreate _ _ _ _ _ _ _ db) as [[db' row]|] eqn:SC; [|discriminate].
    intros H. injection H as <- <- <- _.
    apply summaryCreate_ok in SC as ((rt0 & rv0 & _ & _ & Hrow) & -> & _).
    exists (v :: videoId), row. repeat split; auto; [discriminate|].
    simpl summaries. apply find_app_last; [exact F|].
    rewrite Hrow. cbn [s_videoUrl s_userId]. now rewrite !jeqb_refl.
Qed.

(** In the second revision, once a save for a video has succeeded, a
    generate request by the same account for the same video (same [videoId] and
    [url] fields) is answered from the stored record, marked [alreadySaved],
    with the id and time the save returned, and the store, credits included,
    is unchanged. *)
Theorem v2_generate_after_save
    (g : jsstr -> option Metadata -> Structured) (e e' : Env) (uid : jsstr)
    (body : SaveBody) (db db1 : DB) (i : jsstr) (created : Z) (saved : option bool)
    (md : Metadata) (transcript : jsstr) :
  V2.save e uid body db = (db1, ok (Saved i created saved)) ->
  md_videoId md = sv_videoId body -> md_url md = sv_sourceUrl body ->
  uid <> [] -> transcript <> [] -> findFirstThrows e' = false ->
  exists r,
    In r (summaries db1) /\ s_userId r = uid
    /\ V2.generate g e' (Some uid) (mkGenerateBody (Some transcript) (Some md)) db1
       = (db1,
          ok (Existing
                (decodeExisting (orElse (md_title md) (js "Video Summary")) (s_summary r))
                (s_videoUrl r) i created (Some true))).
Proof.
  intros Hsave Ev Eu Hu Ht He'.
  destruct (v2_save_leaves_record _ _ _ _ Hsave)
    as (videoId & r & Hv & Hne & F & <- & <-).
  exists r. pose proof (find_some _ _ F) as [Hin Hp].
  apply andb_true_iff in Hp as [_ Hown]. apply jeqb_eq in Hown.
  split; [exact Hin|]. split; [exact Hown|].
  destruct uid as [|u0 uid]; [contradiction|].
  destruct transcript as [|c transcript]; [contradiction|].
  destruct videoId as [|v videoId]; [contradiction|].
  unfold V2.generate. simpl content. simpl metadata. cbv iota beta.
  rewrite Ev, Hv, Eu. cbv zeta. unfold findFirst. rewrite He', F. reflexivity.
Qed.

Lemma v2_generate_after_save_witness :
  exists r,
    In r (summaries (fst (V2.save (calm (js "s-new") 9) alice saveTalk
                            (mkDB [account alice 10] []))))
    /\ s_userId r = alice
    /\ V2.generate Heuristic.generateSummary (calm [] 0) (Some alice) talk
         (fst (V2.save (calm (js "s-new") 9) alice saveTalk (mkDB [account alice 10] [])))
       = (fst (V2.save (calm (js "s-new") 9) alice saveTalk (mkDB [account alice 10] [])),
          ok (Existing
                (decodeExisting (orElse (md_title talkMeta) (js "Video Summary"))
                   (s_summary r))
                (s_videoUrl r) (js "s-new") 9 (Some true))).
Proof.
  apply (@v2_generate_after_save Heuristic.generateSummary (calm (js "s-new") 9)
           (calm [] 0) alice saveTalk (mkDB [account alice 10] []) _ (js "s-new") 9
           (Some true) talkMeta
           (js "The speaker explains how compilers are verified step by step."));
    reflexivity || discriminate.
Defined.

(** In the second revision, a generate call that answers with a new
    summary while the update call works was made with a positive balance,
    lowers the caller's balance by exactly one, reports the balance that is
    then stored, and stores no record. *)
Theorem v2_generate_debits_one
    (g : jsstr -> option Metadata -> Structured) (e : Env) (uid : jsstr)
    (body : GenerateBody) (db db' : DB) (s : Structured) (url : jsstr) (cr : Z) :
  updateThrows e = false ->
  V2.generate g e (Some uid) body db
  = (db', ok (Generated s None url None (Some false) cr)) ->
  exists c,
    creditsOf uid db = Some c /\ 0 < c /\ cr = c - 1
    /\ creditsOf uid db' = Some cr /\ summaries db' = summaries db.
Proof.
  intros Hup. unfold V2.generate, ok, fail.
  destruct uid as [|u0 uid]; [discriminate|].
  destruct (content body) as [[|c0 tr]|]; try discriminate.
  destruct (metadata body) as [md|]; try discriminate.
  destruct (md_videoId md) as [[|v vid]|]; try discriminate.
  cbv zeta.
  destruct (findFirst e _ db) as [[ex|]|]; try discriminate.
  all: unfold findUnique; destruct (findUniqueThrows e); [discriminate|].
  all: destruct (find (hasId (u0 :: uid)) (users db)) as [u|] eqn:F; [|discriminate].
  all: destruct (Z.leb_spec (u_credits u) 0) as [|Hpos]; [discriminate|].
  all: destruct (fullSummary (g (c0 :: tr) (Some md))); [discriminate|].
  all: intros H; injection H as <- _ _ <-.
  all: assert (D : decrementCredits e (u0 :: uid) db
                   = Some (mkDB (map (debit (u0 :: uid)) (users db)) (summaries db)))
         by (unfold decrementCredits; rewrite Hup, F;
             destruct (Z.ltb_spec (u_credits u - 1) int4Min) as [Hlow|];
             [unfold int4Min in Hlow; lia | reflexivity]).
  all: rewrite D; destruct (decrementCredits_ok _ _ _ D) as (_ & c & Hc & Hc1).
  all: exists c; unfold creditsOf in Hc; rewrite F in Hc; injection Hc as <-.
  all: replace (Z.max 0 (u_credits u - 1)) with (u_credits u - 1) by lia.
  all: repeat split; auto; unfold creditsOf; now rewrite F.
Qed.

Lemma v2_generate_debits_one_witness :
  exists c,
    creditsOf alice (mkDB [account alice 10] []) = Some c /\ 0 < c /\ 9 = c - 1
    /\ creditsOf alice
         (fst (V2.generate Heuristic.generateSummary (calm (js "s-new") 9) (Some alice)
                 talk (mkDB [account alice 10] []))) = Some 9
    /\ summaries
         (fst (V2.generate Heuristic.generateSummary (calm (js "s-new") 9) (Some alice)
                 talk (mkDB [account alice 10] [])))
       = summaries (mkDB [account alice 10] []).
Proof.
  apply (@v2_generate_debits_one Heuristic.generateSummary (calm (js "s-new") 9) alice
           talk (mkDB [account alice 10] []) _
           (Heuristic.generateSummary
              (js "The speaker explains how compilers are verified step by step.")
              (Some talkMeta))
           talkUrl 9);
    reflexivity.
Defined.

End CreditProps.

(* ================================================================== *)
(** ** What generate leaves alone, and what the adapters guarantee *)
(* ================================================================== *)

Module GenerateProps.

Import JS JSMore Model Codec Adapter Store Http Props Reads Reply.
Import JSFacts StoreFacts DecodeProps AdapterFacts FlowClaims PersistClaims.
Import Samples MoreSamples.
Local Open Scope Z_scope.

(** The store after the generate route of the first revision. *)
Lemma v1_generate_store (g : jsstr -> option Metadata -> Structured) (e : Env)
    (user : option jsstr) (body : GenerateBody) (db : DB) :
  fst (V1.generate g e user body db) = db
  \/ exists uid row,
       user = Some uid
       /\ fst (V1.generate g e user body db)
          = mkDB (map (debit uid) (users db)) (summaries db ++ [row]).
Proof.
  unfold V1.generate.
  destruct user as [[|u0 uid]|]; try (now left).
  destruct (content body) as [[|c tr]|]; try (now left).
  destruct (metadata body) as [md|]; try (now left).
  destruct (md_videoId md) as [[|v vid]|]; try (now left).
  cbv zeta.
  destruct (findFirst e _ db) as [[ex|]|]; try (now left).
  all: destruct (findUnique e (u0 :: uid) db) as [[u|]|]; try (now left).
  all: match goal with
       | |- context [V1.generateAndStore ?g0 ?e0 ?i0 ?u1 ?t0 ?m0 ?c0 ?d0] =>
           destruct (generateAndStore_atomic g0 e0 i0 u1 t0 m0 c0 d0)
             as [H | (row & _ & H & _)]
       end.
  all: try (now left).
  all: right; exists (u0 :: uid), row; auto.
Qed.

Lemma debit_other (uid : jsstr) (u : User) : u_id (debit uid u) = u_id u.
Proof. unfold debit. now destruct (hasId uid u). Qed.

Lemma creditsOf_debit_other (uid other : jsstr) (db d : DB) :
  uid <> other -> users d = map (debit uid) (users db) ->
  creditsOf other d = creditsOf other db.
Proof.
  intros Hneq Hd. unfold creditsOf. rewrite Hd. clear Hd.
  induction (users db) as [|u us IH]; simpl; [reflexivity|].
  unfold hasId at 1 3. rewrite debit_other.
  destruct (jeqb (u_id u) other) eqn:J; [|exact IH].
  simpl. unfold debit, hasId. apply jeqb_eq in J. rewrite J.
  rewrite (jeqb_neq (fun E => Hneq (eq_sym E))). reflexivity.
Qed.

(** A generate request, in either revision and whatever fails, never
    changes the balance of an account other than the caller's and never removes
    or alters a stored record. *)
Theorem generate_leaves_others (g : jsstr -> option Metadata -> Structured)
    (e : Env) (user : option jsstr) (body : GenerateBody) (db : DB) (other : jsstr) :
  user <> Some other ->
  creditsOf other (fst (V1.generate g e user body db)) = creditsOf other db
  /\ creditsOf other (fst (V2.generate g e user body db)) = creditsOf other db
  /\ (forall x, In x (summaries db) ->
                In x (summaries (fst (V1.generate g e user body db))))
  /\ summaries (fst (V2.generate g e user body db)) = summaries db.
Proof.
  intros Hother.
  destruct (v2_generate_writes g e user body db) as [S2 U2].
  split; [|split; [|split]].
  - destruct (v1_generate_store g e user body db) as [-> | (uid & row & Hu & ->)];
      [reflexivity|].
    apply (@creditsOf_debit_other uid); [congruence|reflexivity].
  - destruct U2 as [U2 | (uid & Hu & U2)].
    + unfold creditsOf. now rewrite U2.
    + apply (@creditsOf_debit_other uid); [congruence|exact U2].
  - intros x Hx.
    destruct (v1_generate_store g e user body db) as [-> | (uid & row & Hu & ->)];
      [exact Hx|].
    simpl. apply in_or_app. now left.
  - exact S2.
Qed.

Lemma generate_leaves_others_witness :
  creditsOf bob
    (fst (V1.generate Heuristic.generateSummary (calm (js "s-new") 9) (Some alice) talk
            (mkDB [account alice 10; account bob 4] [])))
  = Some 4.
Proof.
  assert (H : Some alice <> Some bob) by discriminate.
  destruct (@generate_leaves_others Heuristic.generateSummary (calm (js "s-new") 9)
              (Some alice) talk (mkDB [account alice 10; account bob 4] []) bob H)
    as (H1 & _).
  rewrite H1. reflexivity.
Defined.

(** *** The adapters *)

Lemma heuristic_fullSummary (t : jsstr) (md : option Metadata) :
  fullSummary (Heuristic.generateSummary t md) <> [].
Proof. discriminate. Qed.

Lemma reply_fullSummary (complete : jsstr -> jsstr -> option jsstr)
    (t : jsstr) (md : option Metadata) :
  fullSummary (Reply.generateSummary complete t md) <> [].
Proof.
  unfold Reply.generateSummary, OpenAI.generateSummary, tryCatch, remoteOf.
  destruct (List.length t <? 100)%nat; [discriminate|].
  destruct (complete (titleOf md) t) as [[|c text]|]; try discriminate.
  unfold parseReply.
  destruct (if includes summaryLit (c :: text) && includes pointsLit (c :: text)
            then readMarked (c :: text) else readLoose (c :: text)) as [found points].
  discriminate.
Qed.

Lemma never_generation_failure (g : jsstr -> option Metadata -> Structured)
    (e : Env) (user : option jsstr) (body : GenerateBody) (db : DB) :
  (forall t md, fullSummary (g t md) <> []) ->
  snd (V1.generate g e user body db) <> fail 500 "Failed to generate summary"
  /\ snd (V2.generate g e user body db) <> fail 500 "Failed to generate summary".
Proof.
  intros Hg. unfold V1.generate, V2.generate, V1.generateAndStore, ok, fail.
  destruct user as [[|u0 uid]|]; try (split; discriminate).
  destruct (content body) as [[|c tr]|]; try (split; discriminate).
  destruct (metadata body) as [md|]; try (split; discriminate).
  destruct (md_videoId md) as [[|v vid]|]; try (split; discriminate).
  cbv zeta. specialize (Hg (c :: tr) (Some md)).
  destruct (fullSummary (g (c :: tr) (Some md))) as [|f0 f]; [contradiction|].
  split.
  - destruct (findFirst e _ db) as [[ex|]|]; try discriminate.
    all: destruct (findUnique e (u0 :: uid) db) as [[u|]|]; try discriminate.
    all: destruct (transaction _ db) as [[d r]|]; discriminate.
  - destruct (findFirst e _ db) as [[ex|]|]; try discriminate.
    all: destruct (findUnique e (u0 :: uid) db) as [[u|]|]; try discriminate.
    all: destruct (u_credits u <=? 0); discriminate.
Qed.

(** Both adapters always return a non-empty [fullSummary], whatever the
    transcript, the metadata and the provider's answer; so with either of them
    the generate route, in either revision, never answers 500 "Failed to
    generate summary". *)
Theorem generation_never_fails (complete : jsstr -> jsstr -> option jsstr)
    (e : Env) (user : option jsstr) (body : GenerateBody) (db : DB) :
  (forall t md, fullSummary (Heuristic.generateSummary t md) <> []
                /\ fullSummary (Reply.generateSummary complete t md) <> [])
  /\ snd (V1.generate Heuristic.generateSummary e user body db)
     <> fail 500 "Failed to generate summary"
  /\ snd (V2.generate Heuristic.generateSummary e user body db)
     <> fail 500 "Failed to generate summary"
  /\ snd (V1.generate (Reply.generateSummary complete) e user body db)
     <> fail 500 "Failed to generate summary"
  /\ snd (V2.generate (Reply.generateSummary complete) e user body db)
     <> fail 500 "Failed to generate summary".
Proof.
  split; [intros t md; split; [apply heuristic_fullSummary|apply reply_fullSummary]|].
  destruct (@never_generation_failure Heuristic.generateSummary e user body db
              heuristic_fullSummary) as [H1 H2].
  destruct (@never_generation_failure (Reply.generateSummary complete) e user body db
              (reply_fullSummary complete)) as [H3 H4].
  auto.
Qed.

End GenerateProps.

(* ================================================================== *)
(** ** The key points of the local heuristic *)
(* ================================================================== *)

Module HeuristicProps.

Import JS JSMore Model Adapter Props.
Import JSFacts DecodeProps AdapterFacts Samples MoreSamples.
Local Open Scope nat_scope.

Lemma filteri_in (f : jsstr -> nat -> bool) (i : nat) (l : list jsstr) (x : jsstr) :
  In x (filteri f i l) -> In x l.
Proof.
  revert i. induction l as [|y l IH]; intros i; simpl; [tauto|].
  destruct (f y i); simpl; intros H.
  - destruct H as [-> | H]; [now left|right; eauto].
  - right; eauto.
Qed.

Lemma filteri_length (f : jsstr -> nat -> bool) (i : nat) (l : list jsstr) :
  List.length (filteri f i l) <= List.length l.
Proof.
  revert i. induction l as [|y l IH]; intros i; simpl; [lia|].
  specialize (IH (S i)). destruct (f y i); simpl; lia.
Qed.

Lemma mapi_length (f : jsstr -> nat -> jsstr) (i : nat) (l : list jsstr) :
  List.length (mapi f i l) = List.length l.
Proof.
  revert i. induction l as [|y l IH]; intros i; simpl; [reflexivity|].
  now rewrite IH.
Qed.

Lemma firstn_in (n : nat) (l : list jsstr) (x : jsstr) :
  In x (firstn n l) -> In x l.
Proof.
  revert l. induction n as [|n IH]; intros [|y l]; simpl; try tauto.
  intros [-> | H]; [now left|right; auto].
Qed.

(** An element of a prefix is first met inside the prefix. *)
Lemma indexOf_prefix (pre rest : list jsstr) (x : jsstr) :
  In x pre -> exists j, indexOf (pre ++ rest) x = Some j /\ j < List.length pre.
Proof.
  induction pre as [|y pre IH]; simpl; [contradiction|].
  intros Hin. destruct (jeqb y x) eqn:J.
  - exists 0. split; [reflexivity|lia].
  - destruct Hin as [-> | Hin]; [now rewrite jeqb_refl in J|].
    destruct (IH Hin) as (j & -> & Hj). exists (S j). split; [reflexivity|lia].
Qed.

Lemma first_occurrences (arr pre l : list jsstr) :
  arr = pre ++ l ->
  let f := fun s i => match indexOf arr s with
                      | Some j => Nat.eqb j i
                      | None => false
                      end in
  NoDup (filteri f (List.length pre) l)
  /\ forall x, In x (filteri f (List.length pre) l) -> ~ In x pre.
Proof.
  intros Harr f. revert pre Harr.
  induction l as [|x l IH]; intros pre Harr; simpl.
  - split; [constructor|tauto].
  - assert (Harr' : arr = (pre ++ [x]) ++ l) by (now rewrite <- app_assoc).
    destruct (IH (pre ++ [x]) Harr') as [Hnd Hout].
    rewrite length_app in Hnd, Hout. simpl in Hnd, Hout.
    replace (List.length pre + 1) with (S (List.length pre)) in Hnd, Hout by lia.
    assert (Hpre : forall y, In y (filteri f (S (List.length pre)) l) -> ~ In y pre).
    { intros y Hy Hin. apply (Hout y Hy). apply in_or_app. now left. }
    destruct (f x (List.length pre)) eqn:Fx; [|split; assumption].
    split.
    + constructor; [|exact Hnd].
      intros Hin. apply (Hout x Hin). apply in_or_app. right. now left.
    + intros y [<- | Hy]; [|now apply Hpre].
      intros Hin. unfold f in Fx.
      destruct (@indexOf_prefix pre (x :: l) x Hin) as (j & Hj & Hlt).
      rewrite <- Harr in Hj. rewrite Hj in Fx.
      apply Nat.eqb_eq in Fx. lia.
Qed.

Lemma dedupe_NoDup (arr : list jsstr) : NoDup (dedupe arr).
Proof. exact (proj1 (@first_occurrences arr [] arr eq_refl)). Qed.

(** Whatever the transcript, the key points of the local heuristic are at
    most five, pairwise different, have no white space at either end and are
    each longer than 20 characters; the fallback of the OpenAI-backed adapter
    returns at most eight. *)
Theorem heuristic_points (t : jsstr) (md : option Metadata) :
  List.length (keyPoints (Heuristic.generateSummary t md)) <= 5
  /\ NoDup (keyPoints (Heuristic.generateSummary t md))
  /\ (forall p, In p (keyPoints (Heuristic.generateSummary t md)) ->
                trimmed p = true /\ 20 < List.length p)
  /\ List.length (keyPoints (OpenAI.fallback (titleOf md) t)) <= 8.
Proof.
  unfold Heuristic.generateSummary, OpenAI.fallback, tryCatch. simpl keyPoints.
  rewrite !orEmpty_id, mapi_length. unfold takeKeyPoints.
  assert (L : forall n, List.length
                          (dedupe (map trim (firstn (Nat.min n (List.length (sentencesOf t)))
                                               (sentencesOf t)))) <= n).
  { intros n. unfold dedupe.
    eapply Nat.le_trans; [apply filteri_length|].
    rewrite length_map.
    eapply Nat.le_trans; [apply firstn_le_length|]. lia. }
  split; [apply L|]. split; [apply dedupe_NoDup|]. split; [|apply L].
  intros p Hp. unfold dedupe in Hp. apply filteri_in in Hp.
  apply in_map_iff in Hp as (s & <- & Hs). apply firstn_in in Hs.
  unfold sentencesOf in Hs. apply filter_In in Hs as [_ Hlen].
  apply Nat.ltb_lt in Hlen. split; [apply trimmed_trim|exact Hlen].
Qed.

End HeuristicProps.

(* ================================================================== *)
(** ** Requests that are refused before anything is read *)
(* ================================================================== *)

Module ValidationProps.

Import JS JSMore Model Codec Adapter Store Http Props Samples MoreSamples.
Local Open Scope Z_scope.

(** In both revisions the generate route refuses, in this order and
    without touching the store, a request without a user id (401), without a
    transcript (400) and without metadata or video id (400); the save route
    refuses with 400 a request that lacks the video id, the title or the full
    summary. *)
Theorem incomplete_requests_refused
    (g : jsstr -> option Metadata -> Structured) (e : Env) (db : DB) :
  (forall user body, truthy user = false ->
     V1.generate g e user body db = (db, fail 401 "User not authenticated")
     /\ V2.generate g e user body db = (db, fail 401 "User not authenticated"))
  /\ (forall user body, truthy user = true -> truthy (content body) = false ->
     V1.generate g e user body db = (db, fail 400 "Content (transcript) is required")
     /\ V2.generate g e user body db = (db, fail 400 "Content (transcript) is required"))
  /\ (forall user body, truthy user = true -> truthy (content body) = true ->
     match metadata body with
     | Some md => truthy (md_videoId md) = false
     | None => True
     end ->
     V1.generate g e user body db
     = (db, fail 400 "Video metadata with videoId is required")
     /\ V2.generate g e user body db
        = (db, fail 400 "Video metadata with videoId is required"))
  /\ (forall uid body,
     truthy (sv_videoId body) && truthy (sv_title body) && truthy (sv_fullSummary body)
     = false ->
     V1.save e uid body db = (db, fail 400 "Missing required fields")
     /\ V2.save e uid body db = (db, fail 400 "Missing required fields")).
Proof.
  split; [|split; [|split]].
  - intros user body Hu. unfold V1.generate, V2.generate.
    destruct user as [[|u0 u]|]; try discriminate; split; reflexivity.
  - intros user body Hu Hc. unfold V1.generate, V2.generate.
    destruct user as [[|u0 u]|]; try discriminate.
    destruct (content body) as [[|c0 c]|]; try discriminate; split; reflexivity.
  - intros user body Hu Hc Hm. unfold V1.generate, V2.generate.
    destruct user as [[|u0 u]|]; try discriminate.
    destruct (content body) as [[|c0 c]|]; try discriminate.
    destruct (metadata body) as [md|]; [|split; reflexivity].
    destruct (md_videoId md) as [[|v0 v]|]; try discriminate; split; reflexivity.
  - intros uid body H. unfold V1.save, V2.save.
    destruct (sv_videoId body) as [[|v0 v]|]; try (split; reflexivity);
      destruct (sv_title body) as [[|t0 t]|]; try (split; reflexivity);
      destruct (sv_fullSummary body) as [[|p0 p]|]; try (split; reflexivity);
      discriminate.
Qed.

Lemma incomplete_requests_refused_witness :
  V2.generate Heuristic.generateSummary (calm [] 0) (Some alice)
    (mkGenerateBody (Some []) (Some talkMeta)) sharedDb
  = (sharedDb, fail 400 "Content (transcript) is required").
Proof.
  destruct (incomplete_requests_refused Heuristic.generateSummary (calm [] 0) sharedDb)
    as (_ & H & _).
  apply H; reflexivity.
Defined.

End ValidationProps.

(* ================================================================== *)
(** ** Reading a reply in the prompted format *)
(* ================================================================== *)

Module ReplyProps.

Import JS JSMore Model Codec Adapter Props Reply ReplyShape.
Import JSFacts CodecFacts DecodeProps Samples MoreSamples.
Local Open Scope N_scope.

Lemma occurs_here (eqc : N -> N -> bool) (lit x r : jsstr) :
  matchLit eqc lit x = Some r -> occurs eqc lit x = true.
Proof. intros H. destruct x; simpl; now rewrite H. Qed.

Lemma occurs_skip (eqc : N -> N -> bool) (lit pre x : jsstr) :
  occurs eqc lit x = true -> occurs eqc lit (pre ++ x) = true.
Proof.
  intros H. induction pre as [|c pre IH]; [exact H|].
  simpl. now destruct (matchLit eqc lit (c :: pre ++ x)).
Qed.

(** Text without the literal, followed by nothing or by a character that
    is not in the literal, adds no occurrence. *)
Lemma occurs_app_foreign (lit a b : jsstr) :
  occurs N.eqb lit a = false ->
  (b = [] \/ exists d x, b = d :: x /\ forall l, In l lit -> (d =? l) = false) ->
  occurs N.eqb lit (a ++ b) = occurs N.eqb lit b.
Proof.
  intros Ha Hb. induction a as [|c a IH]; [reflexivity|].
  simpl in Ha. destruct (matchLit N.eqb lit (c :: a)) eqn:M; [discriminate|].
  assert (M' : matchLit N.eqb lit ((c :: a) ++ b) = None).
  { destruct Hb as [-> | (d & x & -> & Hd)].
    - now rewrite app_nil_r.
    - now apply matchLit_app_none. }
  change ((c :: a) ++ b) with (c :: (a ++ b)) in *. simpl.
  rewrite M'. now apply IH.
Qed.

Lemma points_not_newline : forall l, In l pointsLit -> (10 =? l) = false.
Proof.
  intros l Hin. simpl in Hin.
  repeat (destruct Hin as [<- | Hin]; [reflexivity|]). contradiction.
Qed.

Lemma neatBullet_inv (p : jsstr) :
  neatBullet p = true ->
  p <> [] /\ trimmed p = true /\ forallb (fun c => negb (c =? 10)) p = true
  /\ occurs N.eqb pointsLit p = false.
Proof.
  unfold neatBullet, includes. intros H.
  apply andb_true_iff in H as [H Ho]. apply andb_true_iff in H as [H Hn].
  apply andb_true_iff in H as [He Ht]. apply negb_true_iff in Ho.
  repeat split; auto. intros ->. discriminate.
Qed.

Lemma block_without_marker (pts : list jsstr) :
  forallb neatBullet pts = true -> occurs N.eqb pointsLit (bulletBlock pts) = false.
Proof.
  induction pts as [|p pts IH]; [reflexivity|].
  simpl forallb. intros H. apply andb_true_iff in H as [Hp Hpts].
  destruct (neatBullet_inv _ Hp) as (_ & _ & _ & Ho).
  change (bulletBlock (p :: pts)) with (10 :: 45 :: 32 :: (p ++ bulletBlock pts)).
  change (occurs N.eqb pointsLit (10 :: 45 :: 32 :: (p ++ bulletBlock pts)))
    with (occurs N.eqb pointsLit (p ++ bulletBlock pts)).
  rewrite occurs_app_foreign; auto.
  destruct pts as [|q pts]; [now left|].
  right. exists 10, (dashSpace ++ q ++ bulletBlock pts).
  split; [reflexivity|apply points_not_newline].
Qed.

(** *** [split("KEY POINTS:")] *)

Lemma splitStr_skip (sep a rest : jsstr) :
  splitStr sep (List.length a) (a ++ rest) = splitStr sep O rest.
Proof.
  induction a as [|c a IH]; [reflexivity|].
  simpl. exact IH.
Qed.

Lemma splitStr_none (sep s : jsstr) :
  occurs N.eqb sep s = false -> splitStr sep O s = [s].
Proof.
  induction s as [|c s IH]; [reflexivity|].
  simpl. destruct (matchLit N.eqb sep (c :: s)); [discriminate|].
  intros H. now rewrite (IH H).
Qed.

Lemma matchLit_self (lit r : jsstr) : matchLit N.eqb lit (lit ++ r) = Some r.
Proof.
  induction lit as [|l lit IH]; [reflexivity|].
  simpl. now rewrite N.eqb_refl.
Qed.

Lemma splitStr_app (c : N) (sep pre rest : jsstr) :
  failsInside (matchLit N.eqb (c :: sep)) pre ((c :: sep) ++ rest) ->
  splitStr (c :: sep) O (pre ++ (c :: sep) ++ rest)
  = pre :: splitStr (c :: sep) O rest.
Proof.
  induction pre as [|x pre IH].
  - intros _. rewrite app_nil_l.
    change ((c :: sep) ++ rest) with (c :: (sep ++ rest)).
    cbn [splitStr].
    change (c :: (sep ++ rest)) with ((c :: sep) ++ rest).
    rewrite matchLit_self. cbn [List.length Nat.pred].
    now rewrite splitStr_skip.
  - intros [Hhere Hf].
    change ((x :: pre) ++ (c :: sep) ++ rest) with (x :: (pre ++ (c :: sep) ++ rest)) in *.
    cbn [splitStr]. rewrite Hhere, (IH Hf). reflexivity.
Qed.

Lemma splitStr_at (sep pre rest : jsstr) :
  sep <> [] ->
  failsInside (matchLit N.eqb sep) pre (sep ++ rest) ->
  splitStr sep O (pre ++ sep ++ rest) = pre :: splitStr sep O rest.
Proof.
  destruct sep as [|c sep]; [contradiction|].
  intros _. apply splitStr_app.
Qed.

(** *** [split(/\n-\s*/)] *)

Lemma plain_run (q x h : jsstr) (t : list jsstr) :
  forallb (fun c => negb (c =? 10)) q = true ->
  splitBullets Plain x = h :: t ->
  splitBullets Plain (q ++ x) = (q ++ h) :: t.
Proof.
  intros Hq Hx. induction q as [|c q IH]; [exact Hx|].
  simpl in Hq. apply andb_true_iff in Hq as [Hc Hq]. apply negb_true_iff in Hc.
  change ((c :: q) ++ x) with (c :: (q ++ x)). cbn [splitBullets].
  rewrite Hc, (IH Hq). reflexivity.
Qed.

Lemma space_not_newline (c : N) : isSpace c = false -> (c =? 10) = false.
Proof.
  intros H. destruct (N.eqb_spec c 10) as [->|]; [discriminate|reflexivity].
Qed.

Lemma bullets_split (pts : list jsstr) :
  forallb neatBullet pts = true ->
  splitBullets Plain (bulletBlock pts) = [] :: pts.
Proof.
  induction pts as [|p pts IH]; [reflexivity|].
  simpl forallb. intros H. apply andb_true_iff in H as [Hp Hpts].
  destruct (neatBullet_inv _ Hp) as (Hne & Ht & Hn & _).
  destruct p as [|c p]; [contradiction|].
  unfold trimmed in Ht. apply andb_true_iff in Ht as [Hh _].
  simpl in Hh. apply negb_true_iff in Hh.
  simpl in Hn. apply andb_true_iff in Hn as [_ Hn].
  change (bulletBlock ((c :: p) :: pts))
    with (10 :: 45 :: 32 :: c :: (p ++ bulletBlock pts)).
  cbn [splitBullets hyphenNext N.eqb Pos.eqb andb].
  change (isSpace 32) with true. cbv iota.
  rewrite Hh, (space_not_newline _ Hh). simpl andb. cbv iota.
  rewrite (@plain_run p (bulletBlock pts) [] pts Hn (IH Hpts)).
  now rewrite app_nil_r.
Qed.

(** *** The whole reply *)

Lemma marker_fails_in_head (s rest : jsstr) :
  occurs N.eqb pointsLit s = false ->
  failsInside (matchLit N.eqb pointsLit) ((10 :: s) ++ [10; 10]) (pointsLit ++ rest).
Proof.
  intros Hs. apply failsInside_app.
  - split; [reflexivity|].
    apply (@failsInside_occurs _ N.eqb pointsLit); auto.
    apply points_not_newline.
  - simpl. auto.
Qed.

Lemma trim_summary_block (s : jsstr) :
  s <> [] -> trimmed s = true -> trim ((10 :: s) ++ [10; 10]) = s.
Proof.
  intros Hne Ht. pose proof Ht as Ht'.
  unfold trimmed in Ht. apply andb_true_iff in Ht as [Hh Hl].
  destruct s as [|c s]; [contradiction|].
  assert (Hc : isSpace c = false) by (now apply negb_true_iff in Hh).
  unfold trim. change (trimStart ((10 :: c :: s) ++ [10; 10]))
    with (trimStart ((c :: s) ++ [10; 10])).
  simpl trimStart. rewrite Hc.
  replace (c :: s ++ [10; 10]) with (((c :: s) ++ [10]) ++ [10])
    by (rewrite <- app_assoc; reflexivity).
  rewrite !trimEnd_drop by reflexivity. now apply trimEnd_id.
Qed.

Lemma readMarked_prompted (s : jsstr) (pts : list jsstr) :
  s <> [] -> trimmed s = true -> includes pointsLit s = false ->
  pts <> [] -> forallb neatBullet pts = true -> plainStart pts = true ->
  readMarked (promptedReply s pts) = (s, pts).
Proof.
  intros Hne Ht Hs Hpts Hk Hstart. unfold includes in Hs.
  unfold readMarked, promptedReply.
  (* the summary between the markers *)
  assert (S1 : summaryMatch (summaryLit ++ 10 :: s ++ 10 :: 10 :: pointsLit ++ bulletBlock pts)
               = Some ((10 :: s) ++ [10; 10])).
  { unfold summaryMatch. apply search_here.
    change (summaryAt (summaryLit ++ 10 :: s ++ 10 :: 10 :: pointsLit ++ bulletBlock pts))
      with (match lazyStar anyChar (matchLit N.eqb pointsLit)
                    (10 :: s ++ 10 :: 10 :: pointsLit ++ bulletBlock pts) with
            | Some (cap, _) => Some cap
            | None => None
            end).
    replace (10 :: s ++ 10 :: 10 :: pointsLit ++ bulletBlock pts)
      with (((10 :: s) ++ [10; 10]) ++ pointsLit ++ bulletBlock pts)
      by (simpl; rewrite <- app_assoc; reflexivity).
    rewrite (@lazyStar_app _ anyChar (matchLit N.eqb pointsLit)
               ((10 :: s) ++ [10; 10]) (pointsLit ++ bulletBlock pts) (bulletBlock pts));
      auto.
    - apply forallb_forall. reflexivity.
    - now apply marker_fails_in_head. }
  rewrite S1. change ((10 :: s) ++ [10; 10]) with (10 :: (s ++ [10; 10])) at 1.
  cbv iota. change (10 :: (s ++ [10; 10])) with ((10 :: s) ++ [10; 10]).
  rewrite (trim_summary_block Hne Ht).
  (* the section after the second marker *)
  assert (S2 : splitStr pointsLit O
                 (summaryLit ++ 10 :: s ++ 10 :: 10 :: pointsLit ++ bulletBlock pts)
               = [summaryLit ++ (10 :: s) ++ [10; 10]; bulletBlock pts]).
  { replace (summaryLit ++ 10 :: s ++ 10 :: 10 :: pointsLit ++ bulletBlock pts)
      with ((summaryLit ++ (10 :: s) ++ [10; 10]) ++ pointsLit ++ bulletBlock pts)
      by (simpl; rewrite <- !app_assoc; reflexivity).
    rewrite splitStr_at.
    - rewrite (@splitStr_none pointsLit (bulletBlock pts) (block_without_marker _ Hk)).
      reflexivity.
    - discriminate.
    - apply failsInside_app.
      + simpl. repeat split; reflexivity.
      + now apply marker_fails_in_head. }
  rewrite S2. cbn [nth_error].
  destruct pts as [|p pts]; [contradiction|].
  change (bulletBlock (p :: pts)) with (10 :: dashSpace ++ p ++ bulletBlock pts) at 1.
  cbv iota. change (10 :: dashSpace ++ p ++ bulletBlock pts) with (bulletBlock (p :: pts)).
  rewrite (bullets_split _ Hk).
  assert (T : forall l, forallb neatBullet l = true ->
                        filter nonEmpty (map trim l) = l).
  { induction l as [|q l IH]; [reflexivity|].
    simpl forallb. intros H. apply andb_true_iff in H as [Hq Hl].
    destruct (neatBullet_inv _ Hq) as (Hqn & Hqt & _).
    simpl. rewrite (trim_id _ Hqt). destruct q; [contradiction|].
    simpl. now rewrite (IH Hl). }
  change (map trim ([] :: p :: pts)) with ([] :: map trim (p :: pts)).
  cbn [filter nonEmpty]. rewrite (T _ Hk).
  simpl forallb in Hk. apply andb_true_iff in Hk as [Hp _].
  destruct (neatBullet_inv _ Hp) as (Hpn & Hpt & _).
  unfold trimmed in Hpt. apply andb_true_iff in Hpt as [Hh _].
  destruct p as [|c p]; [contradiction|].
  simpl in Hh. apply negb_true_iff in Hh.
  unfold stripLead. simpl dropWhile. rewrite Hh.
  destruct (N.eqb_spec c 45) as [->|_]; [discriminate|reflexivity].
Qed.

(** A reply written exactly as the prompt asks parses to its own parts:
    when the provider answers a transcript of 100 characters or more with
    [SUMMARY:], a summary, a blank line, [KEY POINTS:] and one [- ] bullet per
    line, the adapter returns that summary behind the header and those bullets
    with their emoji, in order.  The summary has to be trimmed and free of the
    [KEY POINTS:] marker; each bullet trimmed, on one line and free of the
    marker; the first bullet must not start with a hyphen. *)
Theorem prompted_reply_parses (complete : jsstr -> jsstr -> option jsstr)
    (transcript : jsstr) (md : option Metadata) (s : jsstr) (pts : list jsstr) :
  (100 <= List.length transcript)%nat ->
  complete (titleOf md) transcript = Some (promptedReply s pts) ->
  s <> [] -> trimmed s = true -> includes pointsLit s = false ->
  pts <> [] -> forallb neatBullet pts = true -> plainStart pts = true ->
  Reply.generateSummary complete transcript md
  = mkStructured (titleOf md) (mapi OpenAI.decorate O pts) (OpenAI.summaryHeader ++ s).
Proof.
  intros Hlen Hc Hne Ht Hs Hpts Hk Hstart.
  unfold Reply.generateSummary, OpenAI.generateSummary, tryCatch, remoteOf.
  destruct (Nat.ltb_spec (List.length transcript) 100) as [|_]; [lia|].
  rewrite Hc. unfold promptedReply at 1.
  change (summaryLit ++ 10 :: s ++ 10 :: 10 :: pointsLit ++ bulletBlock pts)
    with (promptedReply s pts) at 1.
  assert (Shape : exists c r, promptedReply s pts = c :: r) by (do 2 eexists; reflexivity).
  destruct Shape as (c & r & Shape). rewrite Shape. rewrite <- Shape.
  unfold parseReply.
  assert (I1 : includes summaryLit (promptedReply s pts) = true) by reflexivity.
  assert (I2 : includes pointsLit (promptedReply s pts) = true).
  { unfold includes, promptedReply.
    replace (summaryLit ++ 10 :: s ++ 10 :: 10 :: pointsLit ++ bulletBlock pts)
      with ((summaryLit ++ (10 :: s) ++ [10; 10]) ++ pointsLit ++ bulletBlock pts)
      by (simpl; rewrite <- !app_assoc; reflexivity).
    apply occurs_skip. apply (@occurs_here _ _ _ (bulletBlock pts)).
    apply matchLit_self. }
  rewrite I1, I2. simpl andb. cbv iota.
  rewrite (readMarked_prompted Hne Ht Hs Hpts Hk Hstart).
  destruct s as [|s0 s]; [contradiction|].
  destruct pts as [|p pts]; [contradiction|].
  reflexivity.
Qed.

Lemma prompted_reply_parses_witness :
  Reply.generateSummary (fun _ _ => Some neatReply) longTranscript None
  = mkStructured (js "Video Summary") (mapi OpenAI.decorate O neatPoints)
      (OpenAI.summaryHeader ++ neatSummary).
Proof.
  apply (@prompted_reply_parses (fun _ _ => Some neatReply) longTranscript None
           neatSummary neatPoints);
    try reflexivity; try discriminate.
  vm_compute. lia.
Defined.

End ReplyProps.

(* ================================================================== *)
(** ** Sessions: signup, signin, refresh and the bearer token *)
(* ================================================================== *)

Module SessionProps.

Import JS JSMore Model Codec Adapter Store Http Auth Props Reads Session.
Import JSFacts StoreFacts SignupClaims Samples MoreSamples.
Local Open Scope Z_scope.

Lemma find_map_same (A : Type) (p : A -> bool) (f : A -> A) (l : list A) :
  (forall x, p (f x) = p x) -> find p (map f l) = option_map f (find p l).
Proof.
  intros Hp. induction l as [|a l IH]; simpl; [reflexivity|].
  rewrite Hp. now destruct (p a).
Qed.

Lemma setLogin_id (tok : jsstr) (t : Z) (id : jsstr) (u : User) :
  u_id (setLogin tok t id u) = u_id u.
Proof. unfold setLogin. now destruct (hasId id u). Qed.

Lemma setLogin_email (tok : jsstr) (t : Z) (id : jsstr) (u : User) :
  u_email (setLogin tok t id u) = u_email u.
Proof. unfold setLogin. now destruct (hasId id u). Qed.

Lemma setLogin_hash (tok : jsstr) (t : Z) (id : jsstr) (u : User) :
  u_passwordHash (setLogin tok t id u) = u_passwordHash u.
Proof. unfold setLogin. now destruct (hasId id u). Qed.

Lemma setLogin_name (tok : jsstr) (t : Z) (id : jsstr) (u : User) :
  u_name (setLogin tok t id u) = u_name u.
Proof. unfold setLogin. now destruct (hasId id u). Qed.

Lemma creditsOf_setLogin (tok : jsstr) (t : Z) (id other : jsstr) (db d : DB) :
  users d = map (setLogin tok t id) (users db) ->
  creditsOf other d = creditsOf other db.
Proof.
  intros Hd. unfold creditsOf. rewrite Hd, find_map_same.
  - destruct (find (hasId other) (users db)); simpl; [|reflexivity].
    now rewrite credits_setLogin.
  - intros x. unfold hasId. now rewrite setLogin_id.
Qed.

(** What a signup that answered 200 did. *)
Lemma signup_done (e : Env) (c : Crypto) (body : SignupBody) (db db1 : DB)
    (token : jsstr) (expiresAt : Z) (user : User) :
  signup e c body db = (db1, ok (SignedUp token expiresAt user)) ->
  exists email password name,
    su_email body = Some email /\ su_password body = Some password
    /\ su_name body = Some name
    /\ user = mkUser (uuid e) email (Some name) (hashPassword c password) 10
               (Some (verificationToken c)) None None
    /\ find (fun u => jeqb (u_email u) email) (users db) = None
    /\ users db1 = map (setLogin (refreshToken c) (now e) (uuid e)) (users db ++ [user])
    /\ summaries db1 = summaries db.
Proof.
  unfold signup, ok, fail.
  destruct (su_email body) as [[|e0 email]|]; try discriminate.
  destruct (su_password body) as [[|p0 password]|]; try discriminate.
  destruct (su_name body) as [[|n0 name]|]; try discriminate.
  unfold findUniqueByEmail. destruct (findUniqueThrows e); [discriminate|].
  destruct (find _ (users db)) as [ex|] eqn:F; [discriminate|].
  destruct (userCreate e _ db) as [[dbc created]|] eqn:UC; [|discriminate].
  destruct (recordLogin e (u_id created) (refreshToken c) dbc) as [db2|] eqn:RL;
    [|discriminate].
  intros H. injection H as <- _ _ <-.
  apply userCreate_ok in UC as (-> & -> & _).
  unfold recordLogin in RL. destruct (updateThrows e); [discriminate|].
  cbn [users summaries u_id] in RL.
  destruct (find (hasId (uuid e)) (users db ++ _)); [|discriminate].
  injection RL as <-.
  exists (e0 :: email), (p0 :: password), (n0 :: name). repeat split; auto.
Qed.

(** After a signup, the lookup by email finds the new account. *)
Lemma signup_then_lookup (e : Env) (c : Crypto) (body : SignupBody) (db db1 : DB)
    (token : jsstr) (expiresAt : Z) (user : User) :
  signup e c body db = (db1, ok (SignedUp token expiresAt user)) ->
  su_email body = Some (u_email user)
  /\ find (fun u => jeqb (u_email u) (u_email user)) (users db1)
     = Some (setLogin (refreshToken c) (now e) (u_id user) user)
  /\ u_credits user = 10.
Proof.
  intros H. destruct (signup_done _ _ _ _ H)
    as (email & password & name & Ee & Ep & En & Hu & F & Hdb & _).
  assert (Em : u_email user = email) by (rewrite Hu; reflexivity).
  assert (Ei : u_id user = uuid e) by (rewrite Hu; reflexivity).
  rewrite Em, Ei. split; [exact Ee|]. split; [|now rewrite Hu].
  rewrite Hdb, find_map_same.
  - rewrite (find_app_last _ _ _ F); [reflexivity|].
    rewrite Em. apply jeqb_refl.
  - intros x. now rewrite setLogin_email.
Qed.

(** An account that has just signed up can sign in: with the email and
    password of a signup that answered 200, and a stored hash that is not
    empty and that the comparison accepts, a later signin -- with tokens of
    its own -- answers 200 with that account's id, name and email, the 10
    starting credits and the access token signed for that id and email. *)
Theorem signin_after_signup (e1 e2 : Env) (c c2 : Crypto) (v : Verifier)
    (body : SignupBody) (db db1 : DB) (token : jsstr) (expiresAt : Z) (user : User)
    (email password : jsstr) :
  signup e1 c body db = (db1, ok (SignedUp token expiresAt user)) ->
  su_email body = Some email -> su_password body = Some password ->
  comparePasswords v password (hashPassword c password) = true ->
  hashPassword c password <> [] ->
  findUniqueThrows e2 = false -> updateThrows e2 = false ->
  exists db2 reply,
    signin e2 c2 v (Some email) (Some password) db1 = (db2, Sent reply)
    /\ r_user reply = mkProfile (u_id user) (u_name user) email 10
    /\ r_token reply = accessToken c2 (u_id user) email
    /\ r_expiresAt reply = now e2 + refreshTokenExpiresIn.
Proof.
  intros H Ee Ep Hcmp Hhash Hfu Hup.
  destruct (signup_then_lookup _ _ _ _ H) as (Ee' & F & Hcr).
  destruct (signup_done _ _ _ _ H)
    as (email' & password' & name & Ee'' & Ep' & En & Hu & _).
  rewrite Ee in Ee'. injection Ee' as Em. rewrite <- Em in F.
  rewrite Ep in Ep'. injection Ep' as <-.
  assert (Eh : u_passwordHash user = hashPassword c password) by (rewrite Hu; reflexivity).
  assert (Hemail : email <> []).
  { intros ->. unfold signup in H. rewrite Ee in H.
    destruct (su_password body) as [[|? ?]|]; destruct (su_name body) as [[|? ?]|];
      discriminate. }
  assert (Hpass : password <> []).
  { intros ->. unfold signup in H. rewrite Ee, Ep in H.
    destruct email; destruct (su_name body) as [[|? ?]|]; discriminate. }
  destruct email as [|e0 email]; [contradiction|].
  destruct password as [|p0 password]; [contradiction|].
  unfold signin, findUniqueByEmail. rewrite Hfu, F.
  rewrite setLogin_hash, Eh.
  destruct (hashPassword c (p0 :: password)) as [|h0 h] eqn:Hh; [contradiction|].
  rewrite Hcmp. unfold recordLogin. rewrite Hup, setLogin_id.
  pose proof (find_some _ _ F) as [Hin _].
  destruct (@find_in _ (hasId (u_id user)) (users db1)
              (setLogin (refreshToken c) (now e1) (u_id user) user) Hin) as [y Hy].
  { unfold hasId. rewrite setLogin_id. apply jeqb_refl. }
  rewrite Hy. do 2 eexists. split; [reflexivity|].
  cbn [r_user r_token r_expiresAt]. unfold profileOf.
  rewrite setLogin_id, setLogin_name, setLogin_email, credits_setLogin, Hcr, <- Em.
  repeat split; reflexivity.
Qed.

Lemma signin_after_signup_witness :
  exists db2 reply,
    signin (calm [] 20) laterCrypto toyVerifier (Some (js "alice@example.org"))
      (Some (js "secret"))
      (fst (signup (calm (js "u-new") 9) toyCrypto signupAlice (mkDB [] [])))
    = (db2, Sent reply)
    /\ r_user reply
       = mkProfile (js "u-new") (Some (js "Alice")) (js "alice@example.org") 10
    /\ r_token reply = accessToken laterCrypto (js "u-new") (js "alice@example.org")
    /\ r_expiresAt reply = 20 + refreshTokenExpiresIn.
Proof.
  apply (@signin_after_signup (calm (js "u-new") 9) (calm [] 20) toyCrypto laterCrypto
           toyVerifier signupAlice (mkDB [] []) _ (js "jwt:u-new")
           (9 + refreshTokenExpiresIn)
           (mkUser (js "u-new") (js "alice@example.org") (Some (js "Alice"))
              (js "h:secret") 10 (Some (js "vt")) None None)
           (js "alice@example.org") (js "secret"));
    reflexivity || discriminate.
Defined.

(** A second signup with the email of a signup that answered 200 is
    refused with 400 "User already exists" and changes nothing. *)
Theorem signup_twice_refused (e1 e2 : Env) (c c2 : Crypto)
    (body body2 : SignupBody) (db db1 : DB) (token : jsstr) (expiresAt : Z)
    (user : User) :
  signup e1 c body db = (db1, ok (SignedUp token expiresAt user)) ->
  su_email body2 = su_email body ->
  truthy (su_password body2) = true -> truthy (su_name body2) = true ->
  findUniqueThrows e2 = false ->
  signup e2 c2 body2 db1 = (db1, fail 400 "User already exists").
Proof.
  intros H Ee Hp Hn Hfu.
  destruct (signup_then_lookup _ _ _ _ H) as (Ee' & F & _).
  assert (Hemail : u_email user <> []).
  { intros E. unfold signup in H. rewrite Ee', E in H.
    destruct (su_password body) as [[|? ?]|]; destruct (su_name body) as [[|? ?]|];
      discriminate. }
  unfold signup. rewrite Ee, Ee'.
  destruct (u_email user) as [|m0 m]; [contradiction|].
  destruct (su_password body2) as [[|p0 p]|]; try discriminate.
  destruct (su_name body2) as [[|n0 n]|]; try discriminate.
  unfold findUniqueByEmail. now rewrite Hfu, F.
Qed.

Lemma signup_twice_refused_witness :
  signup (calm (js "u-2") 20) toyCrypto signupAlice
    (fst (signup (calm (js "u-new") 9) toyCrypto signupAlice (mkDB [] [])))
  = (fst (signup (calm (js "u-new") 9) toyCrypto signupAlice (mkDB [] [])),
     fail 400 "User already exists").
Proof.
  apply (@signup_twice_refused (calm (js "u-new") 9) (calm (js "u-2") 20) toyCrypto
           toyCrypto signupAlice signupAlice (mkDB [] []) _ (js "jwt:u-new")
           (9 + refreshTokenExpiresIn)
           (mkUser (js "u-new") (js "alice@example.org") (Some (js "Alice"))
              (js "h:secret") 10 (Some (js "vt")) None None));
    reflexivity.
Defined.

(** The two ways a signin ends: refused with the store as it was, or
    answered after recording the login. *)
Lemma signin_cases (e : Env) (c : Crypto) (v : Verifier)
    (email password : option jsstr) (db : DB) :
  (exists code error, signin e c v email password db = (db, Refused code error))
  \/ (exists user db' reply,
        findUniqueByEmail e (orElse email []) db = Some (Some user)
        /\ comparePasswords v (orElse password []) (u_passwordHash user) = true
        /\ users db' = map (setLogin (refreshToken c) (now e) (u_id user)) (users db)
        /\ summaries db' = summaries db
        /\ signin e c v email password db = (db', Sent reply)).
Proof.
  unfold signin.
  destruct email as [[|e0 email]|]; [left; eauto| |left; eauto].
  destruct password as [[|p0 password]|]; [left; eauto| |left; eauto].
  cbn [orElse].
  destruct (findUniqueByEmail e (e0 :: email) db) as [[user|]|] eqn:F;
    [|left; eauto..].
  destruct (u_passwordHash user) as [|h0 h] eqn:Hh; [left; eauto|].
  destruct (comparePasswords v (p0 :: password) (h0 :: h)) eqn:Hc; [|left; eauto].
  unfold recordLogin. destruct (updateThrows e); [left; eauto|].
  destruct (find (hasId (u_id user)) (users db)); [|left; eauto].
  right. exists user.
  exists (mkDB (map (setLogin (refreshToken c) (now e) (u_id user)) (users db))
            (summaries db)).
  eexists. rewrite Hh.
  split; [reflexivity|]. split; [exact Hc|]. split; [|split]; reflexivity.
Qed.

(** Signing in never touches a balance or a record, and a refused
    signin leaves the whole store as it was.  The refusals, in the order the
    handler makes them: 400 "Missing required fields" when the email or the
    password is missing or empty; 400 "User not found" when no account has
    the email or the stored hash is empty; 401 "Invalid password" when the
    account is found, its hash is not empty and the comparison rejects the
    password. *)
Theorem signin_keeps_balances (e : Env) (c : Crypto) (v : Verifier)
    (email password : option jsstr) (db : DB) :
  summaries (fst (signin e c v email password db)) = summaries db
  /\ (forall id, creditsOf id (fst (signin e c v email password db)) = creditsOf id db)
  /\ (forall code error,
        snd (signin e c v email password db) = Refused code error ->
        fst (signin e c v email password db) = db)
  /\ (truthy email && truthy password = false ->
      signin e c v email password db = (db, Refused 400 "Missing required fields"))
  /\ (truthy email && truthy password = true ->
      findUniqueByEmail e (orElse email []) db = Some None ->
      signin e c v email password db = (db, Refused 400 "User not found"))
  /\ (forall user,
        truthy email && truthy password = true ->
        findUniqueByEmail e (orElse email []) db = Some (Some user) ->
        (u_passwordHash user = [] ->
         signin e c v email password db = (db, Refused 400 "User not found"))
        /\ (u_passwordHash user <> [] ->
            comparePasswords v (orElse password []) (u_passwordHash user) = false ->
            signin e c v email password db = (db, Refused 401 "Invalid password"))).
Proof.
  pose proof (signin_cases e c v email password db) as Hc.
  split; [|split; [|split; [|split; [|split]]]].
  - destruct Hc as [(code & err & ->)|(user & db' & reply & _ & _ & _ & Hs & ->)];
      auto.
  - intros id.
    destruct Hc as [(code & err & ->)|(user & db' & reply & _ & _ & Hu & _ & ->)];
      [reflexivity|].
    cbn [fst]. exact (creditsOf_setLogin _ _ _ id _ _ Hu).
  - intros code error.
    destruct Hc as [(code' & err & ->)|(user & db' & reply & _ & _ & _ & _ & ->)];
      [reflexivity|discriminate].
  - unfold signin.
    destruct email as [[|e0 email]|]; try reflexivity.
    destruct password as [[|p0 password]|]; try reflexivity. discriminate.
  - unfold signin.
    destruct email as [[|e0 email]|]; try discriminate.
    destruct password as [[|p0 password]|]; try discriminate.
    cbn [orElse]. intros _ F. now rewrite F.
  - intros user. unfold signin.
    destruct email as [[|e0 email]|]; try discriminate.
    destruct password as [[|p0 password]|]; try discriminate.
    cbn [orElse]. intros _ F. rewrite F. split.
    + intros Hh. now rewrite Hh.
    + intros Hh Hf. destruct (u_passwordHash user) as [|h0 h]; [contradiction|].
      now rewrite Hf.
Qed.

Lemma signin_keeps_balances_witness :
  signin (calm [] 20) toyCrypto toyVerifier (Some (js "alice@example.org"))
    (Some (js "guess")) (mkDB [aliceLoggedIn] [])
  = (mkDB [aliceLoggedIn] [], Refused 401 "Invalid password").
Proof.
  apply (proj2 (proj2 (proj2 (proj2 (proj2
           (signin_keeps_balances (calm [] 20) toyCrypto toyVerifier
              (Some (js "alice@example.org")) (Some (js "guess"))
              (mkDB [aliceLoggedIn] []))))))
           aliceLoggedIn eq_refl eq_refl);
    [discriminate|reflexivity].
Defined.

Lemma setRefresh_id (tok id : jsstr) (u : User) : u_id (setRefresh tok id u) = u_id u.
Proof. unfold setRefresh. now destruct (hasId id u). Qed.

Lemma setRefresh_credits (tok id : jsstr) (u : User) :
  u_credits (setRefresh tok id u) = u_credits u.
Proof. unfold setRefresh. now destruct (hasId id u). Qed.

(** What a refresh that answered 200 did. *)
Lemma refresh_done (e : Env) (c : Crypto) (token : option jsstr) (db db1 : DB)
    (reply : SessionReply) :
  refresh e c token db = (db1, Sent reply) ->
  exists presented user,
    token = Some presented /\ presented <> []
    /\ find (holdsToken presented) (users db) = Some user
    /\ db1 = mkDB (map (setRefresh (refreshToken c) (u_id user)) (users db))
               (summaries db)
    /\ reply = mkSessionReply (accessToken c (u_id user) (u_email user))
                 (Some (refreshToken c)) (now e + refreshTokenExpiresIn)
                 (profileOf user).
Proof.
  unfold refresh, findByRefreshToken, rotateToken.
  destruct token as [[|t0 t]|]; try discriminate.
  destruct (findFirstThrows e); [discriminate|].
  destruct (find (holdsToken (t0 :: t)) (users db)) as [user|] eqn:F; [|discriminate].
  destruct (updateThrows e); [discriminate|].
  destruct (find (hasId (u_id user)) (users db)); [|discriminate].
  intros H. injection H as <- <-.
  exists (t0 :: t), user. repeat split; auto. discriminate.
Qed.

(** Refresh tokens rotate: after a refresh that answered 200 and issued
    a different token, the presented token -- held by that account only -- is
    refused with 401 and the store stays as it is; the new token is the one the
    account holds; no balance and no record has changed. *)
Theorem refresh_rotates (e1 e2 : Env) (c c2 : Crypto) (presented : jsstr)
    (db db1 : DB) (reply : SessionReply) :
  refresh e1 c (Some presented) db = (db1, Sent reply) ->
  refreshToken c <> presented ->
  (forall u, In u (users db) -> holdsToken presented u = true ->
             u_id u = p_id (r_user reply)) ->
  findFirstThrows e2 = false ->
  refresh e2 c2 (Some presented) db1 = (db1, Refused 401 "Invalid refresh token")
  /\ (exists u, In u (users db1) /\ u_id u = p_id (r_user reply)
                /\ u_refreshToken u = Some (refreshToken c))
  /\ r_refreshToken reply = Some (refreshToken c)
  /\ summaries db1 = summaries db
  /\ (forall id, creditsOf id db1 = creditsOf id db).
Proof.
  intros H Hnew Hsole Hff.
  destruct (refresh_done _ _ _ _ H) as (p & user & Ep & Hp & F & -> & ->).
  injection Ep as <-. cbn [r_user profileOf p_id r_refreshToken users summaries] in *.
  pose proof (find_some _ _ F) as [Hin Hheld].
  assert (Gone : find (holdsToken presented)
                   (map (setRefresh (refreshToken c) (u_id user)) (users db)) = None).
  { destruct (find _ (map _ _)) as [x|] eqn:Fx; [|reflexivity]. exfalso.
    apply find_some in Fx as [Hx Hhx]. apply in_map_iff in Hx as (u0 & <- & Hu0).
    unfold setRefresh in Hhx. destruct (hasId (u_id user) u0) eqn:Hid.
    - unfold holdsToken in Hhx. cbn [u_refreshToken] in Hhx.
      apply jeqb_eq in Hhx. contradiction.
    - pose proof (Hsole _ Hu0 Hhx) as Eid. unfold hasId in Hid.
      rewrite Eid, jeqb_refl in Hid. discriminate. }
  split.
  { unfold refresh, findByRefreshToken. destruct presented as [|t0 t]; [contradiction|].
    cbn [users]. now rewrite Hff, Gone. }
  split.
  { exists (setRefresh (refreshToken c) (u_id user) user).
    split; [apply in_map; exact Hin|]. rewrite setRefresh_id. split; [reflexivity|].
    unfold setRefresh, hasId. now rewrite jeqb_refl. }
  repeat split; auto.
  intros id. unfold creditsOf. cbn [users]. rewrite find_map_same.
  - destruct (find (hasId id) (users db)); simpl; [|reflexivity].
    now rewrite setRefresh_credits.
  - intros x. unfold hasId. now rewrite setRefresh_id.
Qed.

Lemma refresh_rotates_witness :
  refresh (calm [] 30) toyCrypto (Some (js "rt-old"))
    (fst (refresh (calm [] 20) toyCrypto (Some (js "rt-old")) (mkDB [aliceLoggedIn] [])))
  = (fst (refresh (calm [] 20) toyCrypto (Some (js "rt-old")) (mkDB [aliceLoggedIn] [])),
     Refused 401 "Invalid refresh token")
  /\ (exists u,
        In u (users (fst (refresh (calm [] 20) toyCrypto (Some (js "rt-old"))
                            (mkDB [aliceLoggedIn] []))))
        /\ u_id u = alice /\ u_refreshToken u = Some (js "rt"))
  /\ Some (js "rt") = Some (js "rt")
  /\ summaries (fst (refresh (calm [] 20) toyCrypto (Some (js "rt-old"))
                       (mkDB [aliceLoggedIn] []))) = []
  /\ (forall id,
        creditsOf id (fst (refresh (calm [] 20) toyCrypto (Some (js "rt-old"))
                             (mkDB [aliceLoggedIn] [])))
        = creditsOf id (mkDB [aliceLoggedIn] [])).
Proof.
  apply (@refresh_rotates (calm [] 20) (calm [] 30) toyCrypto toyCrypto (js "rt-old")
           (mkDB [aliceLoggedIn] []) _
           (mkSessionReply (js "jwt:alice") (Some (js "rt"))
              (20 + refreshTokenExpiresIn) (profileOf aliceLoggedIn))).
  - reflexivity.
  - discriminate.
  - intros u [<-|[]] _. reflexivity.
  - reflexivity.
Defined.

Lemma matchLit_inv (lit s r : jsstr) : matchLit N.eqb lit s = Some r -> s = lit ++ r.
Proof.
  revert s. induction lit as [|c lit IH]; intros s; simpl.
  - intros H. congruence.
  - destruct s as [|d s]; [discriminate|].
    destruct (N.eqb d c) eqn:E; [|discriminate].
    apply N.eqb_eq in E. subst d. intros H. now rewrite (IH _ H).
Qed.

Lemma split_first (sep : N) (s : jsstr) :
  hd [] (split sep s) = takeWhile (fun c => negb (c =? sep)%N) s.
Proof.
  induction s as [|c s IH]; simpl; [reflexivity|].
  destruct (c =? sep)%N eqn:E; simpl; [reflexivity|].
  rewrite <- IH. destruct (split sep s); reflexivity.
Qed.

(** The token of a bearer header is what stands between [Bearer ] and
    the next space: anything after a second space is dropped, and a header
    with two spaces after [Bearer] carries the empty token. *)
Theorem bearer_token_is_first_word (h : jsstr) :
  noBearer (Some h) = false ->
  exists rest,
    h = js "Bearer " ++ rest
    /\ bearerToken h = takeWhile (fun c => negb (c =? 32)%N) rest.
Proof.
  unfold noBearer, startsWith. intros H.
  destruct (matchLit N.eqb (js "Bearer ") h) as [rest|] eqn:M; [|discriminate].
  exists rest. pose proof (matchLit_inv _ _ M) as ->. split; [reflexivity|].
  unfold bearerToken.
  change (js "Bearer " ++ rest) with (js "Bearer" ++ 32%N :: rest).
  rewrite split_app by reflexivity. cbn [nth].
  rewrite <- split_first. destruct (split 32 rest); reflexivity.
Qed.

Lemma bearer_token_is_first_word_witness :
  exists rest,
    js "Bearer jwt:alice and more" = js "Bearer " ++ rest
    /\ bearerToken (js "Bearer jwt:alice and more")
       = takeWhile (fun c => negb (c =? 32)%N) rest.
Proof.
  apply (@bearer_token_is_first_word (js "Bearer jwt:alice and more")). reflexivity.
Defined.

Lemma findUnique_found (e : Env) (id : jsstr) (db : DB) (u : User) :
  findUnique e id db = Some (Some u) ->
  In u (users db) /\ u_id u = id /\ findUnique e (u_id u) db = Some (Some u).
Proof.
  unfold findUnique. destruct (findUniqueThrows e); [discriminate|].
  intros H. injection H as H. pose proof (find_some _ _ H) as [Hin Hid].
  unfold hasId in Hid. apply jeqb_eq in Hid. rewrite Hid, H. auto.
Qed.

(** A request the middleware lets through carries a token that
    verifies, and [req.user] is the stored account with the token's user id;
    [GET /me] with the same header answers that account's profile and leaves
    the store alone. *)
Theorem middleware_sound (e : Env) (v : Verifier) (authHeader : option jsstr)
    (db : DB) (user : AuthUser) :
  authMiddleware e v authHeader db = Sent user ->
  exists header row email,
    authHeader = Some header
    /\ startsWith (js "Bearer ") header = true
    /\ verifyToken v (bearerToken header) = Some (u_id row, email)
    /\ In row (users db)
    /\ user = mkAuthUser (u_id row) (u_email row) (orElse (u_name row) [])
    /\ me e v authHeader db = (db, Sent (profileOf row)).
Proof.
  unfold authMiddleware, me.
  destruct authHeader as [[|h0 header]|]; try discriminate. cbn [noBearer orElse].
  destruct (startsWith (js "Bearer ") (h0 :: header)) eqn:B; [|discriminate].
  cbn [negb].
  destruct (verifyToken v (bearerToken (h0 :: header))) as [[userId email]|] eqn:V;
    [|discriminate].
  destruct (findUnique e userId db) as [[row|]|] eqn:F; try discriminate.
  intros H. injection H as <-.
  destruct (findUnique_found _ _ _ F) as (Hin & Hid & _).
  exists (h0 :: header), row, email. rewrite Hid. repeat split; auto.
Qed.

Lemma middleware_sound_witness :
  exists header row email,
    Some (js "Bearer jwt:alice") = Some header
    /\ startsWith (js "Bearer ") header = true
    /\ verifyToken toyVerifier (bearerToken header) = Some (u_id row, email)
    /\ In row (users (mkDB [aliceLoggedIn] []))
    /\ mkAuthUser alice (js "alice@example.org") (js "Alice")
       = mkAuthUser (u_id row) (u_email row) (orElse (u_name row) [])
    /\ me (calm [] 1) toyVerifier (Some (js "Bearer jwt:alice")) (mkDB [aliceLoggedIn] [])
       = (mkDB [aliceLoggedIn] [], Sent (profileOf row)).
Proof.
  apply (@middleware_sound (calm [] 1) toyVerifier (Some (js "Bearer jwt:alice"))
           (mkDB [aliceLoggedIn] [])
           (mkAuthUser alice (js "alice@example.org") (js "Alice"))).
  reflexivity.
Defined.

(** Behind the middleware, [POST /generate] of either revision never
    answers 404 "User not found": the account the handler looks up is the one
    the middleware has just read. *)
Theorem guarded_generate_finds_user
    (g : jsstr -> option Metadata -> Structured)
    (e : Env) (v : Verifier) (authHeader : option jsstr) (body : GenerateBody) (db : DB) :
  snd (guardedGenerate (V1.generate g) e v authHeader body db)
    <> fail 404 "User not found"
  /\ snd (guardedGenerate (V2.generate g) e v authHeader body db)
    <> fail 404 "User not found".
Proof.
  unfold guardedGenerate, authMiddleware.
  destruct (noBearer authHeader); [split; discriminate|].
  set (token := bearerToken (orElse authHeader [])).
  destruct (verifyToken v token) as [[userId email]|]; [|split; discriminate].
  destruct (findUnique e userId db) as [[row|]|] eqn:F; [|split; discriminate..].
  destruct (findUnique_found _ _ _ F) as (_ & _ & F').
  cbn [au_id]. split.
  - unfold V1.generate.
    destruct (u_id row) as [|i0 i] eqn:Ei; [discriminate|].
    destruct (content body) as [[|t0 t]|]; try discriminate.
    destruct (metadata body) as [md|]; [|discriminate].
    destruct (md_videoId md) as [[|v0 vid]|]; try discriminate.
    cbv zeta. rewrite F'.
    destruct (findFirst e _ db) as [[ex|]|]; try discriminate;
      unfold V1.generateAndStore; destruct (fullSummary _); try discriminate;
      destruct (transaction _ db) as [[d s]|]; discriminate.
  - unfold V2.generate.
    destruct (u_id row) as [|i0 i] eqn:Ei; [discriminate|].
    destruct (content body) as [[|t0 t]|]; try discriminate.
    destruct (metadata body) as [md|]; [|discriminate].
    destruct (md_videoId md) as [[|v0 vid]|]; try discriminate.
    cbv zeta. rewrite F'.
    destruct (findFirst e _ db) as [[ex|]|]; try discriminate;
      destruct (u_credits row <=? 0); try discriminate;
      destruct (fullSummary _); discriminate.
Qed.

End SessionProps.
